(** * FocusMark: coordination, activation and theme reconciliation

    A shallow embedding of the FocusMark VS Code extension
    (ThemeManager.ts, FocusMarkManager.ts, ConfigurationManager.ts,
    WindowIdentifier.ts) and the properties of its specification.

    Conventions of the embedding:
    - a JavaScript object used as a string-keyed record is a
      [gmap string jsval]; an own property whose value is [undefined] is a
      key bound to [VUndef], a missing property is an unbound key;
    - every [async] method is run to completion: one call is one state
      transformer, the interleavings of the event loop are the order in
      which the transformers are applied;
    - logging is omitted, it has no effect on the state. *)

From Stdlib Require Import Ascii QArith Qround Lqa.
From stdpp Require Import base strings gmap list sorting pretty.

Local Open Scope Z_scope.

(** ** JavaScript values held by a colour customization record *)

Inductive jsval : Type :=
  | VUndef
  | VNull
  | VStr (s : string).

#[global] Instance jsval_eq_dec : EqDecision jsval.
Proof. solve_decision. Defined.

(** [o[k]]: reading a missing property yields [undefined]. *)
Definition js_get (o : gmap string jsval) (k : string) : jsval :=
  default VUndef (o !! k).

(** [Object.prototype.hasOwnProperty.call(o, k)]. *)
Definition hasOwnProperty (o : gmap string jsval) (k : string) : bool :=
  bool_decide (is_Some (o !! k)).

(** [a !== b] on values that are strings, [null] or [undefined]. *)
Definition js_strict_ne (a b : jsval) : bool := bool_decide (a ≠ b).

(** [{ ...a, ...b }]: the properties of [b] win. *)
Definition spread (a b : gmap string jsval) : gmap string jsval := b ∪ a.

(** [v || {}] for an optional record. *)
Definition or_empty (v : option (gmap string jsval)) : gmap string jsval :=
  default ∅ v.

(** Truthiness of a [string | undefined] slot. *)
Definition truthy_str (v : option string) : bool :=
  match v with
  | Some s => negb (bool_decide (s = ""))
  | None => false
  end.

(** ** ThemeManager.ts: constants *)

Definition AFFECTED_ELEMENTS : list string :=
  [ "titleBar.activeBackground";
    "titleBar.activeForeground";
    "titleBar.inactiveBackground";
    "titleBar.inactiveForeground";
    "activityBar.background";
    "activityBar.foreground";
    "activityBar.inactiveForeground";
    "activityBar.border";
    "statusBar.background";
    "statusBar.foreground";
    "statusBar.border";
    "tab.activeBorderTop";
    "sideBar.border";
    "input.border";
    "focusBorder" ].

Definition MINIMAL_ELEMENTS : list string :=
  [ "titleBar.activeBackground";
    "titleBar.activeForeground";
    "titleBar.inactiveBackground";
    "titleBar.inactiveForeground" ].

(** ** The host: configuration targets and the [workbench.colorCustomizations]
    setting as [inspect] shows it, one optional record per scope. *)

Inductive ConfigurationTarget : Type :=
  | Global
  | Workspace
  | WorkspaceFolder.

#[global] Instance ConfigurationTarget_eq_dec : EqDecision ConfigurationTarget.
Proof. solve_decision. Defined.

Record Inspect : Type := mkInspect {
  globalValue : option (gmap string jsval);
  workspaceValue : option (gmap string jsval);
  workspaceFolderValue : option (gmap string jsval)
}.

#[global] Instance Inspect_eq_dec : EqDecision Inspect.
Proof. solve_decision. Defined.

Definition inspect_target (i : Inspect) (t : ConfigurationTarget)
  : option (gmap string jsval) :=
  match t with
  | Global => globalValue i
  | Workspace => workspaceValue i
  | WorkspaceFolder => workspaceFolderValue i
  end.

Definition set_target (i : Inspect) (t : ConfigurationTarget)
    (v : option (gmap string jsval)) : Inspect :=
  match t with
  | Global => mkInspect v (workspaceValue i) (workspaceFolderValue i)
  | Workspace => mkInspect (globalValue i) v (workspaceFolderValue i)
  | WorkspaceFolder => mkInspect (globalValue i) (workspaceValue i) v
  end.

(** ** ConfigurationManager.ts

    A JavaScript number is a rational (every finite double is one), an
    infinity or NaN; a raw setting is any JSON-like value. *)

Inductive jsnum : Type :=
  | NaN
  | PosInf
  | NegInf
  | Num (q : Q).

Inductive JsAny : Type :=
  | JUndefined
  | JNull
  | JBool (b : bool)
  | JNumber (n : jsnum)
  | JString (s : string)
  | JObject.

(** [a < b] and [a > b] on numbers: false as soon as one side is NaN. *)
Definition js_lt (a b : jsnum) : bool :=
  match a, b with
  | NaN, _ | _, NaN => false
  | _, NegInf => false
  | NegInf, _ => true
  | PosInf, _ => false
  | Num _, PosInf => true
  | Num x, Num y => if Qlt_le_dec x y then true else false
  end.

Definition js_gt (a b : jsnum) : bool := js_lt b a.

(** [Math.round]: the nearest integer, a tie going up. *)
Definition Math_round (n : jsnum) : jsnum :=
  match n with
  | Num q => Num (inject_Z (Qfloor (q + (1 # 2))))
  | other => other
  end.

(** The settings of the [focusmark] section the modelled code reads, as
    [config.get(key)] returns them without a default: [None] and
    [JUndefined] stand for a setting that is not set. *)
Record WorkspaceConfiguration : Type := mkWorkspaceConfiguration {
  raw_enabled : option bool;
  raw_enableColors : option bool;
  raw_keepInactiveWindowColors : option bool;
  raw_fullColorMode : JsAny;
  raw_minimalMode : JsAny;
  raw_activeApplyDelay : JsAny;
  raw_coordinationScope : option string
}.

(** [config.get(key, defaultValue)] on an untyped setting. *)
Definition config_get (raw : JsAny) (defaultValue : JsAny) : JsAny :=
  match raw with
  | JUndefined => defaultValue
  | v => v
  end.

(** The configuration [getConfiguration] builds; [theme], [customColor],
    [logLevel] and [title] are left out, nothing modelled here reads
    them. *)
Record FocusMarkConfig : Type := mkFocusMarkConfig {
  enabled : bool;
  enableColors : bool;
  keepInactiveWindowColors : bool;
  fullColorMode : bool;
  activeApplyDelay : jsnum;
  coordinationScope : string
}.

Definition validateDelay (value : JsAny) (max : jsnum) : jsnum :=
  match value with
  | JNumber NaN => Num 0%Q
  | JNumber n =>
      if js_lt n (Num 0%Q) then Num 0%Q
      else if js_gt n max then max
      else Math_round n
  | _ => Num 0%Q
  end.

Definition getConfiguration (c : WorkspaceConfiguration) : FocusMarkConfig :=
  let fullColorMode :=
    match raw_fullColorMode c with
    | JBool b => b
    | _ =>
        match raw_minimalMode c with
        | JBool b => negb b
        | _ => false
        end
    end in
  {| enabled := default true (raw_enabled c);
     enableColors := default true (raw_enableColors c);
     keepInactiveWindowColors := default false (raw_keepInactiveWindowColors c);
     fullColorMode := fullColorMode;
     activeApplyDelay :=
       validateDelay
         (config_get (raw_activeApplyDelay c) (JNumber (Num 100%Q)))
         (Num 500%Q);
     coordinationScope := default "global" (raw_coordinationScope c) |}.

Definition isEnabled (c : WorkspaceConfiguration) : bool :=
  default true (raw_enabled c).

(** What a handler reads but does not write: the focus signal of the window,
    whether a workspace is open ([workspaceFile] or a non-empty
    [workspaceFolders]), the settings, and the colour that
    [ConfigurationManager.getEffectiveColor] resolves the theme to. *)
Record Env : Type := mkEnv {
  focused : bool;
  hasWorkspace : bool;
  settings : WorkspaceConfiguration;
  effectiveColor : string
}.

(** ** ThemeManager.ts: state

    The four private fields of the class, the two mementos it persists to
    (with the keys [THEME_STATE_KEY], [THEME_APPLIED_KEY] and
    [GLOBAL_THEME_STATE_KEY]), the shared document, and the log of the
    [workbenchConfig.update] calls made so far (most recent first). *)

Record ThemeManager : Type := mkThemeManager {
  isThemeApplied : bool;
  lastAppliedColor : option string;
  lastAppliedMinimal : option bool;
  lastAppliedPalette : option (gmap string jsval);
  THEME_STATE : option (gmap string jsval);
  THEME_APPLIED : option bool;
  GLOBAL_THEME_STATE : option (gmap string jsval);
  colorCustomizations : Inspect;
  updates : list (ConfigurationTarget * option (gmap string jsval))
}.

#[global] Instance ThemeManager_eq_dec : EqDecision ThemeManager.
Proof. solve_decision. Defined.

Definition set_fields (tm : ThemeManager) (applied : bool)
    (color : option string) (minimal : option bool)
    (palette : option (gmap string jsval)) : ThemeManager :=
  mkThemeManager applied color minimal palette
    (THEME_STATE tm) (THEME_APPLIED tm) (GLOBAL_THEME_STATE tm)
    (colorCustomizations tm) (updates tm).

Definition set_THEME_STATE (tm : ThemeManager)
    (v : option (gmap string jsval)) : ThemeManager :=
  mkThemeManager (isThemeApplied tm) (lastAppliedColor tm)
    (lastAppliedMinimal tm) (lastAppliedPalette tm)
    v (THEME_APPLIED tm) (GLOBAL_THEME_STATE tm)
    (colorCustomizations tm) (updates tm).

Definition set_THEME_APPLIED (tm : ThemeManager) (v : option bool)
  : ThemeManager :=
  mkThemeManager (isThemeApplied tm) (lastAppliedColor tm)
    (lastAppliedMinimal tm) (lastAppliedPalette tm)
    (THEME_STATE tm) v (GLOBAL_THEME_STATE tm)
    (colorCustomizations tm) (updates tm).

Definition set_GLOBAL_THEME_STATE (tm : ThemeManager)
    (v : option (gmap string jsval)) : ThemeManager :=
  mkThemeManager (isThemeApplied tm) (lastAppliedColor tm)
    (lastAppliedMinimal tm) (lastAppliedPalette tm)
    (THEME_STATE tm) (THEME_APPLIED tm) v
    (colorCustomizations tm) (updates tm).

(** [workbenchConfig.update('colorCustomizations', value, target)]: the
    value replaces the one of that scope, and the call is logged. *)
Definition config_update (tm : ThemeManager) (value : option (gmap string jsval))
    (target : ConfigurationTarget) : ThemeManager :=
  mkThemeManager (isThemeApplied tm) (lastAppliedColor tm)
    (lastAppliedMinimal tm) (lastAppliedPalette tm)
    (THEME_STATE tm) (THEME_APPLIED tm) (GLOBAL_THEME_STATE tm)
    (set_target (colorCustomizations tm) target value)
    ((target, value) :: updates tm).

(** ** ThemeManager.ts: methods that do not derive colours *)

Definition getWorkspaceConfigurationTarget (env : Env)
  : option ConfigurationTarget :=
  if hasWorkspace env then Some Workspace else None.

Definition getConfigurationTarget (env : Env) : ConfigurationTarget :=
  default Global (getWorkspaceConfigurationTarget env).

(** The record the capture and the restore read: the workspace value when a
    workspace is open, the global value otherwise. *)
Definition scopedCustomizations (env : Env) (tm : ThemeManager)
  : gmap string jsval :=
  match getWorkspaceConfigurationTarget env with
  | Some _ => or_empty (workspaceValue (colorCustomizations tm))
  | None => or_empty (globalValue (colorCustomizations tm))
  end.

(** Loop body of the two capture methods:
    [stored[key] = hasOwn(current, key) ? (current[key] ?? null) : null]. *)
Definition captureKey (current stored : gmap string jsval) (key : string)
  : gmap string jsval :=
  if hasOwnProperty current key then
    match js_get current key with
    | VUndef | VNull => <[key := VNull]> stored
    | v => <[key := v]> stored
    end
  else <[key := VNull]> stored.

Definition captureAll (current : gmap string jsval) : gmap string jsval :=
  foldl (captureKey current) ∅ AFFECTED_ELEMENTS.

Definition getStoredCustomizations (tm : ThemeManager) := THEME_STATE tm.
Definition getStoredGlobalCustomizations (tm : ThemeManager) :=
  GLOBAL_THEME_STATE tm.

Definition ensureOriginalCustomizationsCaptured (env : Env)
    (tm : ThemeManager) : ThemeManager :=
  match getStoredCustomizations tm with
  | Some _ => tm
  | None => set_THEME_STATE tm (Some (captureAll (scopedCustomizations env tm)))
  end.

Definition ensureGlobalOriginalCustomizationsCaptured (tm : ThemeManager)
  : ThemeManager :=
  match getStoredGlobalCustomizations tm with
  | Some _ => tm
  | None =>
      set_GLOBAL_THEME_STATE tm
        (Some (captureAll (or_empty (globalValue (colorCustomizations tm)))))
  end.

(** The guard both restore loops start with: with a fingerprint recorded, a
    key whose current value is not the applied one is skipped. *)
Definition editedSinceApply (appliedPalette : option (gmap string jsval))
    (current : gmap string jsval) (key : string) : bool :=
  match appliedPalette with
  | Some applied => js_strict_ne (js_get current key) (js_get applied key)
  | None => false
  end.

(** What a restore does with a key it is still responsible for. *)
Definition putOriginal (stored updated : gmap string jsval) (key : string)
  : gmap string jsval :=
  if hasOwnProperty stored key then
    match js_get stored key with
    | VNull | VUndef => delete key updated
    | original => <[key := original]> updated
    end
  else delete key updated.

(** The binding a restored key ends with: the colour the snapshot holds
    for it, or none when the snapshot holds [null] for it or is missing. *)
Definition originalOf (stored : option (gmap string jsval)) (key : string)
  : option jsval :=
  match stored with
  | Some s =>
      match s !! key with
      | Some (VStr original) => Some (VStr original)
      | _ => None
      end
  | None => None
  end.

Definition restoreKey (appliedPalette : option (gmap string jsval))
    (current : gmap string jsval) (stored : option (gmap string jsval))
    (updated : gmap string jsval) (key : string) : gmap string jsval :=
  if editedSinceApply appliedPalette current key then updated
  else
    match stored with
    | Some s => putOriginal s updated key
    | None => delete key updated
    end.

Definition clearStoredCustomizations (tm : ThemeManager) : ThemeManager :=
  set_THEME_APPLIED (set_THEME_STATE tm None) (Some false).

Definition clearStoredGlobalCustomizations (tm : ThemeManager) : ThemeManager :=
  set_GLOBAL_THEME_STATE tm None.

Definition restoreOriginalCustomizations (env : Env)
    (stored : option (gmap string jsval)) (tm : ThemeManager) : ThemeManager :=
  let currentCustomizations := scopedCustomizations env tm in
  let updatedCustomizations :=
    foldl (restoreKey (lastAppliedPalette tm) currentCustomizations stored)
      currentCustomizations AFFECTED_ELEMENTS in
  let target := getConfigurationTarget env in
  clearStoredCustomizations
    (config_update tm (Some updatedCustomizations) target).

Definition restoreGlobalOriginalCustomizations (tm : ThemeManager)
  : ThemeManager :=
  match getStoredGlobalCustomizations tm with
  | None => tm
  | Some stored =>
      match lastAppliedPalette tm with
      | None => tm
      | Some appliedPalette =>
          let globalCustomizations :=
            or_empty (globalValue (colorCustomizations tm)) in
          let updatedCustomizations :=
            foldl (restoreKey (Some appliedPalette) globalCustomizations
                     (Some stored))
              globalCustomizations AFFECTED_ELEMENTS in
          let hasKeys :=
            negb (bool_decide (map_to_list updatedCustomizations = [])) in
          clearStoredGlobalCustomizations
            (config_update tm
               (if hasKeys then Some updatedCustomizations else None)
               Global)
      end
  end.

Definition applyDefaultColors (env : Env) (tm : ThemeManager) : ThemeManager :=
  let target := getConfigurationTarget env in
  let currentCustomizations :=
    match target with
    | Global => or_empty (globalValue (colorCustomizations tm))
    | _ => or_empty (workspaceValue (colorCustomizations tm))
    end in
  let updatedCustomizations :=
    foldl (λ updated key, <[key := VNull]> updated)
      currentCustomizations AFFECTED_ELEMENTS in
  config_update tm (Some updatedCustomizations) target.

Definition removeTheme (env : Env) (log forceDefaultInactive : bool)
    (tm : ThemeManager) : ThemeManager :=
  let storedCustomizations := getStoredCustomizations tm in
  if negb (isThemeApplied tm) && negb (bool_decide (is_Some storedCustomizations))
     && negb forceDefaultInactive
  then tm
  else
    let tm1 :=
      if forceDefaultInactive then
        set_THEME_APPLIED
          (applyDefaultColors env (ensureOriginalCustomizationsCaptured env tm))
          (Some false)
      else restoreOriginalCustomizations env storedCustomizations tm in
    set_fields tm1 false None None None.

Definition resetAllColors (env : Env) (tm : ThemeManager) : ThemeManager :=
  restoreGlobalOriginalCustomizations (removeTheme env true false tm).

Definition isActive (tm : ThemeManager) : bool := isThemeApplied tm.

(** [ensureCleanStateOnStartup({ preserveTheme, forceDefaultInactive })]. *)
Definition ensureCleanStateOnStartup (env : Env)
    (preserveTheme forceDefaultInactive : bool) (tm : ThemeManager)
  : ThemeManager :=
  if negb (default false (THEME_APPLIED tm)) then tm
  else if preserveTheme then
    set_fields tm true (lastAppliedColor tm) (lastAppliedMinimal tm)
      (lastAppliedPalette tm)
  else if forceDefaultInactive then removeTheme env false true tm
  else removeTheme env false false tm.

(** ** The colord library

    [colord] is a third-party package; the palette derivation is
    parametric in it.  The one fact the derivation relies on is that
    [toHex] prints a non-empty string (it starts with a hash sign). *)

Class Colord : Type := {
  Colour : Type;
  colord : string → Colour;
  isDark : Colour → bool;
  lighten : Q → Colour → Colour;
  darken : Q → Colour → Colour;
  saturate : Q → Colour → Colour;
  desaturate : Q → Colour → Colour;
  alpha : Q → Colour → Colour;
  toHex : Colour → string;
  toHex_nonempty : ∀ c, toHex c ≠ ""
}.

Section Palette.
Context `{Colord}.

Definition fullPalette (baseColorHex : string) : gmap string string :=
  let base := colord baseColorHex in
  let isDark := isDark base in
  let foreground := if isDark then "#FFFFFF" else "#1E1E1E" in
  let inactiveForeground :=
    if isDark then toHex (saturate 0.2%Q (lighten 0.3%Q base))
    else toHex (desaturate 0.2%Q (darken 0.3%Q base)) in
  let inactiveBackground :=
    if isDark then toHex (darken 0.1%Q base) else toHex (lighten 0.1%Q base) in
  let border := toHex (darken 0.08%Q base) in
  list_to_map
    [ ("titleBar.activeBackground", baseColorHex);
      ("titleBar.activeForeground", foreground);
      ("titleBar.inactiveBackground", inactiveBackground);
      ("titleBar.inactiveForeground", inactiveForeground);
      ("activityBar.background", baseColorHex);
      ("activityBar.foreground", foreground);
      ("activityBar.inactiveForeground", inactiveForeground);
      ("activityBar.border", border);
      ("statusBar.background", baseColorHex);
      ("statusBar.foreground", foreground);
      ("statusBar.border", border);
      ("tab.activeBorderTop", border);
      ("sideBar.border", border);
      ("input.border", border);
      ("focusBorder", toHex (alpha 0.7%Q base)) ].

Definition generateColorPalette (baseColorHex : string) (minimalMode : bool)
  : gmap string string :=
  let fullPalette := fullPalette baseColorHex in
  if minimalMode then
    foldl
      (λ minimalPalette key,
         let value := fullPalette !! key in
         if truthy_str value then
           match value with
           | Some v => <[key := v]> minimalPalette
           | None => minimalPalette
           end
         else minimalPalette)
      ∅ MINIMAL_ELEMENTS
  else fullPalette.

Definition buildAppliedPalette (baseColorHex : string) (minimalMode : bool)
  : gmap string jsval :=
  let palette := generateColorPalette baseColorHex minimalMode in
  foldl
    (λ applied key,
       <[key := from_option VStr VUndef (palette !! key)]> applied)
    ∅ AFFECTED_ELEMENTS.
End Palette.

(** ** ThemeManager.ts: applying a palette *)

(** The order of [Array.prototype.sort] without a comparator on keys:
    code unit by code unit.  What [areCustomizationsEqual] answers does
    not depend on the order, as long as it is total
    ([areCustomizationsEqual_spec]). *)
Definition str_le (a b : string) : Prop := String.leb a b = true.

#[global] Instance str_le_dec : RelDecision str_le.
Proof. intros a b. unfold str_le. apply _. Defined.

(** [Object.keys(o).filter(key => o[key] !== undefined).sort()]. *)
Definition Object_keys (o : gmap string jsval) : list string :=
  (map_to_list o).*1.

Definition definedKeys (o : gmap string jsval) : list string :=
  merge_sort str_le
    (filter (λ key, js_get o key ≠ VUndef) (Object_keys o)).

(** The loop of [areCustomizationsEqual] over the two sorted key arrays,
    which have the same length when it runs. *)
Fixpoint sameEntries (current next : gmap string jsval)
    (currentKeys nextKeys : list string) : bool :=
  match currentKeys, nextKeys with
  | key :: currentKeys', nextKey :: nextKeys' =>
      if bool_decide (key ≠ nextKey) then false
      else if js_strict_ne (js_get current key) (js_get next key) then false
      else sameEntries current next currentKeys' nextKeys'
  | _, _ => true
  end.

Definition areCustomizationsEqual (current next : gmap string jsval) : bool :=
  let currentKeys := definedKeys current in
  let nextKeys := definedKeys next in
  if bool_decide (length currentKeys ≠ length nextKeys) then false
  else sameEntries current next currentKeys nextKeys.

(** A record without its [undefined] keys: what the comparison of
    [areCustomizationsEqual] looks at. *)
Definition definedPart (o : gmap string jsval) : gmap string jsval :=
  filter (λ kv, kv.2 ≠ VUndef) o.

(** The merge of [applyColorsToWorkbench], [undefined] keys cleaned up. *)
Definition mergedCustomizations (currentCustomizations colors : gmap string jsval)
  : gmap string jsval :=
  filter (λ kv, kv.2 ≠ VUndef) (spread currentCustomizations colors).

Definition applyColorsToWorkbench (colors : gmap string jsval)
    (target : ConfigurationTarget) (tm : ThemeManager) : ThemeManager :=
  let currentCustomizations :=
    or_empty (inspect_target (colorCustomizations tm) target) in
  let newCustomizations := mergedCustomizations currentCustomizations colors in
  if areCustomizationsEqual currentCustomizations newCustomizations then tm
  else config_update tm (Some newCustomizations) target.

Definition resetKeys : gmap string jsval :=
  foldl (λ reset key, <[key := VUndef]> reset) ∅ AFFECTED_ELEMENTS.

Section Apply.
Context `{Colord}.

Definition applyTheme (env : Env) (tm : ThemeManager) : ThemeManager :=
  let baseColor := effectiveColor env in
  let fullColorMode := fullColorMode (getConfiguration (settings env)) in
  let minimalMode := negb fullColorMode in
  if isThemeApplied tm
     && bool_decide (lastAppliedColor tm = Some baseColor)
     && bool_decide (lastAppliedMinimal tm = Some minimalMode)
  then tm
  else
    let tm1 := ensureOriginalCustomizationsCaptured env tm in
    let tm2 := ensureGlobalOriginalCustomizationsCaptured tm1 in
    let newColorCustomizations := generateColorPalette baseColor minimalMode in
    let tm3 :=
      set_fields tm2 (isThemeApplied tm2) (lastAppliedColor tm2)
        (lastAppliedMinimal tm2)
        (Some (buildAppliedPalette baseColor minimalMode)) in
    let colors := spread resetKeys (VStr <$> newColorCustomizations) in
    let tm4 :=
      match getWorkspaceConfigurationTarget env with
      | Some workspaceTarget =>
          applyColorsToWorkbench colors workspaceTarget tm3
      | None => tm3
      end in
    let tm5 := applyColorsToWorkbench colors Global tm4 in
    set_THEME_APPLIED
      (set_fields tm5 true (Some baseColor) (Some minimalMode)
         (lastAppliedPalette tm5))
      (Some true).
End Apply.

(** ** Apply sessions

    What can happen to a ThemeManager between two restores: the theme is
    applied (with whatever settings hold at that moment), the window is
    reset to the default colours ([removeTheme] with
    [forceDefaultInactive]), or the user or a sibling window rewrites the
    shared document. *)

Inductive SessionStep : Type :=
  | StepApplyTheme (env : Env)
  | StepForceDefault (env : Env)
  | StepExternalEdit (document : Inspect).

Definition externalEdit (document : Inspect) (tm : ThemeManager)
  : ThemeManager :=
  mkThemeManager (isThemeApplied tm) (lastAppliedColor tm)
    (lastAppliedMinimal tm) (lastAppliedPalette tm)
    (THEME_STATE tm) (THEME_APPLIED tm) (GLOBAL_THEME_STATE tm)
    document (updates tm).

Section Session.
Context `{Colord}.

Definition sessionStep (tm : ThemeManager) (step : SessionStep)
  : ThemeManager :=
  match step with
  | StepApplyTheme env => applyTheme env tm
  | StepForceDefault env => removeTheme env true true tm
  | StepExternalEdit document => externalEdit document tm
  end.

Definition runSession (steps : list SessionStep) (tm : ThemeManager)
  : ThemeManager :=
  foldl sessionStep tm steps.
End Session.

(** A document in which no affected key is bound, in any scope. *)
Definition noOverriddenKeys (tm : ThemeManager) : Prop :=
  ∀ target key, key ∈ AFFECTED_ELEMENTS →
    or_empty (inspect_target (colorCustomizations tm) target) !! key = None.

(** ** WindowIdentifier.ts: the shape of a workspace identifier

    [workspaceName] is the sanitized name of the first folder and [pathHash]
    the base-36 hash of its path, both computed by the host. *)
Definition generateWorkspaceId (workspaceFolders : bool)
    (workspaceName : option string) (pathHash : string) : string :=
  if negb workspaceFolders then "no-workspace"
  else
    if truthy_str workspaceName
    then default "" workspaceName +:+ "-" +:+ pathHash
    else "workspace-" +:+ pathHash.

(** ** FocusMarkManager.ts *)

Module CoordinationData.
(** The coordination record as the handler reads it off the parsed value:
    an identifier is [None] when the field is missing, and the timestamp is
    the number the comparison with [lastActivatedAt] sees, [None] when
    there is none (a missing field compares as NaN). *)
Record t : Type := mk {
  activeWindowId : option string;
  workspaceId : option string;
  timestamp : option Z
}.

#[global] Instance eq_dec : EqDecision t.
Proof. solve_decision. Defined.
End CoordinationData.

(** The JavaScript built-ins the coordination code calls.  [JSON_parse]
    answers [None] when [JSON.parse] throws, [Some None] when the parsed
    value is [null] (or another falsy value), and the three fields read off
    the parsed value otherwise. *)
Class JsHost : Type := {
  JSON_parse : string → option (option CoordinationData.t);
  JSON_stringify : CoordinationData.t → string;
  String_trim : string → string
}.

(** The calls the two user-interface collaborators receive, most recent
    first. *)
Inductive TitleCall : Type :=
  | TitleSetActive (indicator : string)
  | TitleSetInactive
  | TitleReset.

Inductive StatusBarCall : Type :=
  | StatusSetActive (isActive : bool)
  | StatusShow
  | StatusHide.

#[global] Instance TitleCall_eq_dec : EqDecision TitleCall.
Proof. solve_decision. Defined.

#[global] Instance StatusBarCall_eq_dec : EqDecision StatusBarCall.
Proof. solve_decision. Defined.

Record FocusMarkManager : Type := mkFocusMarkManager {
  windowId : string;
  workspaceId : string;
  themeManager : ThemeManager;
  titleManager : list TitleCall;
  statusBarManager : list StatusBarCall;
  isWindowActive : bool;
  lastActivatedAt : Z;
  activeApplyTimer : bool;        (* a timer handle is pending *)
  deactivateTimer : bool;
  coordinationFile : option string  (* the content of the shared file *)
}.

#[global] Instance FocusMarkManager_eq_dec : EqDecision FocusMarkManager.
Proof. solve_decision. Defined.

Definition clearActiveApplyTimer (m : FocusMarkManager) : FocusMarkManager :=
  mkFocusMarkManager (windowId m) (workspaceId m) (themeManager m)
    (titleManager m) (statusBarManager m) (isWindowActive m)
    (lastActivatedAt m) false (deactivateTimer m) (coordinationFile m).

Definition clearDeactivateTimer (m : FocusMarkManager) : FocusMarkManager :=
  mkFocusMarkManager (windowId m) (workspaceId m) (themeManager m)
    (titleManager m) (statusBarManager m) (isWindowActive m)
    (lastActivatedAt m) (activeApplyTimer m) false (coordinationFile m).

Definition set_isWindowActive (m : FocusMarkManager) (b : bool)
  : FocusMarkManager :=
  mkFocusMarkManager (windowId m) (workspaceId m) (themeManager m)
    (titleManager m) (statusBarManager m) b
    (lastActivatedAt m) (activeApplyTimer m) (deactivateTimer m)
    (coordinationFile m).

Definition set_themeManager (m : FocusMarkManager) (tm : ThemeManager)
  : FocusMarkManager :=
  mkFocusMarkManager (windowId m) (workspaceId m) tm
    (titleManager m) (statusBarManager m) (isWindowActive m)
    (lastActivatedAt m) (activeApplyTimer m) (deactivateTimer m)
    (coordinationFile m).

Definition call_title (m : FocusMarkManager) (c : TitleCall)
  : FocusMarkManager :=
  mkFocusMarkManager (windowId m) (workspaceId m) (themeManager m)
    (c :: titleManager m) (statusBarManager m) (isWindowActive m)
    (lastActivatedAt m) (activeApplyTimer m) (deactivateTimer m)
    (coordinationFile m).

Definition call_statusBar (m : FocusMarkManager) (c : StatusBarCall)
  : FocusMarkManager :=
  mkFocusMarkManager (windowId m) (workspaceId m) (themeManager m)
    (titleManager m) (c :: statusBarManager m) (isWindowActive m)
    (lastActivatedAt m) (activeApplyTimer m) (deactivateTimer m)
    (coordinationFile m).

Definition set_coordinationFile (m : FocusMarkManager) (f : option string)
  : FocusMarkManager :=
  mkFocusMarkManager (windowId m) (workspaceId m) (themeManager m)
    (titleManager m) (statusBarManager m) (isWindowActive m)
    (lastActivatedAt m) (activeApplyTimer m) (deactivateTimer m) f.

Definition deactivateWindow (env : Env) (preserveTheme : bool)
    (m : FocusMarkManager) : FocusMarkManager :=
  if negb (isWindowActive m) && negb (isActive (themeManager m)) then m
  else
    let m1 := clearActiveApplyTimer (set_isWindowActive m false) in
    let config := getConfiguration (settings env) in
    let forceDefaultInactive := negb (keepInactiveWindowColors config) in
    let m2 := call_statusBar (call_title m1 TitleSetInactive)
                (StatusSetActive false) in
    if negb (enableColors config) then
      set_themeManager m2 (removeTheme env false false (themeManager m2))
    else
      let shouldPreserveTheme := preserveTheme && negb forceDefaultInactive in
      if negb shouldPreserveTheme then
        set_themeManager m2
          (removeTheme env true forceDefaultInactive (themeManager m2))
      else m2.

Definition scheduleDeactivation (env : Env) (preserveTheme : bool)
    (m : FocusMarkManager) : FocusMarkManager :=
  deactivateWindow env preserveTheme (clearDeactivateTimer m).

Section Coordination.
Context `{JsHost}.

(** [notifyWindowActive], with [now] the value of [Date.now()]; the
    temporary file is written and renamed over the shared one. *)
Definition notifyWindowActive (now : Z) (m : FocusMarkManager)
  : FocusMarkManager :=
  let data :=
    CoordinationData.mk (Some (windowId m)) (Some (workspaceId m))
      (Some now) in
  mkFocusMarkManager (windowId m) (workspaceId m) (themeManager m)
    (titleManager m) (statusBarManager m) (isWindowActive m)
    now (activeApplyTimer m) (deactivateTimer m)
    (Some (JSON_stringify data)).

(** The part of [handleCoordinationChange] that follows a successful
    parse. *)
Definition handleCoordinationData (env : Env)
    (data : option CoordinationData.t) (m : FocusMarkManager)
  : FocusMarkManager :=
  match data with
  | None => m
  | Some data =>
      if negb (truthy_str (CoordinationData.activeWindowId data))
         || bool_decide (CoordinationData.activeWindowId data = Some (windowId m))
      then m
      else if focused env then m
      else if
        match CoordinationData.timestamp data with
        | Some remote => bool_decide (lastActivatedAt m >= remote)
        | None => false
        end
      then m
      else if isWindowActive m || isActive (themeManager m) then
        let config := getConfiguration (settings env) in
        let keepInactive := keepInactiveWindowColors config in
        let scope := coordinationScope config in
        let sameWorkspace :=
          truthy_str (CoordinationData.workspaceId data)
          && bool_decide (CoordinationData.workspaceId data = Some (workspaceId m)) in
        if bool_decide (scope = "workspace") && negb sameWorkspace then m
        else
          let preserveTheme := keepInactive && sameWorkspace in
          scheduleDeactivation env preserveTheme m
      else m
  end.

Definition handleCoordinationChange (env : Env) (m : FocusMarkManager)
  : FocusMarkManager :=
  match coordinationFile m with
  | None => m
  | Some fileContent =>
      if bool_decide (String_trim fileContent = "") then m
      else
        match JSON_parse fileContent with
        | None => set_coordinationFile m None
        | Some data => handleCoordinationData env data m
        end
  end.

End Coordination.

(** The reconciliation [initializeInternal] starts with. *)
Definition startupReconciliation (env : Env) (tm : ThemeManager)
  : ThemeManager :=
  let config := getConfiguration (settings env) in
  let isEnabled := isEnabled (settings env) in
  let isFocused := focused env in
  ensureCleanStateOnStartup env
    (isEnabled && enableColors config
     && (isFocused || keepInactiveWindowColors config))
    (isEnabled && enableColors config
     && negb (keepInactiveWindowColors config) && negb isFocused)
    tm.

(** ** Executable instances of the two interfaces

    They serve to run the model on concrete inputs; the general theorems
    below hold for every instance. *)

Module SampleColord.
(** A stand-in for the library: colours are integer channels and an
    alpha, read from and printed as hex; [lighten] and [darken] shift the
    channels and [saturate] and [desaturate] are the identity, where colord
    goes through HSL. *)
Record rgba : Type := mk { r : Z; g : Z; b : Z; a : Q }.

Definition hexValue (c : ascii) : option Z :=
  let n := Z.of_N (N_of_ascii c) in
  if bool_decide (48 ≤ n ≤ 57) then Some (n - 48)
  else if bool_decide (65 ≤ n ≤ 70) then Some (n - 55)
  else if bool_decide (97 ≤ n ≤ 102) then Some (n - 87)
  else None.

Definition parse (s : string) : rgba :=
  match String.list_ascii_of_string s with
  | [hash; r1; r0; g1; g0; b1; b0] =>
      match hexValue r1, hexValue r0, hexValue g1, hexValue g0,
            hexValue b1, hexValue b0 with
      | Some r1, Some r0, Some g1, Some g0, Some b1, Some b0 =>
          if bool_decide (hash = "#"%char)
          then mk (16 * r1 + r0) (16 * g1 + g0) (16 * b1 + b0) 1
          else mk 0 0 0 1
      | _, _, _, _, _, _ => mk 0 0 0 1
      end
  | _ => mk 0 0 0 1
  end.

Definition hexDigit (n : Z) : ascii :=
  if bool_decide (n < 10) then ascii_of_N (Z.to_N (48 + n))
  else ascii_of_N (Z.to_N (87 + n)).

Definition hexByte (n : Z) : string :=
  let n := Z.max 0 (Z.min 255 n) in
  String (hexDigit (n / 16)) (String (hexDigit (n mod 16)) EmptyString).

Definition shift (amount : Q) (c : rgba) : rgba :=
  let d := Qfloor (amount * 255 + (1 # 2)) in
  mk (r c + d) (g c + d) (b c + d) (a c).

Definition print (c : rgba) : string :=
  "#" +:+ hexByte (r c) +:+ hexByte (g c) +:+ hexByte (b c)
  +:+ (if Qlt_le_dec (a c) 1 then hexByte (Qfloor (a c * 255 + (1 # 2)))
       else "").

#[export] Instance instance : Colord.
Proof.
  refine {|
    Colour := rgba;
    colord := parse;
    isDark := λ c, bool_decide (r c * 299 + g c * 587 + b c * 114 < 127500);
    lighten := shift;
    darken := λ amount, shift (- amount);
    saturate := λ _ c, c;
    desaturate := λ _ c, c;
    alpha := λ v c, mk (r c) (g c) (b c) v;
    toHex := print
  |}.
  intros c; unfold print; discriminate.
Defined.
End SampleColord.

Module SampleHost.
(** A reader and a writer for the flat records [notifyWindowActive]
    writes: an object whose members are strings without escapes or
    integers, with string identifiers and a numeric timestamp, or the
    literal [null].  The reader rejects every other text, among them the
    empty text, which [JSON.parse] rejects too. *)

Definition quoteChar : ascii := ascii_of_nat 34.

Definition isSpace (c : ascii) : bool :=
  let n := N_of_ascii c in
  bool_decide (n = 32 ∨ 9 ≤ n ≤ 13)%N.

Fixpoint trimStart (l : list ascii) : list ascii :=
  match l with
  | c :: l' => if isSpace c then trimStart l' else l
  | [] => []
  end.

Definition trim (s : string) : string :=
  String.string_of_list_ascii
    (reverse (trimStart (reverse (trimStart (String.list_ascii_of_string s))))).

Inductive value : Type :=
  | VString (s : string)
  | VNumber (n : Z).

(** The characters of a string literal up to its closing quote. *)
Fixpoint readString (l : list ascii) : option (string * list ascii) :=
  match l with
  | [] => None
  | c :: l' =>
      if bool_decide (c = quoteChar) then Some ("", l')
      else if bool_decide (c = "\"%char) then None
      else '(s, rest) ← readString l'; Some (String c s, rest)
  end.

Definition digit (c : ascii) : option Z :=
  let n := Z.of_N (N_of_ascii c) in
  if bool_decide (48 ≤ n ≤ 57) then Some (n - 48) else None.

Fixpoint readDigits (acc : Z) (l : list ascii) : Z * list ascii :=
  match l with
  | c :: l' =>
      match digit c with
      | Some d => readDigits (10 * acc + d) l'
      | None => (acc, l)
      end
  | [] => (acc, [])
  end.

Definition readValue (l : list ascii) : option (value * list ascii) :=
  match l with
  | c :: l' =>
      if bool_decide (c = quoteChar) then
        '(s, rest) ← readString l'; Some (VString s, rest)
      else if bool_decide (c = "-"%char) then
        match l' with
        | d :: _ =>
            if bool_decide (is_Some (digit d)) then
              let '(n, rest) := readDigits 0 l' in Some (VNumber (- n), rest)
            else None
        | [] => None
        end
      else if bool_decide (is_Some (digit c)) then
        let '(n, rest) := readDigits 0 l in Some (VNumber n, rest)
      else None
  | [] => None
  end.

(** The members of an object after its opening brace. *)
Fixpoint readMembers (fuel : nat) (l : list ascii)
  : option (list (string * value)) :=
  match fuel with
  | O => None
  | S fuel =>
      match l with
      | c :: l' =>
          if bool_decide (c = quoteChar) then
            '(key, rest) ← readString l';
            match rest with
            | colon :: rest =>
                if bool_decide (colon = ":"%char) then
                  '(v, rest) ← readValue rest;
                  match rest with
                  | [close] =>
                      if bool_decide (close = "}"%char)
                      then Some [(key, v)] else None
                  | comma :: rest =>
                      if bool_decide (comma = ","%char) then
                        members ← readMembers fuel rest;
                        Some ((key, v) :: members)
                      else None
                  | [] => None
                  end
                else None
            | [] => None
            end
          else None
      | [] => None
      end
  end.

(** Of two members with one key the later one wins. *)
Fixpoint field (members : list (string * value)) (key : string)
  : option value :=
  match members with
  | [] => None
  | (k, v) :: members =>
      match field members key with
      | Some later => Some later
      | None => if bool_decide (k = key) then Some v else None
      end
  end.

Definition stringField (members : list (string * value)) (key : string)
  : option (option string) :=
  match field members key with
  | Some (VString s) => Some (Some s)
  | Some (VNumber _) => None
  | None => Some None
  end.

Definition numberField (members : list (string * value)) (key : string)
  : option (option Z) :=
  match field members key with
  | Some (VNumber n) => Some (Some n)
  | Some (VString _) => None
  | None => Some None
  end.

Definition toData (members : list (string * value))
  : option CoordinationData.t :=
  activeWindowId ← stringField members "activeWindowId";
  workspaceId ← stringField members "workspaceId";
  timestamp ← numberField members "timestamp";
  Some (CoordinationData.mk activeWindowId workspaceId timestamp).

Definition parse (text : string) : option (option CoordinationData.t) :=
  let s := trim text in
  if bool_decide (s = "null") then Some None
  else if bool_decide (s = "{}") then Some <$> toData []
  else
    match String.list_ascii_of_string s with
    | c :: l =>
        if bool_decide (c = "{"%char) then
          members ← readMembers (length l) l; Some <$> toData members
        else None
    | [] => None
    end.

Definition quote (s : string) : string :=
  String quoteChar s +:+ String quoteChar "".

Definition member (key : string) (v : option string) : list string :=
  match v with
  | Some v => [quote key +:+ ":" +:+ v]
  | None => []
  end.

Definition stringify (d : CoordinationData.t) : string :=
  "{" +:+
  String.concat ","
    (member "activeWindowId" (quote <$> CoordinationData.activeWindowId d)
     ++ member "workspaceId" (quote <$> CoordinationData.workspaceId d)
     ++ member "timestamp" (pretty <$> CoordinationData.timestamp d))
  +:+ "}".

#[export] Instance instance : JsHost := {|
  JSON_parse := parse;
  JSON_stringify := stringify;
  String_trim := trim
|}.
End SampleHost.

(** ** Concrete runs

    The inputs of the examples at the end: a window without and with a
    workspace, the theme applied from a pristine document, a user edit made
    while it is applied, a crash that loses the fields held in memory, and
    the records a sibling window writes. *)

Module Scenario.
Import SampleColord SampleHost.

Definition defaults : WorkspaceConfiguration :=
  mkWorkspaceConfiguration None None None JUndefined JUndefined JUndefined
    None.

Definition fullColour : WorkspaceConfiguration :=
  mkWorkspaceConfiguration None None None (JBool true) JUndefined
    JUndefined None.

Definition keepInactive : WorkspaceConfiguration :=
  mkWorkspaceConfiguration None None (Some true) JUndefined JUndefined
    JUndefined None.

Definition keepInactiveNoColours : WorkspaceConfiguration :=
  mkWorkspaceConfiguration None (Some false) (Some true) JUndefined
    JUndefined JUndefined None.

Definition halfMillisecond : WorkspaceConfiguration :=
  mkWorkspaceConfiguration None None None JUndefined JUndefined
    (JNumber (Num (199 # 2))) None.

Definition blue : string := "#1976D2".

Definition focusedWindow : Env := mkEnv true false fullColour blue.
Definition unfocusedWindow : Env := mkEnv false false fullColour blue.
Definition focusedWorkspace : Env := mkEnv true true defaults blue.
Definition unfocusedWorkspace : Env := mkEnv false true defaults blue.
Definition unfocusedKeep : Env := mkEnv false false keepInactive blue.
Definition unfocusedKeepNoColours : Env :=
  mkEnv false false keepInactiveNoColours blue.

Definition pristine : ThemeManager :=
  mkThemeManager false None None None None None None
    (mkInspect None None None) [].

(** A user who had a status bar colour and an editor colour of their own
    before the theme was applied. *)
Definition customized : ThemeManager :=
  mkThemeManager false None None None None None None
    (mkInspect
       (Some (<["statusBar.background" := VStr "#222222"]>
                (<["editor.background" := VStr "#000000"]> ∅)))
       None None)
    [].

Definition applied : ThemeManager := applyTheme focusedWindow customized.

(** The user repaints the title bar while the theme is applied. *)
Definition userEdit : Inspect :=
  mkInspect
    (insert "titleBar.activeBackground" (VStr "#123456")
       <$> globalValue (colorCustomizations applied))
    None None.

Definition edited : ThemeManager := externalEdit userEdit applied.

(** The window dies with the theme applied in a workspace: the fields of
    the object are lost, the mementos and the documents stay. *)
Definition crashed : ThemeManager :=
  set_fields (applyTheme focusedWorkspace pristine) false None None None.

Definition session : list SessionStep :=
  [ StepExternalEdit userEdit;
    StepApplyTheme focusedWorkspace;
    StepForceDefault unfocusedWindow;
    StepApplyTheme focusedWindow ].

(** This window, active since time 100, the theme applied. *)
Definition window (file : option string) : FocusMarkManager :=
  mkFocusMarkManager "window-1" "workspace-1" (applyTheme unfocusedKeep pristine)
    [] [] true 100 false false file.

Definition olderClaim : CoordinationData.t :=
  CoordinationData.mk (Some "window-2") (Some "workspace-2") (Some 50).

Definition newerClaim : CoordinationData.t :=
  CoordinationData.mk (Some "window-2") (Some "workspace-1") (Some 200).
End Scenario.

(** ** ThemeManager.ts: the public interface as a whole *)

Definition dispose (env : Env) (tm : ThemeManager) : ThemeManager :=
  removeTheme env true false tm.

(** The fingerprint is recorded only while the theme counts as applied. *)
Definition fingerprintWhileApplied (tm : ThemeManager) : Prop :=
  is_Some (lastAppliedPalette tm) → isThemeApplied tm = true.

(** A call of a public method of the ThemeManager, or an edit of the shared
    document by someone else. *)
Inductive ThemeCall : Type :=
  | CallApplyTheme (env : Env)
  | CallRemoveTheme (env : Env) (log forceDefaultInactive : bool)
  | CallResetAllColors (env : Env)
  | CallDispose (env : Env)
  | CallEnsureCleanStateOnStartup (env : Env)
      (preserveTheme forceDefaultInactive : bool)
  | CallRestoreGlobalOriginalCustomizations
  | CallExternalEdit (document : Inspect).

Section ThemeCalls.
Context `{Colord}.

Definition themeCall (tm : ThemeManager) (call : ThemeCall) : ThemeManager :=
  match call with
  | CallApplyTheme env => applyTheme env tm
  | CallRemoveTheme env log forceDefaultInactive =>
      removeTheme env log forceDefaultInactive tm
  | CallResetAllColors env => resetAllColors env tm
  | CallDispose env => dispose env tm
  | CallEnsureCleanStateOnStartup env preserveTheme forceDefaultInactive =>
      ensureCleanStateOnStartup env preserveTheme forceDefaultInactive tm
  | CallRestoreGlobalOriginalCustomizations =>
      restoreGlobalOriginalCustomizations tm
  | CallExternalEdit document => externalEdit document tm
  end.

Definition themeCalls (calls : list ThemeCall) (tm : ThemeManager)
  : ThemeManager :=
  foldl themeCall tm calls.
End ThemeCalls.

(** The ThemeManager as its constructor leaves it, over the mementos and
    the document it finds. *)
Definition newThemeManager (localSnapshot : option (gmap string jsval))
    (applied : option bool) (globalSnapshot : option (gmap string jsval))
    (document : Inspect) : ThemeManager :=
  mkThemeManager false None None None localSnapshot applied globalSnapshot
    document [].

(** ** ConfigurationManager.ts: themes and colours *)

Definition VALID_THEMES : list string :=
  [ "auto"; "orange"; "blue"; "green"; "purple"; "custom" ].

(** [THEME_COLORS] of ColorGenerator.ts. *)
Definition THEME_COLORS (theme : string) : option string :=
  if bool_decide (theme = "orange") then Some "#F57C00"
  else if bool_decide (theme = "blue") then Some "#1976D2"
  else if bool_decide (theme = "green") then Some "#388E3C"
  else if bool_decide (theme = "purple") then Some "#7B1FA2"
  else None.

(** The character class [[A-Fa-f0-9]]. *)
Definition isHexDigit (c : ascii) : bool :=
  let n := N_of_ascii c in
  bool_decide (48 ≤ n ≤ 57 ∨ 65 ≤ n ≤ 70 ∨ 97 ≤ n ≤ 102)%N.

(** [([A-Fa-f0-9]{6}|[A-Fa-f0-9]{3})] up to the end of the input. *)
Definition isHexBody (digits : list ascii) : bool :=
  forallb isHexDigit digits
  && (bool_decide (length digits = 6%nat) || bool_decide (length digits = 3%nat)).

(** [/^#([A-Fa-f0-9]{6}|[A-Fa-f0-9]{3})$/.test(value)]. *)
Definition isValidHexColor (value : string) : bool :=
  match String.list_ascii_of_string value with
  | c :: digits => bool_decide (c = "#"%char) && isHexBody digits
  | [] => false
  end.

Definition startsWithHash (s : string) : bool :=
  match String.list_ascii_of_string s with
  | c :: _ => bool_decide (c = "#"%char)
  | [] => false
  end.

Definition validateTheme (value : JsAny) : string :=
  match value with
  | JString s => if bool_decide (s ∈ VALID_THEMES) then s else "auto"
  | _ => "auto"
  end.

Definition validateLogLevel (value : JsAny) : string :=
  match value with
  | JString s =>
      if bool_decide (s = "error") || bool_decide (s = "warn")
         || bool_decide (s = "info") || bool_decide (s = "debug")
      then s else "info"
  | _ => "info"
  end.

Section Colours.
Context `{JsHost}.

Definition normalizeHexColor (value : string) : string :=
  let trimmed := String_trim value in
  if bool_decide (trimmed = "") then "#FF6B35"
  else if startsWithHash trimmed then trimmed else "#" +:+ trimmed.

Definition validateHexColor (value : JsAny) : string :=
  match value with
  | JString s =>
      let normalized := normalizeHexColor s in
      if negb (isValidHexColor normalized) then "#FF6B35" else normalized
  | _ => "#FF6B35"
  end.

(** [getTheme], [getCustomColor] and [getEffectiveColor] over the raw
    settings [theme] and [customColor]; [autoColor] is what
    [ColorGenerator.generateAutoColorFromWorkspace] returns. *)
Definition getTheme (theme : JsAny) : string :=
  validateTheme (config_get theme (JString "auto")).

Definition getCustomColor (customColor : JsAny) : string :=
  validateHexColor (config_get customColor (JString "#FF6B35")).

Definition getEffectiveColor (theme customColor : JsAny) (autoColor : string)
  : string :=
  let theme := getTheme theme in
  match THEME_COLORS theme with
  | Some color => color
  | None =>
      if bool_decide (theme = "custom") then getCustomColor customColor
      else autoColor
  end.

(** extension.ts, [handleCustomColorInput]: the test of the input box,
    [/^#?([A-Fa-f0-9]{6}|[A-Fa-f0-9]{3})$/] on the trimmed text, and the
    colour [setCustomColor] writes for an accepted, non-empty text. *)
Definition customColorInputAccepted (value : string) : bool :=
  let trimmed := String.list_ascii_of_string (String_trim value) in
  match trimmed with
  | c :: digits =>
      if bool_decide (c = "#"%char) then isHexBody digits else isHexBody trimmed
  | [] => false
  end.

Definition setCustomColor (color : string) : string :=
  validateHexColor (JString color).

Definition storedCustomColor (customColor : string) : string :=
  setCustomColor (String_trim customColor).
End Colours.

(** ** WindowIdentifier.ts and ColorGenerator.ts: hashes and names

    A string is read through [charCodeAt], as the list of its code units;
    the strings of the model have code units below 256. *)

Definition charCodes (s : string) : list Z :=
  (λ c, Z.of_N (N_of_ascii c)) <$> String.list_ascii_of_string s.

(** The conversion of a number to a 32-bit signed integer that the bitwise
    operators apply. *)
Definition toInt32 (z : Z) : Z := (z + 2 ^ 31) mod 2 ^ 32 - 2 ^ 31.

(** [hash = ((hash << 5) - hash) + char; hash = hash & hash]. *)
Definition hashStep (hash char : Z) : Z :=
  let hash := (toInt32 (toInt32 hash * 2 ^ 5) - hash) + char in
  toInt32 hash.

Definition hashCode (codes : list Z) : Z := foldl hashStep 0 codes.

(** [n.toString(36)] for an integer [n] that is not negative. *)
Definition digit36 (d : Z) : ascii :=
  if bool_decide (d < 10) then ascii_of_N (Z.to_N (48 + d))
  else ascii_of_N (Z.to_N (87 + d)).

Fixpoint digits36 (fuel : nat) (n : Z) (acc : list ascii) : list ascii :=
  match fuel with
  | O => acc
  | S fuel =>
      if bool_decide (n ≤ 0) then acc
      else digits36 fuel (n / 36) (digit36 (n mod 36) :: acc)
  end.

Definition toString36 (n : Z) : string :=
  if bool_decide (n ≤ 0) then "0"
  else String.string_of_list_ascii (digits36 (S (Z.to_nat (Z.log2 n))) n []).

(** [WindowIdentifier.simpleHash]. *)
Definition simpleHash (str : list Z) : string :=
  String.substring 0 6 (toString36 (Z.abs (hashCode str))).

(** [a || b || 'no-workspace'] and the like on optional strings. *)
Definition or_else (a : option string) (b : string) : string :=
  if truthy_str a then default "" a else b.

(** [ColorGenerator.generateAutoColorFromWorkspace] over the module-level
    cache, which it returns updated; [colordHsl h s l] is
    [colord({ h, s, l })]. *)
Section AutoColor.
Context `{Colord}.
Variable colordHsl : Z → Z → Z → Colour.

Definition generateAutoColorFromWorkspace
    (autoColorCache : gmap string string)
    (workspaceFilePath firstFolderPath : option string)
  : string * gmap string string :=
  let workspaceIdentifier :=
    or_else workspaceFilePath (or_else firstFolderPath "no-workspace") in
  let cached := autoColorCache !! workspaceIdentifier in
  if truthy_str cached then (default "" cached, autoColorCache)
  else
    let hash := hashCode (charCodes workspaceIdentifier) in
    let hue := Z.abs hash `mod` 360 in
    let color := toHex (colordHsl hue 65 55) in
    (color, <[workspaceIdentifier := color]> autoColorCache).
End AutoColor.

(** [WindowIdentifier.getWorkspaceName] over the path of the first
    workspace folder, [None] when there is no folder. *)
Definition isSeparator (c : ascii) : bool :=
  bool_decide (c = "/"%char ∨ c = "\"%char).

Fixpoint lastPart (current : list ascii) (path : list ascii) : list ascii :=
  match path with
  | [] => current
  | c :: path =>
      if isSeparator c then lastPart [] path else lastPart (current ++ [c]) path
  end.

(** The characters that [/[^a-zA-Z0-9-_]/g] leaves in place. *)
Definition isNameChar (c : ascii) : bool :=
  let n := N_of_ascii c in
  bool_decide ((97 ≤ n ≤ 122 ∨ 65 ≤ n ≤ 90 ∨ 48 ≤ n ≤ 57
                ∨ n = 45 ∨ n = 95)%N).

Definition toLowerCase (c : ascii) : ascii :=
  let n := N_of_ascii c in
  if bool_decide (65 ≤ n ≤ 90)%N then ascii_of_N (n + 32) else c.

Definition getWorkspaceName (firstFolder : option string) : option string :=
  match firstFolder with
  | None => None
  | Some workspacePath =>
      if bool_decide (workspacePath = "") then None
      else
        let workspaceName :=
          lastPart [] (String.list_ascii_of_string workspacePath) in
        let sanitized :=
          String.string_of_list_ascii
            (toLowerCase <$> filter (λ c, isNameChar c = true) workspaceName) in
        if bool_decide (sanitized = "") then None else Some sanitized
  end.

(** [WindowIdentifier.generateWorkspaceId] on a fresh cache. *)
Definition currentWorkspaceId (firstFolder : option string) : string :=
  generateWorkspaceId (bool_decide (is_Some firstFolder))
    (getWorkspaceName firstFolder)
    (simpleHash (charCodes (default "" firstFolder))).
(** A digit or a lower-case letter; the same, a dash or an underscore. *)
Definition isLowerAlnum (c : ascii) : Prop :=
  (48 ≤ N_of_ascii c ≤ 57 ∨ 97 ≤ N_of_ascii c ≤ 122)%N.

Definition isIdChar (c : ascii) : Prop :=
  isLowerAlnum c ∨ N_of_ascii c = 45%N ∨ N_of_ascii c = 95%N.

(** ** TitleManager.ts

    The six private fields of the class, the [window.title] setting it
    shares with the user, and the log of its [config.update] calls (most
    recent first).  [window.title] is a window-scoped setting: it has a
    default, a user (global) value and a workspace value, and no
    workspace-folder value.  Each method runs to completion before the
    next event. *)
Module TitleManager.

Record WindowTitle : Type := mkWindowTitle {
  defaultValue : option string;
  globalValue : option string;
  workspaceValue : option string
}.

#[global] Instance WindowTitle_eq_dec : EqDecision WindowTitle.
Proof. solve_decision. Defined.

(** [config.get<string>('title')]: the workspace value, else the user
    value, else the default. *)
Definition get (config : WindowTitle) : option string :=
  match workspaceValue config with
  | Some title => Some title
  | None =>
      match globalValue config with
      | Some title => Some title
      | None => defaultValue config
      end
  end.

(** [config.update('title', value, target)]; the class passes [Global] and
    [Workspace] only. *)
Definition update (config : WindowTitle) (value : option string)
    (target : ConfigurationTarget) : WindowTitle :=
  match target with
  | Global => mkWindowTitle (defaultValue config) value (workspaceValue config)
  | Workspace => mkWindowTitle (defaultValue config) (globalValue config) value
  | WorkspaceFolder => config
  end.

Record t : Type := mk {
  originalTitle : option string;
  originalTitleCaptured : bool;
  lastSetTitle : option string;
  originalTitleTarget : option ConfigurationTarget;
  originalTitleHasValue : bool;
  appliedTarget : option ConfigurationTarget;
  config : WindowTitle;
  updates : list (ConfigurationTarget * option string)
}.

#[global] Instance eq_dec : EqDecision t.
Proof. solve_decision. Defined.

(** The manager as its constructor leaves it. *)
Definition new (config : WindowTitle) : t :=
  mk None false None None false None config [].

(** [parts.join(' ')]. *)
Definition join (parts : list string) : string :=
  match parts with
  | [] => ""
  | part :: parts => foldl (λ joined part, joined +:+ " " +:+ part) part parts
  end.

(** [buildTitle], over the name of the first workspace folder and the
    base name of the active editor's file ([""] without an editor). *)
Definition buildTitle (rootName : option string) (fileName : string)
    (indicator : option string) : string :=
  let titleParts := [indicator] in
  let titleParts :=
    if truthy_str rootName then titleParts ++ [rootName] else titleParts in
  let titleParts :=
    if truthy_str (Some fileName)
    then titleParts
         ++ [Some (if truthy_str rootName then "- " +:+ fileName else fileName)]
    else titleParts in
  join (omap id (filter (λ part, truthy_str part = true) titleParts)).

Definition getConfigurationTarget (hasWorkspace : bool) : ConfigurationTarget :=
  if hasWorkspace then Workspace else Global.

Definition captureOriginalTitle (tm : t) : t :=
  match workspaceValue (config tm) with
  | Some title =>
      mk (Some title) (originalTitleCaptured tm) (lastSetTitle tm)
        (Some Workspace) true (appliedTarget tm) (config tm) (updates tm)
  | None =>
      match globalValue (config tm) with
      | Some title =>
          mk (Some title) (originalTitleCaptured tm) (lastSetTitle tm)
            (Some Global) true (appliedTarget tm) (config tm) (updates tm)
      | None =>
          mk None (originalTitleCaptured tm) (lastSetTitle tm)
            (Some Global) false (appliedTarget tm) (config tm) (updates tm)
      end
  end.

Definition config_update (tm : t) (value : option string)
    (target : ConfigurationTarget) : t :=
  mk (originalTitle tm) (originalTitleCaptured tm) (lastSetTitle tm)
    (originalTitleTarget tm) (originalTitleHasValue tm) (appliedTarget tm)
    (update (config tm) value target) ((target, value) :: updates tm).

Definition updateTitleInConfig (hasWorkspace : bool) (newTitle : option string)
    (tm : t) : t :=
  let target := getConfigurationTarget hasWorkspace in
  let currentTitle := get (config tm) in
  let tm :=
    if negb (originalTitleCaptured tm) then
      let tm := captureOriginalTitle tm in
      mk (originalTitle tm) true (lastSetTitle tm) (originalTitleTarget tm)
        (originalTitleHasValue tm) (appliedTarget tm) (config tm) (updates tm)
    else if bool_decide (is_Some (lastSetTitle tm))
            && negb (bool_decide (currentTitle = lastSetTitle tm))
    then captureOriginalTitle tm
    else tm in
  let tm := config_update tm newTitle target in
  mk (originalTitle tm) (originalTitleCaptured tm) newTitle
    (originalTitleTarget tm) (originalTitleHasValue tm) (Some target)
    (config tm) (updates tm).

Definition restoreOriginalTitle (hasWorkspace : bool) (tm : t) : t :=
  let targetTitle :=
    if originalTitleCaptured tm then originalTitle tm else get (config tm) in
  let target :=
    default (getConfigurationTarget hasWorkspace) (appliedTarget tm) in
  let originalTarget := default target (originalTitleTarget tm) in
  let tm :=
    if bool_decide (originalTarget = Global) then
      let tm :=
        if bool_decide (target = Workspace)
        then config_update tm None Workspace else tm in
      if originalTitleHasValue tm
      then config_update tm targetTitle Global
      else config_update tm None Global
    else
      if originalTitleHasValue tm
      then config_update tm targetTitle originalTarget
      else config_update tm None originalTarget in
  mk None false targetTitle None false None (config tm) (updates tm).

Definition setActive (hasWorkspace : bool) (rootName : option string)
    (fileName : string) (indicator : string) (tm : t) : t :=
  let newTitle := buildTitle rootName fileName (Some indicator) in
  updateTitleInConfig hasWorkspace (Some newTitle) tm.

Definition setInactive (hasWorkspace : bool) (rootName : option string)
    (fileName : string) (tm : t) : t :=
  let newTitle := buildTitle rootName fileName None in
  updateTitleInConfig hasWorkspace (Some newTitle) tm.

Definition reset (hasWorkspace : bool) (tm : t) : t :=
  restoreOriginalTitle hasWorkspace tm.

Definition dispose (hasWorkspace : bool) (tm : t) : t :=
  reset hasWorkspace tm.

(** An edit of the setting by the user. *)
Definition externalEdit (edited : WindowTitle) (tm : t) : t :=
  mk (originalTitle tm) (originalTitleCaptured tm) (lastSetTitle tm)
    (originalTitleTarget tm) (originalTitleHasValue tm) (appliedTarget tm)
    edited (updates tm).

(** A call that sets the title, with the folder name and the file name it
    finds. *)
Inductive SetCall : Type :=
  | CallSetActive (rootName : option string) (fileName : string)
      (indicator : string)
  | CallSetInactive (rootName : option string) (fileName : string).

Definition setCall (hasWorkspace : bool) (tm : t) (call : SetCall) : t :=
  match call with
  | CallSetActive rootName fileName indicator =>
      setActive hasWorkspace rootName fileName indicator tm
  | CallSetInactive rootName fileName =>
      setInactive hasWorkspace rootName fileName tm
  end.

Definition setCalls (hasWorkspace : bool) (calls : list SetCall) (tm : t) : t :=
  foldl (setCall hasWorkspace) tm calls.

(** The workspace value of the setting is defined only in a workspace. *)
Definition consistent (hasWorkspace : bool) (config : WindowTitle) : Prop :=
  is_Some (workspaceValue config) → hasWorkspace = true.

(** The next call that sets the title captures the setting anew. *)
Definition capturesNext (tm : t) : Prop :=
  originalTitleCaptured tm = false ∨
  (is_Some (lastSetTitle tm) ∧ get (config tm) ≠ lastSetTitle tm).

(** The manager holds [original] as captured and shows a title of its
    own. *)
Definition holding (hasWorkspace : bool) (original : WindowTitle) (tm : t)
  : Prop :=
  originalTitleCaptured tm = true ∧
  (originalTitle tm, originalTitleTarget tm, originalTitleHasValue tm)
  = (let captured := captureOriginalTitle (new original) in
     (originalTitle captured, originalTitleTarget captured,
      originalTitleHasValue captured)) ∧
  appliedTarget tm = Some (getConfigurationTarget hasWorkspace) ∧
  ∃ title, lastSetTitle tm = Some title ∧
           config tm
           = update original (Some title) (getConfigurationTarget hasWorkspace).

End TitleManager.

(** ** FocusMarkManager.ts: activation, commands and shutdown

    [indicator] is [config.title.indicator] and [now] the value of
    [Date.now()].  A delayed activation is suspended at its timer: the
    method returns with the timer pending, and [activeApplyTimerFired] is
    what runs when the timer fires, the rest of [activateWindowAndNotify]
    included; a timer that was cleared never fires.  The timers that
    [handleConfigurationChange] sets are not part of the model. *)

Section Activation.
Context `{Colord} `{JsHost}.

Definition set_activeApplyTimer (m : FocusMarkManager) (pending : bool)
  : FocusMarkManager :=
  mkFocusMarkManager (windowId m) (workspaceId m) (themeManager m)
    (titleManager m) (statusBarManager m) (isWindowActive m)
    (lastActivatedAt m) pending (deactivateTimer m) (coordinationFile m).

Definition applyTitleIndicator (indicator : string) (isActive : bool)
    (m : FocusMarkManager) : FocusMarkManager :=
  if bool_decide (String_trim indicator = "") then call_title m TitleReset
  else if isActive then call_title m (TitleSetActive indicator)
  else call_title m TitleSetInactive.

Definition applyActiveAppearance (env : Env) (indicator : string)
    (m : FocusMarkManager) : FocusMarkManager :=
  if negb (isWindowActive m) then m
  else
    let config := getConfiguration (settings env) in
    if negb (enableColors config) then
      let m := set_themeManager m (removeTheme env false false (themeManager m)) in
      let m := applyTitleIndicator indicator true m in
      call_statusBar m (StatusSetActive true)
    else
      let m := set_themeManager m (applyTheme env (themeManager m)) in
      let m := applyTitleIndicator indicator true m in
      call_statusBar m (StatusSetActive true).

(** [applyActiveAppearanceWithDelay] up to its timer. *)
Definition applyActiveAppearanceWithDelay (env : Env) (indicator : string)
    (m : FocusMarkManager) : FocusMarkManager :=
  let m := clearActiveApplyTimer m in
  let delay := activeApplyDelay (getConfiguration (settings env)) in
  if js_gt delay (Num 0%Q) then set_activeApplyTimer m true
  else applyActiveAppearance env indicator (set_activeApplyTimer m false).

(** [activateWindowAndNotify] up to the timer of a delayed activation. *)
Definition activateWindowAndNotify (env : Env) (indicator : string) (now : Z)
    (m : FocusMarkManager) : FocusMarkManager :=
  if isWindowActive m then m
  else
    let m := set_isWindowActive (clearDeactivateTimer m) true in
    let m := applyActiveAppearanceWithDelay env indicator m in
    if activeApplyTimer m then m else notifyWindowActive now m.

(** The timer of a delayed activation fires: the callback of
    [applyActiveAppearanceWithDelay], then what [activateWindowAndNotify]
    does after it. *)
Definition activeApplyTimerFired (env : Env) (indicator : string) (now : Z)
    (m : FocusMarkManager) : FocusMarkManager :=
  if activeApplyTimer m then
    let m := set_activeApplyTimer m false in
    let m := applyActiveAppearance env indicator m in
    notifyWindowActive now m
  else m.

Definition handleUserInteraction (env : Env) (indicator : string) (now : Z)
    (m : FocusMarkManager) : FocusMarkManager :=
  let m :=
    if deactivateTimer m
    then set_isWindowActive (clearDeactivateTimer m) false else m in
  if isWindowActive m then m
  else activateWindowAndNotify env indicator now m.

Definition applyThemeFromCommand (env : Env) (indicator : string) (now : Z)
    (m : FocusMarkManager) : FocusMarkManager :=
  if negb (isEnabled (settings env)) || negb (focused env) then m
  else
    let m := set_isWindowActive (clearDeactivateTimer m) true in
    let m := applyActiveAppearance env indicator m in
    notifyWindowActive now m.

(** [disable]; [env] holds the settings after the write of [enabled], which
    nothing in the method reads. *)
Definition disable (env : Env) (m : FocusMarkManager) : FocusMarkManager :=
  let m := clearDeactivateTimer m in
  let m := deactivateWindow env false m in
  let m :=
    set_themeManager m
      (restoreGlobalOriginalCustomizations (themeManager m)) in
  call_statusBar m StatusHide.

Definition resetColors (env : Env) (m : FocusMarkManager) : FocusMarkManager :=
  set_themeManager m (resetAllColors env (themeManager m)).

Definition cleanupCoordinationFile (m : FocusMarkManager) : FocusMarkManager :=
  match coordinationFile m with
  | None => m
  | Some fileContent =>
      if bool_decide (String_trim fileContent = "") then m
      else
        match JSON_parse fileContent with
        | None => set_coordinationFile m None
        | Some None => m
        | Some (Some data) =>
            if bool_decide
                 (CoordinationData.activeWindowId data = Some (windowId m))
            then set_coordinationFile m None
            else m
        end
  end.

(** [FocusMarkManager.dispose]; the title manager's [dispose] is its
    [reset]. *)
Definition disposeManager (env : Env) (m : FocusMarkManager)
  : FocusMarkManager :=
  let m := clearDeactivateTimer (clearActiveApplyTimer m) in
  let m := cleanupCoordinationFile m in
  let m := call_title m TitleReset in
  set_themeManager m (dispose env (themeManager m)).

(** Another window, or anyone else, rewrites or removes the shared
    file. *)
Definition fileWritten (content : option string) (m : FocusMarkManager)
  : FocusMarkManager :=
  set_coordinationFile m content.

(** What happens to a manager between its start and its disposal. *)
Inductive ManagerEvent : Type :=
  | UserInteraction (env : Env) (indicator : string) (now : Z)
  | ActiveApplyTimerFired (env : Env) (indicator : string) (now : Z)
  | CoordinationChange (env : Env)
  | ApplyThemeFromCommand (env : Env) (indicator : string) (now : Z)
  | Disable (env : Env)
  | ResetColors (env : Env)
  | FileWritten (content : option string).

Definition managerEvent (m : FocusMarkManager) (event : ManagerEvent)
  : FocusMarkManager :=
  match event with
  | UserInteraction env indicator now =>
      handleUserInteraction env indicator now m
  | ActiveApplyTimerFired env indicator now =>
      activeApplyTimerFired env indicator now m
  | CoordinationChange env => handleCoordinationChange env m
  | ApplyThemeFromCommand env indicator now =>
      applyThemeFromCommand env indicator now m
  | Disable env => disable env m
  | ResetColors env => resetColors env m
  | FileWritten content => fileWritten content m
  end.

Definition managerEvents (events : list ManagerEvent) (m : FocusMarkManager)
  : FocusMarkManager :=
  foldl managerEvent m events.

(** The manager as its constructor leaves it, over a theme manager, the
    window's identifiers and the shared file it finds. *)
Definition newFocusMarkManager (windowId workspaceId : string)
    (themeManager : ThemeManager) (coordinationFile : option string)
  : FocusMarkManager :=
  mkFocusMarkManager windowId workspaceId themeManager [] [] false 0
    false false coordinationFile.

(** What every event keeps true of a manager. *)
Definition managerInvariant (m : FocusMarkManager) : Prop :=
  deactivateTimer m = false ∧
  (activeApplyTimer m = true → isWindowActive m = true) ∧
  fingerprintWhileApplied (themeManager m).

(** A step keeps the identifiers of the window and the invariant. *)
Definition preserved (m m' : FocusMarkManager) : Prop :=
  windowId m' = windowId m ∧ workspaceId m' = workspaceId m ∧
  (managerInvariant m → managerInvariant m').

End Activation.

(** ** StatusBarManager.ts

    The [isActive] field of the class and what its status bar item
    shows. *)
Module StatusBarManager.

Record t : Type := mk {
  isActive : bool;
  visible : bool;
  text : string;
  tooltip : string;
  color : option string
}.

#[global] Instance eq_dec : EqDecision t.
Proof. solve_decision. Defined.

Definition hide (sb : t) : t :=
  mk (isActive sb) false (text sb) (tooltip sb) (color sb).

Definition updateDisplay (env : Env) (sb : t) : t :=
  let config := getConfiguration (settings env) in
  if negb (enabled config) then hide sb
  else
    let icon := if isActive sb then "$(check)" else "$(circle-slash)" in
    let text :=
      "FocusMark: " +:+ (if isActive sb then "Active" else "Inactive") in
    let themeColor := effectiveColor env in
    mk (isActive sb) true (icon +:+ " " +:+ text)
      ("Click to Toggle FocusMark (Currently " +:+ text +:+ ")")
      (if isActive sb then Some themeColor else None).

Definition show (env : Env) (sb : t) : t := updateDisplay env sb.

Definition setActive (env : Env) (isActive' : bool) (sb : t) : t :=
  if bool_decide (isActive sb = isActive') then sb
  else
    updateDisplay env
      (mk isActive' (visible sb) (text sb) (tooltip sb) (color sb)).

Definition onConfigurationChange (env : Env) (sb : t) : t :=
  updateDisplay env sb.

(** A call the status bar manager receives, with the settings it finds. *)
Inductive Call : Type :=
  | CallSetActive (env : Env) (isActive : bool)
  | CallShow (env : Env)
  | CallHide
  | CallOnConfigurationChange (env : Env).

Definition call (sb : t) (c : Call) : t :=
  match c with
  | CallSetActive env isActive => setActive env isActive sb
  | CallShow env => show env sb
  | CallHide => hide sb
  | CallOnConfigurationChange env => onConfigurationChange env sb
  end.

Definition calls (cs : list Call) (sb : t) : t := foldl call sb cs.

(** What a visible item shows for the state the manager holds. *)
Definition showsState (sb : t) : Prop :=
  visible sb = true →
  text sb = (if isActive sb then "$(check) FocusMark: Active"
             else "$(circle-slash) FocusMark: Inactive") ∧
  tooltip sb = (if isActive sb
                then "Click to Toggle FocusMark (Currently FocusMark: Active)"
                else "Click to Toggle FocusMark (Currently FocusMark: Inactive)") ∧
  (if isActive sb then is_Some (color sb) else color sb = None).

End StatusBarManager.

(** ** Further concrete runs

    A user with a title of their own who renames it while the window is
    marked, an inactive window with the default apply delay, and a status
    bar item that was not shown yet. *)

Module FurtherScenario.
Import SampleColord SampleHost Scenario.

Definition userTitle : TitleManager.WindowTitle :=
  TitleManager.mkWindowTitle None (Some "Default Title") None.

Definition renamedTitle : TitleManager.WindowTitle :=
  TitleManager.mkWindowTitle None (Some "User Title") None.

Definition marked : TitleManager.t :=
  TitleManager.setActive false None "file.ts" "X" (TitleManager.new userTitle).

Definition titleCalls : list TitleManager.SetCall :=
  [ TitleManager.CallSetActive None "file.ts" "X";
    TitleManager.CallSetInactive None "file.ts" ].

Definition idleWindow : FocusMarkManager :=
  newFocusMarkManager "window-1" "workspace-1" pristine None.

Definition hiddenItem : StatusBarManager.t :=
  StatusBarManager.mk false false "" "" None.

Definition statusCalls : list StatusBarManager.Call :=
  [ StatusBarManager.CallShow focusedWindow;
    StatusBarManager.CallSetActive focusedWindow true ].

End FurtherScenario.

(** * Properties *)

(** ** The key order *)

Lemma String_compare_refl s : String.compare s s = Eq.
Proof.
  induction s as [|c s IH]; simpl; [done|].
  unfold Ascii.compare. by rewrite N.compare_refl.
Qed.

Lemma String_compare_lt_trans s1 s2 s3 :
  String.compare s1 s2 = Lt → String.compare s2 s3 = Lt →
  String.compare s1 s3 = Lt.
Proof.
  revert s2 s3. induction s1 as [|c1 s1 IH]; intros [|c2 s2] [|c3 s3]; simpl;
    try done.
  unfold Ascii.compare.
  destruct (N.compare_spec (N_of_ascii c1) (N_of_ascii c2)) as [E12|L12|G12];
    destruct (N.compare_spec (N_of_ascii c2) (N_of_ascii c3)) as [E23|L23|G23];
    try done; intros H12 H23.
  - rewrite E12, E23, N.compare_refl. eauto.
  - rewrite E12. by apply N.compare_lt_iff in L23 as ->.
  - rewrite <- E23. by apply N.compare_lt_iff in L12 as ->.
  - assert (N_of_ascii c1 < N_of_ascii c3)%N as L13 by lia.
    by apply N.compare_lt_iff in L13 as ->.
Qed.

#[global] Instance str_le_total : Total str_le.
Proof. intros a b. apply String.leb_total. Qed.

#[global] Instance str_le_antisymm : AntiSymm (=) str_le.
Proof. intros a b. apply String.leb_antisym. Qed.

#[global] Instance str_le_trans : Transitive str_le.
Proof.
  intros a b c. unfold str_le, String.leb.
  destruct (String.compare a b) eqn:Hab; [|
    destruct (String.compare b c) eqn:Hbc |]; try done.
  - apply String.compare_eq_iff in Hab as ->. done.
  - apply String.compare_eq_iff in Hbc as ->. by rewrite Hab.
  - by rewrite (String_compare_lt_trans _ _ _ Hab Hbc).
Qed.

(** ** Equality of customizations, [undefined] keys aside *)

Lemma definedPart_lookup o k v :
  definedPart o !! k = Some v ↔ o !! k = Some v ∧ v ≠ VUndef.
Proof. unfold definedPart. by rewrite map_lookup_filter_Some. Qed.

Lemma definedPart_get o k :
  definedPart o !! k = match js_get o k with VUndef => None | v => Some v end.
Proof.
  unfold js_get. destruct (o !! k) as [v|] eqn:Hk; simpl.
  - destruct (decide (v = VUndef)) as [->|Hv].
    + apply map_lookup_filter_None. right. intros v Hv. simpl. naive_solver.
    + transitivity (Some v); [by apply definedPart_lookup | by destruct v].
  - apply map_lookup_filter_None. by left.
Qed.

Lemma elem_of_definedKeys o k :
  k ∈ definedKeys o ↔ js_get o k ≠ VUndef.
Proof.
  unfold definedKeys. rewrite merge_sort_Permutation, list_elem_of_filter.
  unfold Object_keys. rewrite list_elem_of_fmap. split; [by intros [? _]|].
  intros Hk. split; [done|]. unfold js_get in Hk.
  destruct (o !! k) as [v|] eqn:Hv; [|done].
  exists (k, v). split; [done|]. by apply elem_of_map_to_list.
Qed.

Lemma NoDup_definedKeys o : NoDup (definedKeys o).
Proof.
  unfold definedKeys. rewrite merge_sort_Permutation.
  apply NoDup_filter, NoDup_fst_map_to_list.
Qed.

Lemma Sorted_definedKeys o : Sorted str_le (definedKeys o).
Proof. apply (Sorted_merge_sort str_le). Qed.

Lemma definedKeys_ext a b :
  (∀ k, js_get a k ≠ VUndef ↔ js_get b k ≠ VUndef) →
  definedKeys a = definedKeys b.
Proof.
  intros Hab. apply (Sorted_unique str_le); try apply Sorted_definedKeys.
  apply NoDup_Permutation; try apply NoDup_definedKeys.
  intros k. by rewrite !elem_of_definedKeys.
Qed.

Lemma sameEntries_true current next ks1 ks2 :
  length ks1 = length ks2 →
  sameEntries current next ks1 ks2 = true ↔
  ks1 = ks2 ∧ ∀ k, k ∈ ks1 → js_get current k = js_get next k.
Proof.
  revert ks2. induction ks1 as [|k1 ks1 IH]; intros [|k2 ks2] Hlen;
    simpl in *; try done.
  - split; [|done]. intros _. split; [done|]. by intros k ?%elem_of_nil.
  - unfold js_strict_ne.
    destruct (decide (k1 = k2)) as [<-|Hk].
    + rewrite bool_decide_eq_false_2 by auto.
      destruct (decide (js_get current k1 = js_get next k1)) as [Hv|Hv].
      * rewrite bool_decide_eq_false_2 by auto.
        rewrite IH by lia. split.
        -- intros [-> Hall]. split; [done|].
           intros k [->|?]%elem_of_cons; auto.
        -- intros [[= <-] Hall]. split; [done|].
           intros k ?. apply Hall. by right.
      * rewrite bool_decide_eq_true_2 by done. split; [done|].
        intros [_ Hall]. destruct Hv. apply Hall. left.
    + rewrite bool_decide_eq_true_2 by done. split; [done|].
      by intros [[= ? ?] _].
Qed.

Lemma definedPart_eq_get a b k :
  definedPart a = definedPart b →
  (js_get a k = VUndef ↔ js_get b k = VUndef) ∧
  (js_get a k ≠ VUndef → js_get a k = js_get b k).
Proof.
  intros Heq.
  pose proof (definedPart_get a k) as Ha.
  pose proof (definedPart_get b k) as Hb.
  rewrite Heq, Hb in Ha. clear Hb Heq.
  destruct (js_get a k), (js_get b k); simplify_eq; done.
Qed.

Lemma areCustomizationsEqual_spec current next :
  areCustomizationsEqual current next = true ↔
  definedPart current = definedPart next.
Proof.
  assert (definedPart current = definedPart next →
          definedKeys current = definedKeys next) as Hkeys.
  { intros Heq. apply definedKeys_ext. intros k.
    by destruct (definedPart_eq_get current next k Heq) as [-> _]. }
  unfold areCustomizationsEqual. case_bool_decide as Hlen.
  - split; [done|]. intros Heq. destruct Hlen. by rewrite Hkeys.
  - rewrite sameEntries_true by done. split.
    + intros [Hk Hall]. apply map_eq. intros k.
      rewrite !definedPart_get.
      destruct (decide (k ∈ definedKeys current)) as [Hin|Hout].
      * by rewrite (Hall k Hin).
      * pose proof Hout as Hout'. rewrite Hk in Hout'.
        rewrite elem_of_definedKeys in Hout, Hout'.
        apply dec_stable in Hout, Hout'. by rewrite Hout, Hout'.
    + intros Heq. split; [by apply Hkeys|].
      intros k Hk%elem_of_definedKeys.
      by apply (definedPart_eq_get current next k Heq).
Qed.

(** ** Loops over the affected keys *)

Lemma NoDup_AFFECTED_ELEMENTS : NoDup AFFECTED_ELEMENTS.
Proof. by apply (bool_decide_unpack (NoDup AFFECTED_ELEMENTS)); vm_compute. Qed.

Section KeyLoop.
Context {V : Type} (f : gmap string V → string → gmap string V).
Hypothesis f_frame : ∀ u key k, k ≠ key → f u key !! k = u !! k.
Hypothesis f_local :
  ∀ u u' key, u !! key = u' !! key → f u key !! key = f u' key !! key.

Lemma foldl_keys_frame u l k : k ∉ l → foldl f u l !! k = u !! k.
Proof.
  revert u. induction l as [|key l IH]; intros u Hk; simpl; [done|].
  apply not_elem_of_cons in Hk as [Hne Hk]. by rewrite IH, f_frame.
Qed.

Lemma foldl_keys_at u l k :
  NoDup l → k ∈ l → foldl f u l !! k = f u k !! k.
Proof.
  revert u. induction l as [|key l IH]; intros u Hnd Hk; simpl.
  - by apply elem_of_nil in Hk.
  - apply NoDup_cons in Hnd as [Hkey Hnd].
    apply elem_of_cons in Hk as [->|Hk].
    + by rewrite foldl_keys_frame.
    + rewrite IH by done. apply f_local, f_frame. by intros ->.
Qed.
End KeyLoop.

(** ** Restore *)

Lemma restoreKey_frame ap cur stored u key k :
  k ≠ key → restoreKey ap cur stored u key !! k = u !! k.
Proof.
  intros Hne. unfold restoreKey, putOriginal.
  repeat case_match; by rewrite ?lookup_insert_ne, ?lookup_delete_ne.
Qed.

Lemma restoreKey_at ap cur stored u key :
  restoreKey ap cur stored u key !! key =
  if editedSinceApply ap cur key then u !! key else originalOf stored key.
Proof.
  unfold restoreKey, putOriginal, originalOf, hasOwnProperty, js_get.
  destruct (editedSinceApply ap cur key); [done|].
  destruct stored as [s|]; [|by rewrite lookup_delete_eq].
  destruct (s !! key) as [[| |o]|] eqn:Hs; simpl;
    by rewrite ?lookup_delete_eq, ?lookup_insert_eq.
Qed.

Lemma restoreLoop_lookup ap cur stored k :
  foldl (restoreKey ap cur stored) cur AFFECTED_ELEMENTS !! k =
  if bool_decide (k ∈ AFFECTED_ELEMENTS) && negb (editedSinceApply ap cur k)
  then originalOf stored k else cur !! k.
Proof.
  case_bool_decide as Hk; cbn [andb].
  - rewrite foldl_keys_at.
    + rewrite restoreKey_at. by destruct editedSinceApply.
    + apply restoreKey_frame.
    + intros u u' key Hu. by rewrite !restoreKey_at, Hu.
    + apply NoDup_AFFECTED_ELEMENTS.
    + done.
  - rewrite foldl_keys_frame; [done| |done]. apply restoreKey_frame.
Qed.

Lemma scopedCustomizations_update env tm v :
  scopedCustomizations env
    (clearStoredCustomizations (config_update tm (Some v) (getConfigurationTarget env)))
  = v.
Proof.
  unfold scopedCustomizations, getConfigurationTarget,
    getWorkspaceConfigurationTarget.
  by destruct (hasWorkspace env).
Qed.

(** C1.  Restore preserves concurrent edits: with the fingerprint [P]
    recorded, [restoreOriginalCustomizations] leaves alone every key whose
    current value differs from [P] (and every key that is not an affected
    one); an affected key that still carries the value of [P] gets its
    snapshot value back, or is removed when the snapshot holds [null] for
    it or holds nothing.  In particular a value [v] that an external actor
    wrote over the palette is still there after the restore. *)
Theorem restore_preserves_concurrent_edits
    (env : Env) (tm : ThemeManager) (stored : option (gmap string jsval))
    (P : gmap string jsval) (k : string) :
  lastAppliedPalette tm = Some P →
  let D := scopedCustomizations env tm in
  let D' :=
    scopedCustomizations env (restoreOriginalCustomizations env stored tm) in
  (k ∉ AFFECTED_ELEMENTS ∨ js_get D k ≠ js_get P k → D' !! k = D !! k) ∧
  (k ∈ AFFECTED_ELEMENTS → js_get D k = js_get P k →
     D' !! k = originalOf stored k) ∧
  (∀ v, D !! k = Some v → v ≠ js_get P k → D' !! k = Some v).
Proof.
  intros HP D D'.
  assert (D' !! k =
          if bool_decide (k ∈ AFFECTED_ELEMENTS)
             && negb (js_strict_ne (js_get D k) (js_get P k))
          then originalOf stored k else D !! k) as HD'.
  { subst D D'. unfold restoreOriginalCustomizations.
    rewrite scopedCustomizations_update, restoreLoop_lookup.
    by rewrite HP. }
  unfold js_strict_ne in HD'. split_and!.
  - intros [Hk|Hne]; rewrite HD'.
    + by rewrite bool_decide_eq_false_2.
    + rewrite (bool_decide_eq_true_2 (_ ≠ _)) by done.
      by rewrite andb_false_r.
  - intros Hk Heq. rewrite HD', bool_decide_eq_true_2 by done.
    by rewrite bool_decide_eq_false_2 by auto.
  - intros v Hv Hne. rewrite HD', Hv.
    rewrite (bool_decide_eq_true_2 (_ ≠ _)); [by rewrite andb_false_r|].
    unfold js_get. by rewrite Hv.
Qed.

(** ** The snapshot is captured once *)

Lemma THEME_STATE_applyColorsToWorkbench colors target tm :
  THEME_STATE (applyColorsToWorkbench colors target tm) = THEME_STATE tm ∧
  GLOBAL_THEME_STATE (applyColorsToWorkbench colors target tm)
  = GLOBAL_THEME_STATE tm.
Proof. unfold applyColorsToWorkbench. by case_match. Qed.

Section SnapshotOnce.
Context `{Colord}.

Lemma applyTheme_keeps_local env tm s :
  THEME_STATE tm = Some s → THEME_STATE (applyTheme env tm) = Some s.
Proof.
  intros Hs. unfold applyTheme. case_match; [done|]. simpl.
  rewrite (proj1 (THEME_STATE_applyColorsToWorkbench _ _ _)).
  unfold ensureOriginalCustomizationsCaptured, getStoredCustomizations.
  rewrite Hs.
  destruct (getWorkspaceConfigurationTarget env);
    rewrite ?(proj1 (THEME_STATE_applyColorsToWorkbench _ _ _)); simpl;
    unfold ensureGlobalOriginalCustomizationsCaptured; by case_match.
Qed.

Lemma applyTheme_keeps_global env tm g :
  GLOBAL_THEME_STATE tm = Some g →
  GLOBAL_THEME_STATE (applyTheme env tm) = Some g.
Proof.
  intros Hg. unfold applyTheme. case_match; [done|]. simpl.
  rewrite (proj2 (THEME_STATE_applyColorsToWorkbench _ _ _)).
  assert (GLOBAL_THEME_STATE
            (ensureGlobalOriginalCustomizationsCaptured
               (ensureOriginalCustomizationsCaptured env tm)) = Some g) as Hg'.
  { unfold ensureGlobalOriginalCustomizationsCaptured,
      getStoredGlobalCustomizations, ensureOriginalCustomizationsCaptured.
    by destruct (getStoredCustomizations tm); simpl; rewrite Hg. }
  destruct (getWorkspaceConfigurationTarget env);
    by rewrite ?(proj2 (THEME_STATE_applyColorsToWorkbench _ _ _)).
Qed.

Lemma applyTheme_captures env tm :
  isThemeApplied tm = false →
  (THEME_STATE tm = None →
   THEME_STATE (applyTheme env tm)
   = Some (captureAll (scopedCustomizations env tm))) ∧
  (GLOBAL_THEME_STATE tm = None →
   GLOBAL_THEME_STATE (applyTheme env tm)
   = Some (captureAll (or_empty (globalValue (colorCustomizations tm))))).
Proof.
  intros Happlied. unfold applyTheme. rewrite Happlied. cbn [andb].
  split; intros Hnone; simpl.
  - rewrite (proj1 (THEME_STATE_applyColorsToWorkbench _ _ _)).
    assert (THEME_STATE
              (ensureGlobalOriginalCustomizationsCaptured
                 (ensureOriginalCustomizationsCaptured env tm))
            = Some (captureAll (scopedCustomizations env tm))) as Hs.
    { unfold ensureGlobalOriginalCustomizationsCaptured,
        ensureOriginalCustomizationsCaptured, getStoredCustomizations.
      rewrite Hnone. by case_match. }
    destruct (getWorkspaceConfigurationTarget env);
      by rewrite ?(proj1 (THEME_STATE_applyColorsToWorkbench _ _ _)).
  - rewrite (proj2 (THEME_STATE_applyColorsToWorkbench _ _ _)).
    assert (GLOBAL_THEME_STATE
              (ensureGlobalOriginalCustomizationsCaptured
                 (ensureOriginalCustomizationsCaptured env tm))
            = Some (captureAll
                      (or_empty (globalValue (colorCustomizations tm)))))
      as Hg.
    { unfold ensureGlobalOriginalCustomizationsCaptured,
        getStoredGlobalCustomizations, ensureOriginalCustomizationsCaptured.
      by destruct (getStoredCustomizations tm); simpl; rewrite Hnone. }
    destruct (getWorkspaceConfigurationTarget env);
      by rewrite ?(proj2 (THEME_STATE_applyColorsToWorkbench _ _ _)).
Qed.

Lemma forceDefault_keeps env tm :
  (∀ s, THEME_STATE tm = Some s →
        THEME_STATE (removeTheme env true true tm) = Some s) ∧
  GLOBAL_THEME_STATE (removeTheme env true true tm) = GLOBAL_THEME_STATE tm.
Proof.
  unfold removeTheme. rewrite andb_false_r. simpl. split; [|
    unfold ensureOriginalCustomizationsCaptured; by case_match].
  intros s Hs. unfold ensureOriginalCustomizationsCaptured,
    getStoredCustomizations. by rewrite Hs.
Qed.

Lemma sessionStep_keeps tm step :
  (∀ s, THEME_STATE tm = Some s → THEME_STATE (sessionStep tm step) = Some s) ∧
  (∀ g, GLOBAL_THEME_STATE tm = Some g →
        GLOBAL_THEME_STATE (sessionStep tm step) = Some g).
Proof.
  destruct step as [env|env|document]; simpl.
  - split; intros; [by apply applyTheme_keeps_local
                   |by apply applyTheme_keeps_global].
  - split; [apply forceDefault_keeps|].
    intros g Hg. by rewrite (proj2 (forceDefault_keeps env tm)).
  - done.
Qed.

Lemma runSession_keeps steps tm :
  (∀ s, THEME_STATE tm = Some s → THEME_STATE (runSession steps tm) = Some s) ∧
  (∀ g, GLOBAL_THEME_STATE tm = Some g →
        GLOBAL_THEME_STATE (runSession steps tm) = Some g).
Proof.
  revert tm. induction steps as [|step steps IH]; intros tm; [done|].
  unfold runSession in *. simpl.
  destruct (sessionStep_keeps tm step) as [Hl Hg].
  destruct (IH (sessionStep tm step)) as [IHl IHg]. split; eauto.
Qed.

(** C5.  The snapshot is captured at most once per apply session: the two
    capture methods return the state as it is when a snapshot is stored;
    no sequence of applies, resets to the default colours and external
    edits changes a stored snapshot, local or global; and after the first
    apply of a session (no snapshot stored, theme not applied) the
    snapshot is, and stays, the capture of the document as that apply
    found it.  A restore is what clears the local snapshot. *)
Theorem snapshot_captured_once :
  (∀ env tm, is_Some (THEME_STATE tm) →
     ensureOriginalCustomizationsCaptured env tm = tm) ∧
  (∀ tm, is_Some (GLOBAL_THEME_STATE tm) →
     ensureGlobalOriginalCustomizationsCaptured tm = tm) ∧
  (∀ steps tm s, THEME_STATE tm = Some s →
     THEME_STATE (runSession steps tm) = Some s) ∧
  (∀ steps tm g, GLOBAL_THEME_STATE tm = Some g →
     GLOBAL_THEME_STATE (runSession steps tm) = Some g) ∧
  (∀ env steps tm, isThemeApplied tm = false → THEME_STATE tm = None →
     THEME_STATE (runSession (StepApplyTheme env :: steps) tm)
     = Some (captureAll (scopedCustomizations env tm))) ∧
  (∀ env steps tm, isThemeApplied tm = false →
     GLOBAL_THEME_STATE tm = None →
     GLOBAL_THEME_STATE (runSession (StepApplyTheme env :: steps) tm)
     = Some (captureAll (or_empty (globalValue (colorCustomizations tm))))) ∧
  (∀ env stored tm,
     THEME_STATE (restoreOriginalCustomizations env stored tm) = None).
Proof.
  split_and!; [..|done].
  - intros env tm [s Hs]. unfold ensureOriginalCustomizationsCaptured,
      getStoredCustomizations. by rewrite Hs.
  - intros tm [g Hg]. unfold ensureGlobalOriginalCustomizationsCaptured,
      getStoredGlobalCustomizations. by rewrite Hg.
  - intros steps tm. apply runSession_keeps.
  - intros steps tm. apply runSession_keeps.
  - intros env steps tm Happlied Hnone.
    apply (runSession_keeps steps (applyTheme env tm)).
    by apply applyTheme_captures.
  - intros env steps tm Happlied Hnone.
    apply (runSession_keeps steps (applyTheme env tm)).
    by apply applyTheme_captures.
Qed.
End SnapshotOnce.

(** ** Idempotent apply *)

Lemma definedPart_idemp o : definedPart (definedPart o) = definedPart o.
Proof.
  apply map_eq. intros k. apply option_eq. intros v.
  rewrite !definedPart_lookup. tauto.
Qed.

Lemma mergedCustomizations_lookup cur colors k v :
  mergedCustomizations cur colors !! k = Some v ↔
  v ≠ VUndef ∧
  (colors !! k = Some v ∨ colors !! k = None ∧ cur !! k = Some v).
Proof.
  unfold mergedCustomizations, spread.
  rewrite map_lookup_filter_Some, lookup_union_Some_raw. simpl. tauto.
Qed.

Lemma mergedCustomizations_idemp cur colors :
  mergedCustomizations (mergedCustomizations cur colors) colors
  = mergedCustomizations cur colors.
Proof.
  apply map_eq. intros k. apply option_eq. intros v.
  rewrite !mergedCustomizations_lookup.
  tauto.
Qed.

Lemma inspect_set_target i t v : inspect_target (set_target i t v) t = v.
Proof. by destruct t. Qed.

Lemma applyColorsToWorkbench_updates colors target tm :
  let cur := or_empty (inspect_target (colorCustomizations tm) target) in
  (definedPart (spread cur colors) = definedPart cur →
   applyColorsToWorkbench colors target tm = tm) ∧
  (definedPart (spread cur colors) ≠ definedPart cur →
   applyColorsToWorkbench colors target tm
   = config_update tm (Some (mergedCustomizations cur colors)) target).
Proof.
  intros cur. unfold applyColorsToWorkbench. fold cur.
  destruct (areCustomizationsEqual cur (mergedCustomizations cur colors))
    eqn:Heq.
  - split; [done|]. intros Hne. destruct Hne.
    apply areCustomizationsEqual_spec in Heq. rewrite Heq.
    symmetry. apply (definedPart_idemp (spread cur colors)).
  - split; [|done]. intros Hsame.
    assert (areCustomizationsEqual cur (mergedCustomizations cur colors) = true)
      as Htrue; [|congruence].
    apply areCustomizationsEqual_spec. rewrite <- Hsame.
    symmetry. apply (definedPart_idemp (spread cur colors)).
Qed.

Lemma applyColorsToWorkbench_twice colors target tm :
  applyColorsToWorkbench colors target (applyColorsToWorkbench colors target tm)
  = applyColorsToWorkbench colors target tm.
Proof.
  destruct (applyColorsToWorkbench_updates colors target tm) as [Hskip Hwrite].
  destruct (decide (definedPart
                      (spread (or_empty (inspect_target (colorCustomizations tm)
                                           target)) colors)
                    = definedPart (or_empty (inspect_target
                                               (colorCustomizations tm) target))))
    as [Heq|Hne].
  - by rewrite !Hskip.
  - rewrite Hwrite by done.
    apply applyColorsToWorkbench_updates. simpl.
    rewrite inspect_set_target. simpl.
    change (definedPart (spread ?a ?b)) with (mergedCustomizations a b).
    rewrite mergedCustomizations_idemp.
    symmetry. apply definedPart_idemp.
Qed.

Section Idempotent.
Context `{Colord}.

Lemma applyTheme_fields env tm :
  isThemeApplied (applyTheme env tm) = true ∧
  lastAppliedColor (applyTheme env tm) = Some (effectiveColor env) ∧
  lastAppliedMinimal (applyTheme env tm)
  = Some (negb (fullColorMode (getConfiguration (settings env)))).
Proof.
  unfold applyTheme.
  destruct (isThemeApplied tm) eqn:Happlied; [|done]. cbn [andb].
  repeat case_bool_decide; done.
Qed.

(** C6.  Idempotent apply: a second [applyTheme] with the same base colour
    and mode returns the state of the first one, so the log of document
    updates does not grow; [applyColorsToWorkbench] leaves the state alone
    whenever the merge of the colours over the current record equals that
    record up to [undefined] keys, and only then; and repeating it with
    the same colours never writes a second time. *)
Theorem idempotent_apply :
  (∀ env env' tm,
     effectiveColor env' = effectiveColor env →
     fullColorMode (getConfiguration (settings env'))
     = fullColorMode (getConfiguration (settings env)) →
     applyTheme env' (applyTheme env tm) = applyTheme env tm ∧
     updates (applyTheme env' (applyTheme env tm))
     = updates (applyTheme env tm)) ∧
  (∀ colors target tm,
     let cur := or_empty (inspect_target (colorCustomizations tm) target) in
     definedPart (spread cur colors) = definedPart cur ↔
     updates (applyColorsToWorkbench colors target tm) = updates tm) ∧
  (∀ colors target tm,
     definedPart
       (spread (or_empty (inspect_target (colorCustomizations tm) target))
          colors)
     = definedPart (or_empty (inspect_target (colorCustomizations tm) target)) →
     applyColorsToWorkbench colors target tm = tm) ∧
  (∀ colors target tm,
     updates (applyColorsToWorkbench colors target
                (applyColorsToWorkbench colors target tm))
     = updates (applyColorsToWorkbench colors target tm)).
Proof.
  split_and!.
  - intros env env' tm Hcolor Hmode.
    assert (applyTheme env' (applyTheme env tm) = applyTheme env tm) as Heq;
      [|by rewrite Heq].
    destruct (applyTheme_fields env tm) as (Ha & Hc & Hm).
    unfold applyTheme at 1. rewrite Ha, Hc, Hm, Hcolor, Hmode.
    by rewrite !bool_decide_eq_true_2.
  - intros colors target tm cur.
    destruct (applyColorsToWorkbench_updates colors target tm)
      as [Hskip Hwrite]. fold cur in Hskip, Hwrite. split.
    + intros Heq. by rewrite Hskip.
    + intros Hupd. destruct (decide (definedPart (spread cur colors)
                                     = definedPart cur)) as [|Hne]; [done|].
      rewrite Hwrite in Hupd by done. simpl in Hupd.
      exfalso. revert Hupd. generalize (updates tm). intros l Hl.
      apply (f_equal length) in Hl. simpl in Hl. lia.
  - intros colors target tm. apply applyColorsToWorkbench_updates.
  - intros colors target tm. by rewrite applyColorsToWorkbench_twice.
Qed.
End Idempotent.

(** ** Palette derivation *)

Lemma NoDup_MINIMAL_ELEMENTS : NoDup MINIMAL_ELEMENTS.
Proof. by apply (bool_decide_unpack (NoDup MINIMAL_ELEMENTS)); vm_compute. Qed.

Section PaletteFacts.
Context `{Colord}.

Lemma truthy_toHex c : truthy_str (Some (toHex c)) = true.
Proof.
  unfold truthy_str. rewrite bool_decide_eq_false_2; [done|].
  apply toHex_nonempty.
Qed.

Lemma dom_fullPalette baseColorHex :
  dom (fullPalette baseColorHex) = list_to_set AFFECTED_ELEMENTS.
Proof. unfold fullPalette. rewrite dom_list_to_map_L. reflexivity. Qed.

Lemma generateColorPalette_minimal_lookup baseColorHex k :
  generateColorPalette baseColorHex true !! k =
  if bool_decide (k ∈ MINIMAL_ELEMENTS)
     && truthy_str (fullPalette baseColorHex !! k)
  then fullPalette baseColorHex !! k else None.
Proof.
  unfold generateColorPalette.
  set (step := λ (minimalPalette : gmap string string) (key : string), _).
  assert (∀ u key j, j ≠ key → step u key !! j = u !! j) as Hframe.
  { intros u key j Hj. unfold step. repeat case_match; try done.
    by rewrite lookup_insert_ne. }
  assert (∀ u key, step u key !! key =
                   if truthy_str (fullPalette baseColorHex !! key)
                   then fullPalette baseColorHex !! key else u !! key)
    as Hat.
  { intros u key. unfold step.
    destruct (fullPalette baseColorHex !! key) as [v|] eqn:Hv; [|done].
    case_match; [|done]. by rewrite lookup_insert_eq. }
  case_bool_decide as Hk; cbn [andb].
  - rewrite foldl_keys_at.
    + rewrite Hat. by case_match.
    + done.
    + intros u u' key Hu. rewrite !Hat. by case_match.
    + apply NoDup_MINIMAL_ELEMENTS.
    + done.
  - by rewrite foldl_keys_frame.
Qed.

Lemma fullPalette_minimal_truthy k :
  k ∈ MINIMAL_ELEMENTS → truthy_str (fullPalette "#1976D2" !! k) = true.
Proof.
  unfold MINIMAL_ELEMENTS. rewrite !elem_of_cons, elem_of_nil.
  intros [->|[->|[->|[->|[]]]]].
  - done.
  - change (fullPalette "#1976D2" !! "titleBar.activeForeground")
      with (Some (if isDark (colord "#1976D2")
                  then "#FFFFFF" else "#1E1E1E")).
    by destruct (isDark _).
  - change (fullPalette "#1976D2" !! "titleBar.inactiveBackground")
      with (Some (if isDark (colord "#1976D2")
                  then toHex (darken 0.1%Q (colord "#1976D2"))
                  else toHex (lighten 0.1%Q (colord "#1976D2")))).
    destruct (isDark _); apply truthy_toHex.
  - change (fullPalette "#1976D2" !! "titleBar.inactiveForeground")
      with (Some (if isDark (colord "#1976D2")
                  then toHex (saturate 0.2%Q (lighten 0.3%Q (colord "#1976D2")))
                  else toHex (desaturate 0.2%Q (darken 0.3%Q (colord "#1976D2"))))).
    destruct (isDark _); apply truthy_toHex.
Qed.

Lemma dom_minimalPalette :
  dom (generateColorPalette "#1976D2" true) = list_to_set MINIMAL_ELEMENTS.
Proof.
  apply set_eq. intros k.
  rewrite elem_of_dom, generateColorPalette_minimal_lookup,
    elem_of_list_to_set.
  case_bool_decide as Hk; cbn [andb].
  - rewrite fullPalette_minimal_truthy by done. split; [done|]. intros _.
    apply elem_of_dom. rewrite dom_fullPalette, elem_of_list_to_set.
    revert Hk. unfold MINIMAL_ELEMENTS, AFFECTED_ELEMENTS.
    rewrite !elem_of_cons. tauto.
  - split; [by intros [? ?]|done].
Qed.

(** C7.  The palette is a function of the base colour and the mode (and of
    the colour library, which is a parameter).  For [#1976D2] the minimal
    palette has exactly the four title-bar keys, with the values the full
    palette gives them, and no key that starts with [statusBar] or
    [sideBar]; the full palette has exactly the fifteen affected keys, and
    its focus border is the base colour with alpha 0.7. *)
Theorem palette_scenario :
  let minimal := generateColorPalette "#1976D2" true in
  let full := generateColorPalette "#1976D2" false in
  dom minimal =
    {[ "titleBar.activeBackground"; "titleBar.activeForeground";
       "titleBar.inactiveBackground"; "titleBar.inactiveForeground" ]} ∧
  size minimal = 4%nat ∧
  (∀ k, k ∈ dom minimal → minimal !! k = full !! k) ∧
  (∀ k, String.prefix "statusBar" k = true ∨ String.prefix "sideBar" k = true →
        minimal !! k = None) ∧
  dom full = list_to_set AFFECTED_ELEMENTS ∧
  size full = 15%nat ∧
  full !! "titleBar.activeBackground" = Some "#1976D2" ∧
  full !! "focusBorder" = Some (toHex (alpha 0.7%Q (colord "#1976D2"))).
Proof.
  intros minimal full.
  assert (dom minimal = list_to_set MINIMAL_ELEMENTS) as Hmin
    by apply dom_minimalPalette.
  assert (dom full = list_to_set AFFECTED_ELEMENTS) as Hfull
    by apply dom_fullPalette.
  split_and!.
  - rewrite Hmin. unfold MINIMAL_ELEMENTS. simpl. set_solver.
  - rewrite <- size_dom, Hmin, size_list_to_set by apply NoDup_MINIMAL_ELEMENTS.
    done.
  - intros k Hk. rewrite Hmin, elem_of_list_to_set in Hk.
    subst minimal. rewrite generateColorPalette_minimal_lookup.
    by rewrite bool_decide_eq_true_2, fullPalette_minimal_truthy.
  - intros k Hprefix. apply not_elem_of_dom. rewrite Hmin.
    rewrite elem_of_list_to_set. unfold MINIMAL_ELEMENTS.
    rewrite !elem_of_cons, elem_of_nil.
    intros [->|[->|[->|[->|[]]]]]; by destruct Hprefix.
  - done.
  - rewrite <- size_dom, Hfull, size_list_to_set by apply NoDup_AFFECTED_ELEMENTS.
    done.
  - done.
  - done.
Qed.
End PaletteFacts.

(** ** Startup reconciliation *)

Lemma defaultLoop_lookup (cur : gmap string jsval) k :
  foldl (λ updated key, <[key := VNull]> updated) cur AFFECTED_ELEMENTS !! k =
  if bool_decide (k ∈ AFFECTED_ELEMENTS) then Some VNull else cur !! k.
Proof.
  case_bool_decide as Hk.
  - rewrite foldl_keys_at.
    + by rewrite lookup_insert_eq.
    + intros u key j Hj. by rewrite lookup_insert_ne.
    + intros u u' key _. by rewrite !lookup_insert_eq.
    + apply NoDup_AFFECTED_ELEMENTS.
    + done.
  - rewrite foldl_keys_frame; [done| |done].
    intros u key j Hj. by rewrite lookup_insert_ne.
Qed.

Lemma applyDefaultColors_spec env tm :
  let tm' := applyDefaultColors env tm in
  (∀ k, scopedCustomizations env tm' !! k =
        if bool_decide (k ∈ AFFECTED_ELEMENTS) then Some VNull
        else scopedCustomizations env tm !! k) ∧
  (∀ target, target ≠ getConfigurationTarget env →
     inspect_target (colorCustomizations tm') target
     = inspect_target (colorCustomizations tm) target).
Proof.
  unfold applyDefaultColors, scopedCustomizations, getConfigurationTarget,
    getWorkspaceConfigurationTarget.
  destruct (hasWorkspace env); cbn -[foldl AFFECTED_ELEMENTS]; split.
  - intros k. apply defaultLoop_lookup.
  - by intros [].
  - intros k. apply defaultLoop_lookup.
  - by intros [].
Qed.

Lemma removeTheme_forceDefault env log tm :
  let tm' := removeTheme env log true tm in
  (∀ k, scopedCustomizations env tm' !! k =
        if bool_decide (k ∈ AFFECTED_ELEMENTS) then Some VNull
        else scopedCustomizations env tm !! k) ∧
  (∀ target, target ≠ getConfigurationTarget env →
     inspect_target (colorCustomizations tm') target
     = inspect_target (colorCustomizations tm) target) ∧
  THEME_APPLIED tm' = Some false ∧
  isThemeApplied tm' = false ∧
  lastAppliedColor tm' = None ∧
  lastAppliedMinimal tm' = None ∧
  lastAppliedPalette tm' = None ∧
  THEME_STATE tm' = THEME_STATE (ensureOriginalCustomizationsCaptured env tm) ∧
  GLOBAL_THEME_STATE tm' = GLOBAL_THEME_STATE tm.
Proof.
  intros tm'. subst tm'. unfold removeTheme. rewrite andb_false_r.
  set (tm1 := ensureOriginalCustomizationsCaptured env tm).
  assert (colorCustomizations tm1 = colorCustomizations tm) as Hcc.
  { unfold tm1, ensureOriginalCustomizationsCaptured. by case_match. }
  assert (GLOBAL_THEME_STATE tm1 = GLOBAL_THEME_STATE tm) as Hg.
  { unfold tm1, ensureOriginalCustomizationsCaptured. by case_match. }
  destruct (applyDefaultColors_spec env tm1) as [Hdoc Hother].
  unfold scopedCustomizations in *. rewrite Hcc in Hdoc, Hother.
  split_and!; try done.
Qed.

(** C8, in the form that holds of the code.  A window that starts with the
    stale applied flag, unfocused, with the keep-inactive policy off (and
    the extension and its colours enabled) runs [ensureCleanStateOnStartup]
    with [forceDefaultInactive]; without any interaction this binds every
    affected key of the document of the active scope to an explicit [null]
    (the default colour), leaves the other keys and the documents of the
    other scopes as they are, clears the applied flag and the in-memory
    record of the applied theme, and keeps the stored snapshot. *)
Theorem startup_forces_default_colours (env : Env) (tm : ThemeManager) :
  THEME_APPLIED tm = Some true →
  focused env = false →
  keepInactiveWindowColors (getConfiguration (settings env)) = false →
  isEnabled (settings env) = true →
  enableColors (getConfiguration (settings env)) = true →
  let tm' := startupReconciliation env tm in
  tm' = ensureCleanStateOnStartup env false true tm ∧
  (∀ k, k ∈ AFFECTED_ELEMENTS →
     scopedCustomizations env tm' !! k = Some VNull) ∧
  (∀ k, k ∉ AFFECTED_ELEMENTS →
     scopedCustomizations env tm' !! k = scopedCustomizations env tm !! k) ∧
  (∀ target, target ≠ getConfigurationTarget env →
     inspect_target (colorCustomizations tm') target
     = inspect_target (colorCustomizations tm) target) ∧
  THEME_APPLIED tm' = Some false ∧
  isThemeApplied tm' = false ∧
  lastAppliedPalette tm' = None ∧
  (∀ s, THEME_STATE tm = Some s → THEME_STATE tm' = Some s).
Proof.
  intros Hflag Hfocus Hkeep Henabled Hcolors tm'.
  assert (tm' = removeTheme env false true tm) as ->.
  { subst tm'. unfold startupReconciliation, ensureCleanStateOnStartup.
    by rewrite Hflag, Hfocus, Hkeep, Henabled, Hcolors. }
  destruct (removeTheme_forceDefault env false tm)
    as (Hdoc & Hother & Happlied & Hin & _ & _ & Hpal & Hstate & _).
  split_and!; try done.
  - unfold ensureCleanStateOnStartup. by rewrite Hflag.
  - intros k Hk. by rewrite Hdoc, bool_decide_eq_true_2.
  - intros k Hk. by rewrite Hdoc, bool_decide_eq_false_2.
  - intros s Hs. rewrite Hstate.
    unfold ensureOriginalCustomizationsCaptured, getStoredCustomizations.
    by rewrite Hs.
Qed.

(** ** Coordination *)

Section CoordinationFacts.
Context `{JsHost}.

Lemma handleCoordinationChange_parsed env m content data :
  coordinationFile m = Some content →
  JSON_parse content = Some data →
  handleCoordinationChange env m = m ∨
  handleCoordinationChange env m = handleCoordinationData env data m.
Proof.
  intros Hfile Hparse. unfold handleCoordinationChange.
  rewrite Hfile, Hparse. case_bool_decide; auto.
Qed.

Lemma handleCoordinationChange_nonblank env m content data :
  coordinationFile m = Some content →
  String_trim content ≠ "" →
  JSON_parse content = Some data →
  handleCoordinationChange env m = handleCoordinationData env data m.
Proof.
  intros Hfile Htrim Hparse. unfold handleCoordinationChange.
  by rewrite Hfile, Hparse, bool_decide_eq_false_2.
Qed.

Lemma stale_data_ignored env m data ts :
  CoordinationData.timestamp data = Some ts →
  ts ≤ lastActivatedAt m →
  handleCoordinationData env (Some data) m = m.
Proof.
  intros Hts Hle. unfold handleCoordinationData. rewrite Hts.
  rewrite (bool_decide_eq_true_2 (_ >= _)) by lia.
  by repeat case_match.
Qed.

(** C2.  Stale-claim rejection: a record whose timestamp is at most
    [lastActivatedAt] leaves the whole state of the window as it is:
    activation, timers, theme, title and status bar.  [notifyWindowActive]
    sets that mark to the time of the announcement, so a record that is
    no newer and lands in the file afterwards is ignored. *)
Theorem stale_claim_rejected
    (env : Env) (m : FocusMarkManager) (content : string)
    (data : CoordinationData.t) (ts : Z) :
  JSON_parse content = Some (Some data) →
  CoordinationData.timestamp data = Some ts →
  (coordinationFile m = Some content → ts ≤ lastActivatedAt m →
   handleCoordinationChange env m = m) ∧
  (∀ now, ts ≤ now →
     let announced :=
       set_coordinationFile (notifyWindowActive now m) (Some content) in
     lastActivatedAt announced = now ∧
     handleCoordinationChange env announced = announced).
Proof.
  intros Hparse Hts.
  assert (∀ m', coordinationFile m' = Some content →
                ts ≤ lastActivatedAt m' →
                handleCoordinationChange env m' = m') as Hstale.
  { intros m' Hfile Hle.
    destruct (handleCoordinationChange_parsed env m' content (Some data))
      as [->| ->]; [done..|].
    by apply (stale_data_ignored env m' data ts). }
  split; [apply Hstale|].
  intros now Hnow announced. split; [done|]. by apply Hstale.
Qed.

(** C3.  A focused window is never deactivated by a remote claim: while
    the window has the focus, whatever record the coordination file holds
    (any claimant, any timestamp) leaves the state as it is. *)
Theorem focused_never_deactivated
    (env : Env) (m : FocusMarkManager) (content : string)
    (data : option CoordinationData.t) :
  focused env = true →
  coordinationFile m = Some content →
  JSON_parse content = Some data →
  handleCoordinationChange env m = m.
Proof.
  intros Hfocus Hfile Hparse.
  destruct (handleCoordinationChange_parsed env m content data)
    as [->| ->]; [done..|].
  unfold handleCoordinationData. rewrite Hfocus.
  destruct data as [data|]; [|done]. by repeat case_match.
Qed.

(** C9, in the form that holds of the code.  Corrupt-claim self-healing:
    when the text of the coordination file is not blank and [JSON.parse]
    rejects it, the file is deleted and nothing else changes; when the
    text is blank and rejected the file is left in place and nothing
    changes.  Either way the handler returns a state: there is no failure
    to propagate. *)
Theorem corrupt_claim_self_heals
    (env : Env) (m : FocusMarkManager) (content : string) :
  coordinationFile m = Some content →
  JSON_parse content = None →
  (String_trim content ≠ "" →
   handleCoordinationChange env m = set_coordinationFile m None) ∧
  (String_trim content = "" → handleCoordinationChange env m = m).
Proof.
  intros Hfile Hparse. unfold handleCoordinationChange.
  rewrite Hfile, Hparse. split; intros Htrim.
  - by rewrite bool_decide_eq_false_2.
  - by rewrite bool_decide_eq_true_2.
Qed.
End CoordinationFacts.

Lemma generateWorkspaceId_nonempty workspaceFolders workspaceName pathHash :
  generateWorkspaceId workspaceFolders workspaceName pathHash ≠ "".
Proof.
  unfold generateWorkspaceId, truthy_str.
  destruct workspaceFolders; [|done]. simpl.
  destruct workspaceName as [[|c name]|]; done.
Qed.

Lemma removeTheme_removes env log force tm :
  isThemeApplied tm = true →
  isThemeApplied (removeTheme env log force tm) = false ∧
  lastAppliedPalette (removeTheme env log force tm) = None.
Proof. intros Happlied. unfold removeTheme. by rewrite Happlied. Qed.

Lemma deactivateWindow_spec env preserveTheme m :
  isWindowActive m = true ∨ isActive (themeManager m) = true →
  let config := getConfiguration (settings env) in
  let m' := deactivateWindow env preserveTheme m in
  isWindowActive m' = false ∧
  activeApplyTimer m' = false ∧
  deactivateTimer m' = deactivateTimer m ∧
  titleManager m' = TitleSetInactive :: titleManager m ∧
  statusBarManager m' = StatusSetActive false :: statusBarManager m ∧
  lastActivatedAt m' = lastActivatedAt m ∧
  coordinationFile m' = coordinationFile m ∧
  themeManager m' =
    if enableColors config then
      if preserveTheme && keepInactiveWindowColors config then themeManager m
      else removeTheme env true (negb (keepInactiveWindowColors config))
             (themeManager m)
    else removeTheme env false false (themeManager m).
Proof.
  intros Hactive config m'. subst m'. unfold deactivateWindow. fold config.
  assert (negb (isWindowActive m) && negb (isActive (themeManager m)) = false)
    as ->.
  { destruct Hactive as [-> | ->]; [done|]. by rewrite andb_false_r. }
  rewrite negb_involutive.
  destruct (enableColors config); [|done]. cbn [negb].
  by destruct (preserveTheme && keepInactiveWindowColors config).
Qed.

Section Preservation.
Context `{JsHost}.

(** C4, in the form that holds of the code.  A remote claim that is newer,
    from another window, seen while this window is not focused and is
    active or still shows the theme: (a) under the workspace scope a claim
    from another workspace is ignored; (b) otherwise the window deactivates
    (flag off, title inactive, status bar inactive), and with colours
    enabled the theme is left as it is when the keep-inactive flag is on
    and the claimant is in this window's workspace, and is removed by
    [removeTheme] in every other case, so never preserved across
    workspaces; with colours disabled the theme is always removed.  The
    identifier of this window's workspace is not empty, see
    [generateWorkspaceId_nonempty]. *)
Theorem scope_and_preservation
    (env : Env) (m : FocusMarkManager) (content : string)
    (data : CoordinationData.t) (ts : Z) :
  coordinationFile m = Some content →
  String_trim content ≠ "" →
  JSON_parse content = Some (Some data) →
  truthy_str (CoordinationData.activeWindowId data) = true →
  CoordinationData.activeWindowId data ≠ Some (windowId m) →
  CoordinationData.timestamp data = Some ts →
  lastActivatedAt m < ts →
  focused env = false →
  isWindowActive m = true ∨ isActive (themeManager m) = true →
  workspaceId m ≠ "" →
  let config := getConfiguration (settings env) in
  let sameWorkspace :=
    CoordinationData.workspaceId data = Some (workspaceId m) in
  let m' := handleCoordinationChange env m in
  (coordinationScope config = "workspace" → ¬ sameWorkspace → m' = m) ∧
  (coordinationScope config ≠ "workspace" ∨ sameWorkspace →
   isWindowActive m' = false ∧
   titleManager m' = TitleSetInactive :: titleManager m ∧
   statusBarManager m' = StatusSetActive false :: statusBarManager m ∧
   (enableColors config = true →
    keepInactiveWindowColors config = true → sameWorkspace →
    themeManager m' = themeManager m) ∧
   (enableColors config = true →
    ¬ (keepInactiveWindowColors config = true ∧ sameWorkspace) →
    themeManager m'
    = removeTheme env true (negb (keepInactiveWindowColors config))
        (themeManager m)) ∧
   (enableColors config = false →
    themeManager m' = removeTheme env false false (themeManager m)) ∧
   (enableColors config = true → isThemeApplied (themeManager m) = true →
    (isThemeApplied (themeManager m') = true ↔
     keepInactiveWindowColors config = true ∧ sameWorkspace))).
Proof.
  intros Hfile Htrim Hparse Hid Hother Hts Hnewer Hfocus Hactive Hws
    config sameWorkspace m'.
  assert (m' = handleCoordinationData env (Some data) m) as ->
    by by apply handleCoordinationChange_nonblank with content.
  unfold handleCoordinationData.
  rewrite Hid, Hfocus, Hts. cbn [negb orb].
  rewrite (bool_decide_eq_false_2 (CoordinationData.activeWindowId data = _))
    by done.
  rewrite (bool_decide_eq_false_2 (_ >= _)) by lia.
  assert (isWindowActive m || isActive (themeManager m) = true) as ->.
  { destruct Hactive as [-> | ->]; [done|]. by rewrite orb_true_r. }
  fold config.
  set (same := truthy_str (CoordinationData.workspaceId data)
               && bool_decide (CoordinationData.workspaceId data
                               = Some (workspaceId m))).
  assert (same = bool_decide sameWorkspace) as Hsame.
  { subst same sameWorkspace. case_bool_decide as Heq; [|by rewrite andb_false_r].
    rewrite Heq. unfold truthy_str. by rewrite bool_decide_eq_false_2. }
  rewrite Hsame. split.
  - intros Hscope Hdiff.
    by rewrite (bool_decide_eq_true_2 _ Hscope), (bool_decide_eq_false_2 _ Hdiff).
  - intros Hrun.
    assert (bool_decide (coordinationScope config = "workspace")
            && negb (bool_decide sameWorkspace) = false) as ->.
    { destruct Hrun as [Hscope|Hs].
      - by rewrite (bool_decide_eq_false_2 _ Hscope).
      - by rewrite (bool_decide_eq_true_2 _ Hs), andb_false_r. }
    unfold scheduleDeactivation.
    destruct (deactivateWindow_spec env
                (keepInactiveWindowColors config && bool_decide sameWorkspace)
                (clearDeactivateTimer m) Hactive)
      as (Hact & _ & _ & Htitle & Hstatus & _ & _ & Htheme).
    fold config in Htheme. cbn [clearDeactivateTimer themeManager] in Htheme.
    split_and!; try done.
    + intros Hc Hk Hs. rewrite Htheme, Hc, Hk.
      by rewrite (bool_decide_eq_true_2 _ Hs).
    + intros Hc Hnot. rewrite Htheme, Hc.
      destruct (keepInactiveWindowColors config); [|done].
      rewrite bool_decide_eq_false_2; [done|]. intros Hs. by apply Hnot.
    + intros Hc. by rewrite Htheme, Hc.
    + intros Hc Happlied. rewrite Htheme, Hc.
      destruct (keepInactiveWindowColors config) eqn:Hk; cbn [andb negb].
      * destruct (bool_decide sameWorkspace) eqn:Hs.
        -- apply bool_decide_eq_true in Hs. cbn [andb].
           by rewrite Happlied.
        -- apply bool_decide_eq_false in Hs. cbn [andb].
           rewrite (proj1 (removeTheme_removes env true false _ Happlied)).
           split; [done|]. by intros [_ ?].
      * rewrite (proj1 (removeTheme_removes env true true _ Happlied)).
        split; [done|]. by intros [? _].
Qed.
End Preservation.

(** ** The apply delay *)

Lemma Math_round_nearest q :
  (inject_Z (Qfloor (q + (1 # 2))) - (1 # 2) <= q)%Q ∧
  (q < inject_Z (Qfloor (q + (1 # 2))) + (1 # 2))%Q.
Proof.
  pose proof (Qfloor_le (q + (1 # 2))) as Hle.
  pose proof (Qlt_floor (q + (1 # 2))) as Hlt.
  rewrite inject_Z_plus in Hlt. change (inject_Z 1) with 1%Q in Hlt.
  split; lra.
Qed.

Lemma Math_round_range q :
  (0 <= q)%Q → (q <= 500)%Q → 0 ≤ Qfloor (q + (1 # 2)) ≤ 500.
Proof.
  intros H0 H500. split.
  - change 0 with (Qfloor 0). apply Qfloor_resp_le. lra.
  - change 500 with (Qfloor (1001 # 2)). apply Qfloor_resp_le. lra.
Qed.

Lemma validateDelay_cases (value : JsAny) :
  match value with
  | JNumber (Num q) =>
      if Qlt_le_dec q 0 then validateDelay value (Num 500%Q) = Num 0%Q
      else if Qlt_le_dec 500 q
      then validateDelay value (Num 500%Q) = Num 500%Q
      else validateDelay value (Num 500%Q)
           = Num (inject_Z (Qfloor (q + (1 # 2))))
  | JNumber PosInf => validateDelay value (Num 500%Q) = Num 500%Q
  | _ => validateDelay value (Num 500%Q) = Num 0%Q
  end.
Proof.
  destruct value as [| | |[| | |q]| |]; try done.
  unfold validateDelay, js_gt, js_lt.
  destruct (Qlt_le_dec q 0); [done|]. by destruct (Qlt_le_dec 500 q).
Qed.

(** C10.  The apply delay of [getConfiguration] is a whole number of
    milliseconds between 0 and 500: a setting that is not set gives the
    default 100, one that is not a number or is NaN gives 0, a negative one
    gives 0, one above 500 gives 500, and any other one is rounded to the
    nearest integer. *)
Theorem apply_delay_bounds (c : WorkspaceConfiguration) :
  let delay := activeApplyDelay (getConfiguration c) in
  (∃ z : Z, delay = Num (inject_Z z) ∧ 0 ≤ z ≤ 500) ∧
  (raw_activeApplyDelay c = JUndefined → delay = Num 100%Q) ∧
  ((∀ n, raw_activeApplyDelay c ≠ JNumber n) →
   raw_activeApplyDelay c ≠ JUndefined → delay = Num 0%Q) ∧
  (raw_activeApplyDelay c = JNumber NaN → delay = Num 0%Q) ∧
  (∀ q, raw_activeApplyDelay c = JNumber (Num q) → (q < 0)%Q →
        delay = Num 0%Q) ∧
  (raw_activeApplyDelay c = JNumber NegInf → delay = Num 0%Q) ∧
  (∀ q, raw_activeApplyDelay c = JNumber (Num q) → (500 < q)%Q →
        delay = Num 500%Q) ∧
  (raw_activeApplyDelay c = JNumber PosInf → delay = Num 500%Q) ∧
  (∀ q, raw_activeApplyDelay c = JNumber (Num q) → (0 <= q)%Q → (q <= 500)%Q →
        let z := Qfloor (q + (1 # 2)) in
        delay = Num (inject_Z z) ∧
        (inject_Z z - (1 # 2) <= q)%Q ∧ (q < inject_Z z + (1 # 2))%Q).
Proof.
  intros delay. subst delay. unfold getConfiguration. simpl.
  pose proof (validateDelay_cases (raw_activeApplyDelay c)) as Hcases.
  split_and!.
  - destruct (raw_activeApplyDelay c) as [| | |[| | |q]| |] eqn:Hraw;
      simpl config_get.
    + exists 100. split; [done|lia].
    + exists 0. split; [done|lia].
    + exists 0. split; [done|lia].
    + exists 0. split; [done|lia].
    + exists 500. split; [done|lia].
    + exists 0. split; [done|lia].
    + destruct (Qlt_le_dec q 0) as [Hneg|Hpos];
        [exists 0; split; [by rewrite Hcases|lia]|].
      destruct (Qlt_le_dec 500 q) as [Hbig|Hsmall];
        [exists 500; split; [by rewrite Hcases|lia]|].
      exists (Qfloor (q + (1 # 2))). split; [by rewrite Hcases|].
      by apply Math_round_range.
    + exists 0. split; [done|lia].
    + exists 0. split; [done|lia].
  - by intros ->.
  - intros Hnum Hdef.
    destruct (raw_activeApplyDelay c) as [| | |n| |]; try done.
    by destruct (Hnum n).
  - by intros ->.
  - intros q Hraw Hneg. rewrite Hraw in *. simpl config_get.
    destruct (Qlt_le_dec q 0) as [|Hpos]; [done|lra].
  - by intros ->.
  - intros q Hraw Hbig. rewrite Hraw in *. simpl config_get.
    destruct (Qlt_le_dec q 0) as [Hneg|Hpos]; [lra|].
    destruct (Qlt_le_dec 500 q) as [|Hsmall]; [done|lra].
  - by intros ->.
  - intros q Hraw H0 H500. rewrite Hraw in *. simpl config_get.
    destruct (Qlt_le_dec q 0) as [Hneg|Hpos]; [lra|].
    destruct (Qlt_le_dec 500 q) as [Hbig|Hsmall]; [lra|].
    split; [done|]. apply Math_round_nearest.
Qed.

(** ** Concrete runs of the theorems *)

(** A closed decidable fact, settled by evaluating its decision. *)
Ltac by_evaluation := apply (bool_decide_unpack _); vm_compute; exact I.

Section Runs.
Import Scenario.
Import SampleColord SampleHost.

(** The user's title bar colour survives the restore, the status bar gets
    the user's earlier colour back, the other palette keys go away and
    the editor colour is not touched. *)
Example restore_after_user_edit :
  scopedCustomizations focusedWindow
    (removeTheme focusedWindow true false edited)
  = list_to_map
      [ ("titleBar.activeBackground", VStr "#123456");
        ("statusBar.background", VStr "#222222");
        ("editor.background", VStr "#000000") ].
Proof. by_evaluation. Qed.

(** The title bar colour the user wrote over the palette is still there
    after the restore. *)
Lemma restore_preserves_concurrent_edits_witness :
  scopedCustomizations focusedWindow
    (restoreOriginalCustomizations focusedWindow (THEME_STATE edited) edited)
  !! "titleBar.activeBackground" = Some (VStr "#123456").
Proof.
  refine (proj2 (proj2 (restore_preserves_concurrent_edits focusedWindow
            edited (THEME_STATE edited)
            (buildAppliedPalette blue false) "titleBar.activeBackground" _))
            (VStr "#123456") _ _).
  - by_evaluation.
  - by_evaluation.
  - by_evaluation.
Defined.

(** This window announces at time 100; the record a sibling wrote at time
    50 arrives afterwards and is ignored. *)
Lemma stale_claim_rejected_witness :
  let announced :=
    set_coordinationFile (notifyWindowActive 100 (window None))
      (Some (JSON_stringify olderClaim)) in
  lastActivatedAt announced = 100 ∧
  handleCoordinationChange unfocusedWindow announced = announced.
Proof.
  refine (proj2 (stale_claim_rejected unfocusedWindow (window None)
            (JSON_stringify olderClaim) olderClaim 50 _ _) 100 _).
  - by_evaluation.
  - by_evaluation.
  - lia.
Defined.

(** A newer claim of a sibling does nothing to the focused window. *)
Lemma focused_never_deactivated_witness :
  handleCoordinationChange focusedWindow
    (window (Some (JSON_stringify newerClaim)))
  = window (Some (JSON_stringify newerClaim)).
Proof.
  refine (focused_never_deactivated focusedWindow
            (window (Some (JSON_stringify newerClaim)))
            (JSON_stringify newerClaim) (Some newerClaim) _ _ _).
  - by_evaluation.
  - by_evaluation.
  - by_evaluation.
Defined.

(** With colours disabled the theme of a window is removed although the
    keep-inactive flag is on and the claimant shares its workspace. *)
Lemma preservation_counterexample :
  let env := unfocusedKeepNoColours in
  let m := window (Some (JSON_stringify newerClaim)) in
  let m' := handleCoordinationChange env m in
  JSON_parse (JSON_stringify newerClaim) = Some (Some newerClaim) ∧
  CoordinationData.activeWindowId newerClaim ≠ Some (windowId m) ∧
  CoordinationData.timestamp newerClaim = Some 200 ∧
  lastActivatedAt m < 200 ∧
  focused env = false ∧
  isWindowActive m = true ∧
  keepInactiveWindowColors (getConfiguration (settings env)) = true ∧
  CoordinationData.workspaceId newerClaim = Some (workspaceId m) ∧
  isWindowActive m' = false ∧
  themeManager m' ≠ themeManager m ∧
  isThemeApplied (themeManager m) = true ∧
  isThemeApplied (themeManager m') = false ∧
  scopedCustomizations env (themeManager m) !! "titleBar.activeBackground"
  = Some (VStr "#1976D2") ∧
  scopedCustomizations env (themeManager m') !! "titleBar.activeBackground"
  = None.
Proof.
  intros env m m'. split_and!; by_evaluation.
Qed.

(** With colours enabled, the keep-inactive flag on and a claimant of the
    same workspace, the theme stays as it is. *)
Lemma scope_and_preservation_witness :
  let m := window (Some (JSON_stringify newerClaim)) in
  themeManager (handleCoordinationChange unfocusedKeep m) = themeManager m.
Proof.
  intros m.
  refine (proj1 (proj2 (proj2 (proj2 (proj2
            (scope_and_preservation unfocusedKeep m
               (JSON_stringify newerClaim) newerClaim 200
               _ _ _ _ _ _ _ _ _ _) _)))) _ _ _).
  all: by_evaluation.
Defined.

(** An apply, an edit by the user, a second apply in a workspace, a reset to
    the default colours and a third apply: the snapshot is the capture the
    first apply made. *)
Lemma snapshot_captured_once_witness :
  THEME_STATE (runSession (StepApplyTheme focusedWindow :: session) customized)
  = Some (captureAll (scopedCustomizations focusedWindow customized)).
Proof.
  refine (proj1 (proj2 (proj2 (proj2 (proj2 snapshot_captured_once))))
            focusedWindow session customized _ _); by_evaluation.
Defined.

(** The second apply, after the window lost the focus, writes nothing. *)
Lemma idempotent_apply_witness :
  updates (applyTheme unfocusedWindow (applyTheme focusedWindow customized))
  = updates (applyTheme focusedWindow customized).
Proof.
  refine (proj2 (proj1 idempotent_apply focusedWindow unfocusedWindow
                   customized _ _)); by_evaluation.
Defined.

(** The minimal palette of the sample colour library. *)
Lemma palette_scenario_witness :
  size (generateColorPalette blue true) = 4%nat ∧
  generateColorPalette blue true !! "statusBar.background" = None.
Proof.
  split.
  - exact (proj1 (proj2 palette_scenario)).
  - refine (proj1 (proj2 (proj2 (proj2 palette_scenario)))
              "statusBar.background" _).
    by left.
Defined.

(** After the reconciliation of a crashed window the workspace document
    binds the affected keys (to [null]) and the global document still
    holds the palette. *)
Lemma startup_pristine_counterexample :
  let env := unfocusedWorkspace in
  let tm' := startupReconciliation env crashed in
  THEME_APPLIED crashed = Some true ∧
  focused env = false ∧
  keepInactiveWindowColors (getConfiguration (settings env)) = false ∧
  tm' = ensureCleanStateOnStartup env false true crashed ∧
  or_empty (workspaceValue (colorCustomizations tm'))
    !! "titleBar.activeBackground" = Some VNull ∧
  or_empty (globalValue (colorCustomizations tm'))
    !! "titleBar.activeBackground" = Some (VStr "#1976D2") ∧
  ¬ noOverriddenKeys tm'.
Proof.
  intros env tm'. split_and!; try by_evaluation.
  intros Hnone.
  specialize (Hnone Workspace "titleBar.activeBackground").
  assert ("titleBar.activeBackground" ∈ AFFECTED_ELEMENTS) as Hk by left.
  specialize (Hnone Hk). revert Hnone. by_evaluation.
Qed.

(** The crashed window, restarted without the focus: the focus border of
    the workspace document is an explicit [null]. *)
Lemma startup_forces_default_colours_witness :
  scopedCustomizations unfocusedWorkspace
    (startupReconciliation unfocusedWorkspace crashed)
  !! "focusBorder" = Some VNull.
Proof.
  refine (proj1 (proj2 (startup_forces_default_colours unfocusedWorkspace
                          crashed _ _ _ _ _)) "focusBorder" _).
  all: by_evaluation.
Defined.

(** An empty coordination file is not JSON, and it is not deleted. *)
Lemma corrupt_claim_counterexample :
  let m := window (Some "") in
  JSON_parse "" = None ∧
  coordinationFile (handleCoordinationChange unfocusedWindow m) = Some "" ∧
  handleCoordinationChange unfocusedWindow m ≠ set_coordinationFile m None.
Proof. intros m. split_and!; by_evaluation. Qed.

(** A truncated record is deleted and nothing else changes. *)
Lemma corrupt_claim_self_heals_witness :
  handleCoordinationChange unfocusedWindow (window (Some "{oops"))
  = window None.
Proof.
  refine (proj1 (corrupt_claim_self_heals unfocusedWindow
                   (window (Some "{oops")) "{oops" _ _) _).
  - by_evaluation.
  - by_evaluation.
  - by_evaluation.
Defined.

(** A delay of 99.5 ms is rounded to 100. *)
Lemma apply_delay_bounds_witness :
  activeApplyDelay (getConfiguration halfMillisecond) = Num (inject_Z 100).
Proof.
  refine (proj1 (proj2 (proj2 (proj2 (proj2 (proj2 (proj2 (proj2 (proj2
            (apply_delay_bounds halfMillisecond)))))))) (199 # 2)%Q _ _ _)).
  - reflexivity.
  - by vm_compute.
  - by vm_compute.
Defined.
End Runs.

(** * Further properties *)

(** ** What a document reads as after an apply *)

Lemma js_get_spread cur colors k :
  js_get (spread cur colors) k =
  match colors !! k with Some v => v | None => js_get cur k end.
Proof.
  unfold js_get, spread. rewrite lookup_union.
  by destruct (colors !! k), (cur !! k).
Qed.

Lemma js_get_definedPart o k : js_get (definedPart o) k = js_get o k.
Proof.
  unfold js_get at 1. rewrite definedPart_get. by destruct (js_get o k).
Qed.

Lemma definedPart_eq_js_get a b :
  definedPart a = definedPart b → ∀ k, js_get a k = js_get b k.
Proof.
  intros Heq k. by rewrite <- (js_get_definedPart a), Heq, js_get_definedPart.
Qed.

Lemma applyColorsToWorkbench_reads colors target tm :
  let tm' := applyColorsToWorkbench colors target tm in
  (∀ k, js_get (or_empty (inspect_target (colorCustomizations tm') target)) k
        = js_get (spread (or_empty (inspect_target (colorCustomizations tm)
                                      target)) colors) k) ∧
  (∀ other, other ≠ target →
     inspect_target (colorCustomizations tm') other
     = inspect_target (colorCustomizations tm) other) ∧
  isThemeApplied tm' = isThemeApplied tm ∧
  lastAppliedColor tm' = lastAppliedColor tm ∧
  lastAppliedMinimal tm' = lastAppliedMinimal tm ∧
  lastAppliedPalette tm' = lastAppliedPalette tm ∧
  THEME_APPLIED tm' = THEME_APPLIED tm.
Proof.
  intros tm'. subst tm'.
  set (cur := or_empty (inspect_target (colorCustomizations tm) target)).
  destruct (applyColorsToWorkbench_updates colors target tm) as [Hskip Hwrite].
  fold cur in Hskip, Hwrite.
  destruct (decide (definedPart (spread cur colors) = definedPart cur))
    as [Heq|Hne].
  - rewrite Hskip by done. split_and!; try done.
    intros k. fold cur. symmetry. by apply definedPart_eq_js_get.
  - rewrite Hwrite by done. split_and!; try done.
    + intros k. cbn [config_update colorCustomizations].
      rewrite inspect_set_target. cbn [or_empty default].
      apply (js_get_definedPart (spread cur colors)).
    + intros other Hother. cbn [config_update colorCustomizations].
      by destruct target, other.
Qed.

Lemma resetKeys_lookup k :
  resetKeys !! k = if bool_decide (k ∈ AFFECTED_ELEMENTS) then Some VUndef
                   else None.
Proof.
  unfold resetKeys. case_bool_decide as Hk.
  - rewrite foldl_keys_at.
    + by rewrite lookup_insert_eq.
    + intros u key j Hj. by rewrite lookup_insert_ne.
    + intros u u' key _. by rewrite !lookup_insert_eq.
    + apply NoDup_AFFECTED_ELEMENTS.
    + done.
  - rewrite foldl_keys_frame; [done| |done].
    intros u key j Hj. by rewrite lookup_insert_ne.
Qed.

Lemma MINIMAL_ELEMENTS_affected k :
  k ∈ MINIMAL_ELEMENTS → k ∈ AFFECTED_ELEMENTS.
Proof.
  unfold MINIMAL_ELEMENTS, AFFECTED_ELEMENTS. rewrite !elem_of_cons. tauto.
Qed.

Section AppliedDocument.
Context `{Colord}.

Lemma generateColorPalette_keys baseColorHex minimalMode k :
  is_Some (generateColorPalette baseColorHex minimalMode !! k) →
  k ∈ AFFECTED_ELEMENTS.
Proof.
  destruct minimalMode.
  - rewrite generateColorPalette_minimal_lookup.
    case_bool_decide as Hk; [|by intros []].
    intros _. by apply MINIMAL_ELEMENTS_affected.
  - intros Hk%elem_of_dom. unfold generateColorPalette in Hk.
    by rewrite dom_fullPalette, elem_of_list_to_set in Hk.
Qed.

Lemma buildAppliedPalette_lookup baseColorHex minimalMode k :
  buildAppliedPalette baseColorHex minimalMode !! k =
  if bool_decide (k ∈ AFFECTED_ELEMENTS)
  then Some (from_option VStr VUndef
               (generateColorPalette baseColorHex minimalMode !! k))
  else None.
Proof.
  unfold buildAppliedPalette. case_bool_decide as Hk.
  - rewrite foldl_keys_at.
    + by rewrite lookup_insert_eq.
    + intros u key j Hj. by rewrite lookup_insert_ne.
    + intros u u' key _. by rewrite !lookup_insert_eq.
    + apply NoDup_AFFECTED_ELEMENTS.
    + done.
  - rewrite foldl_keys_frame; [done| |done].
    intros u key j Hj. by rewrite lookup_insert_ne.
Qed.

Lemma appliedColors_read baseColorHex minimalMode cur k :
  js_get
    (spread cur
       (spread resetKeys (VStr <$> generateColorPalette baseColorHex minimalMode)))
    k
  = if bool_decide (k ∈ AFFECTED_ELEMENTS)
    then js_get (buildAppliedPalette baseColorHex minimalMode) k
    else js_get cur k.
Proof.
  rewrite js_get_spread. unfold spread. rewrite lookup_union, lookup_fmap.
  rewrite resetKeys_lookup. unfold js_get.
  rewrite buildAppliedPalette_lookup.
  destruct (generateColorPalette baseColorHex minimalMode !! k) as [v|] eqn:Hv.
  - rewrite bool_decide_eq_true_2; [done|].
    apply (generateColorPalette_keys baseColorHex minimalMode). by rewrite Hv.
  - simpl. by case_bool_decide.
Qed.

Lemma applyTheme_document (env : Env) (tm : ThemeManager) :
  isThemeApplied tm = false →
  let tm' := applyTheme env tm in
  let P := buildAppliedPalette (effectiveColor env)
             (negb (fullColorMode (getConfiguration (settings env)))) in
  lastAppliedPalette tm' = Some P ∧
  (∀ k, js_get (scopedCustomizations env tm') k =
        if bool_decide (k ∈ AFFECTED_ELEMENTS) then js_get P k
        else js_get (scopedCustomizations env tm) k) ∧
  (∀ k, js_get (or_empty (globalValue (colorCustomizations tm'))) k =
        if bool_decide (k ∈ AFFECTED_ELEMENTS) then js_get P k
        else js_get (or_empty (globalValue (colorCustomizations tm))) k).
Proof.
  intros Happlied tm' P.
  subst tm' P. unfold applyTheme. rewrite Happlied. cbn [andb].
  set (base := effectiveColor env).
  set (minimal := negb (fullColorMode (getConfiguration (settings env)))).
  set (colors := spread resetKeys (VStr <$> generateColorPalette base minimal)).
  set (tm2 := ensureGlobalOriginalCustomizationsCaptured
                (ensureOriginalCustomizationsCaptured env tm)).
  assert (colorCustomizations tm2 = colorCustomizations tm) as Hcc.
  { unfold tm2, ensureGlobalOriginalCustomizationsCaptured,
      ensureOriginalCustomizationsCaptured. by repeat case_match. }
  set (tm3 := set_fields tm2 _ _ _ _).
  assert (colorCustomizations tm3 = colorCustomizations tm) as Hcc3 by done.
  unfold scopedCustomizations, getWorkspaceConfigurationTarget.
  destruct (hasWorkspace env).
  - destruct (applyColorsToWorkbench_reads colors Workspace tm3)
      as (Hw & Hwo & _ & _ & _ & Hwp & _).
    destruct (applyColorsToWorkbench_reads colors Global
                (applyColorsToWorkbench colors Workspace tm3))
      as (Hg & Hgo & _ & _ & _ & Hgp & _).
    cbn [set_THEME_APPLIED set_fields lastAppliedPalette colorCustomizations].
    split_and!.
    + by rewrite Hgp, Hwp.
    + intros k. specialize (Hgo Workspace). cbn [inspect_target] in Hgo, Hw.
      rewrite Hgo by done. rewrite Hw, Hcc3. apply appliedColors_read.
    + intros k. specialize (Hwo Global). cbn [inspect_target] in Hwo, Hg.
      rewrite Hg, Hwo by done. rewrite Hcc3. apply appliedColors_read.
  - destruct (applyColorsToWorkbench_reads colors Global tm3)
      as (Hg & _ & _ & _ & _ & Hgp & _).
    cbn [set_THEME_APPLIED set_fields lastAppliedPalette colorCustomizations].
    cbn [inspect_target] in Hg.
    split_and!; [by rewrite Hgp| |];
      intros k; rewrite Hg, Hcc3; apply appliedColors_read.
Qed.

Lemma applyTheme_unedited (env : Env) (tm : ThemeManager) (k : string) :
  isThemeApplied tm = false →
  k ∈ AFFECTED_ELEMENTS →
  editedSinceApply (lastAppliedPalette (applyTheme env tm))
    (scopedCustomizations env (applyTheme env tm)) k = false.
Proof.
  intros Happlied Hk.
  destruct (applyTheme_document env tm Happlied) as (HP & Hscoped & _).
  rewrite HP. unfold editedSinceApply, js_strict_ne.
  apply bool_decide_eq_false_2. intros Hne. apply Hne. rewrite Hscoped.
  by rewrite bool_decide_eq_true_2.
Qed.

End AppliedDocument.

(** ** Apply, then remove *)

Lemma captureKey_frame cur stored key k :
  k ≠ key → captureKey cur stored key !! k = stored !! k.
Proof.
  intros Hne. unfold captureKey.
  repeat case_match; by rewrite lookup_insert_ne.
Qed.

Lemma captureKey_at cur stored key :
  captureKey cur stored key !! key =
  Some (match js_get cur key with VStr s => VStr s | _ => VNull end).
Proof.
  unfold captureKey, hasOwnProperty, js_get.
  destruct (cur !! key) as [[| |s]|] eqn:Hk; simpl;
    by rewrite lookup_insert_eq.
Qed.

Lemma captureAll_lookup cur k :
  captureAll cur !! k =
  if bool_decide (k ∈ AFFECTED_ELEMENTS)
  then Some (match js_get cur k with VStr s => VStr s | _ => VNull end)
  else None.
Proof.
  unfold captureAll. case_bool_decide as Hk.
  - rewrite foldl_keys_at.
    + apply captureKey_at.
    + apply captureKey_frame.
    + intros u u' key _. by rewrite !captureKey_at.
    + apply NoDup_AFFECTED_ELEMENTS.
    + done.
  - rewrite foldl_keys_frame; [done| |done]. apply captureKey_frame.
Qed.

Lemma removeTheme_hasWorkspace env env' log force tm :
  hasWorkspace env' = hasWorkspace env →
  removeTheme env' log force tm = removeTheme env log force tm.
Proof.
  intros Hws.
  unfold removeTheme, restoreOriginalCustomizations, applyDefaultColors,
    ensureOriginalCustomizationsCaptured, scopedCustomizations,
    getConfigurationTarget, getWorkspaceConfigurationTarget.
  by rewrite Hws.
Qed.

Lemma scopedCustomizations_set_fields env tm applied color minimal palette :
  scopedCustomizations env (set_fields tm applied color minimal palette)
  = scopedCustomizations env tm.
Proof. done. Qed.

Section RoundTrip.
Context `{Colord}.

(** X2.  Apply, then remove, is a round trip on the document of the active
    scope: starting a session (theme not applied, no snapshot stored) and
    with no edit in between, every key reads after the remove what it read
    before the apply, except that an affected key the user had set to
    [null] reads [undefined]; the snapshot, the fingerprint and the applied
    flag are cleared. *)
Theorem apply_then_remove_roundtrip
    (env env' : Env) (log : bool) (tm : ThemeManager) :
  isThemeApplied tm = false →
  THEME_STATE tm = None →
  hasWorkspace env' = hasWorkspace env →
  let tm' := removeTheme env' log false (applyTheme env tm) in
  (∀ k, js_get (scopedCustomizations env tm') k =
        if bool_decide (k ∈ AFFECTED_ELEMENTS)
           && bool_decide (js_get (scopedCustomizations env tm) k = VNull)
        then VUndef else js_get (scopedCustomizations env tm) k) ∧
  isThemeApplied tm' = false ∧
  lastAppliedPalette tm' = None ∧
  THEME_STATE tm' = None ∧
  THEME_APPLIED tm' = Some false.
Proof.
  intros Happlied Hnone Hws tm'. subst tm'.
  rewrite (removeTheme_hasWorkspace env env') by done.
  destruct (applyTheme_document env tm Happlied) as (HP & Hreads & _).
  pose proof (λ k, applyTheme_unedited env tm k Happlied) as Hedited.
  destruct (applyTheme_captures env tm Happlied) as [Hsnapshot _].
  specialize (Hsnapshot Hnone).
  destruct (applyTheme_fields env tm) as (Hon & _ & _).
  set (tm1 := applyTheme env tm) in *.
  unfold removeTheme. rewrite Hon. cbn [negb andb].
  split_and!; try done.
  intros k. unfold restoreOriginalCustomizations, getStoredCustomizations.
  rewrite scopedCustomizations_set_fields, scopedCustomizations_update.
  unfold js_get at 1. rewrite restoreLoop_lookup, Hsnapshot.
  case_bool_decide as Hk; cbn [andb].
  - rewrite Hedited by done. cbn [negb]. unfold originalOf.
    rewrite captureAll_lookup, bool_decide_eq_true_2 by done.
    destruct (js_get (scopedCustomizations env tm) k) eqn:Hget; try done.
  - fold (js_get (scopedCustomizations env tm1) k). rewrite Hreads.
    by rewrite bool_decide_eq_false_2.
Qed.

End RoundTrip.

(** ** The global restore *)

Lemma removeTheme_fingerprint env log force tm :
  fingerprintWhileApplied tm →
  lastAppliedPalette (removeTheme env log force tm) = None.
Proof.
  intros Hinv. unfold removeTheme. case_match eqn:Hearly; [|done].
  destruct (lastAppliedPalette tm) as [P|] eqn:HP; [|done].
  rewrite Hinv in Hearly by (by rewrite HP). done.
Qed.

Lemma restoreGlobal_without_fingerprint tm :
  lastAppliedPalette tm = None → restoreGlobalOriginalCustomizations tm = tm.
Proof.
  intros HP. unfold restoreGlobalOriginalCustomizations. rewrite HP.
  by case_match.
Qed.

Lemma restoreGlobal_fields tm :
  isThemeApplied (restoreGlobalOriginalCustomizations tm) = isThemeApplied tm ∧
  lastAppliedPalette (restoreGlobalOriginalCustomizations tm)
  = lastAppliedPalette tm.
Proof. unfold restoreGlobalOriginalCustomizations. by repeat case_match. Qed.

Section Reachable.
Context `{Colord}.

Lemma themeCall_invariant tm call :
  fingerprintWhileApplied tm → fingerprintWhileApplied (themeCall tm call).
Proof.
  intros Hinv.
  assert (∀ env log force, fingerprintWhileApplied (removeTheme env log force tm))
    as Hremove.
  { intros env log force Hsome.
    rewrite removeTheme_fingerprint in Hsome by done. by destruct Hsome. }
  destruct call as [env|env log force|env|env|env preserve force| |document];
    simpl; try done.
  - intros _. apply applyTheme_fields.
  - unfold resetAllColors. intros Hsome.
    destruct (restoreGlobal_fields (removeTheme env true false tm)) as [-> HP].
    rewrite HP in Hsome. by apply Hremove.
  - apply Hremove.
  - unfold ensureCleanStateOnStartup. repeat case_match; try done.
    all: apply Hremove.
  - intros Hsome. destruct (restoreGlobal_fields tm) as [-> HP].
    rewrite HP in Hsome. by apply Hinv.
Qed.

Lemma themeCalls_invariant calls tm :
  fingerprintWhileApplied tm → fingerprintWhileApplied (themeCalls calls tm).
Proof.
  revert tm. induction calls as [|call calls IH]; intros tm Hinv; [done|].
  apply IH. by apply themeCall_invariant.
Qed.

(** X4.  On every state a ThemeManager reaches from its construction by
    calls of its public methods and edits of the document by others, a
    remove clears the fingerprint and the global restore that follows it
    does nothing: [resetAllColors] is [removeTheme], and neither it nor the
    global restore after a remove touches the global snapshot. *)
Theorem global_restore_skipped_after_remove
    (calls : list ThemeCall)
    (localSnapshot globalSnapshot : option (gmap string jsval))
    (applied : option bool) (document : Inspect) (env : Env)
    (log forceDefaultInactive : bool) :
  let tm := themeCalls calls
              (newThemeManager localSnapshot applied globalSnapshot document) in
  restoreGlobalOriginalCustomizations
    (removeTheme env log forceDefaultInactive tm)
  = removeTheme env log forceDefaultInactive tm ∧
  resetAllColors env tm = removeTheme env true false tm ∧
  GLOBAL_THEME_STATE (resetAllColors env tm) = GLOBAL_THEME_STATE tm.
Proof.
  intros tm.
  assert (fingerprintWhileApplied tm) as Hinv.
  { apply themeCalls_invariant. by intros [? ?]. }
  assert (∀ l f, restoreGlobalOriginalCustomizations (removeTheme env l f tm)
                 = removeTheme env l f tm) as Hskip.
  { intros l f. apply restoreGlobal_without_fingerprint.
    by apply removeTheme_fingerprint. }
  split_and!; [apply Hskip|apply Hskip|].
  unfold resetAllColors. rewrite Hskip.
  unfold removeTheme. case_match; [done|]. done.
Qed.
End Reachable.

(** X5.  A remove after a remove does nothing: whatever the state, once
    [removeTheme] has restored the document a second call (or the
    [dispose] of the shutdown) returns the state as it is, with no further
    write. *)
Theorem remove_twice_is_remove_once
    (env env' : Env) (log log' : bool) (tm : ThemeManager) :
  removeTheme env' log' false (removeTheme env log false tm)
  = removeTheme env log false tm ∧
  dispose env' (removeTheme env log false tm) = removeTheme env log false tm.
Proof.
  assert (isThemeApplied (removeTheme env log false tm) = false
          ∧ THEME_STATE (removeTheme env log false tm) = None) as [Hoff Hnone].
  { unfold removeTheme, getStoredCustomizations.
    destruct (isThemeApplied tm) eqn:Hon; [done|].
    destruct (THEME_STATE tm) as [s|] eqn:Hs; [|done].
    rewrite (bool_decide_eq_true_2 (is_Some (Some s))) by eauto. done. }
  assert (∀ l, removeTheme env' l false (removeTheme env log false tm)
               = removeTheme env log false tm) as Hagain.
  { intros l. unfold removeTheme at 1. unfold getStoredCustomizations.
    rewrite Hoff, Hnone.
    rewrite (bool_decide_eq_false_2 (is_Some None)); [done|].
    by intros [? ?]. }
  split; apply Hagain.
Qed.

(** X6.  The global restore has the rule of the local one: with a global
    snapshot and a fingerprint recorded it leaves every key of the global
    document whose value differs from the fingerprint (and every key that
    is not an affected one) as it is, gives the others the snapshot value
    back or removes them, removes the whole setting exactly when no key is
    left, and clears the global snapshot; without a snapshot or without a
    fingerprint it does nothing. *)
Theorem global_restore_preserves_edits
    (tm : ThemeManager) (stored P : gmap string jsval) :
  GLOBAL_THEME_STATE tm = Some stored →
  lastAppliedPalette tm = Some P →
  let G := or_empty (globalValue (colorCustomizations tm)) in
  let tm' := restoreGlobalOriginalCustomizations tm in
  let G' := or_empty (globalValue (colorCustomizations tm')) in
  (∀ k, G' !! k =
        if bool_decide (k ∈ AFFECTED_ELEMENTS)
           && negb (js_strict_ne (js_get G k) (js_get P k))
        then originalOf (Some stored) k else G !! k) ∧
  (globalValue (colorCustomizations tm') = None ↔ G' = ∅) ∧
  workspaceValue (colorCustomizations tm')
  = workspaceValue (colorCustomizations tm) ∧
  GLOBAL_THEME_STATE tm' = None ∧
  THEME_STATE tm' = THEME_STATE tm.
Proof.
  intros Hstored HP G tm' G'.
  set (updated := foldl (restoreKey (Some P) G (Some stored)) G
                    AFFECTED_ELEMENTS).
  assert (tm' = clearStoredGlobalCustomizations
                  (config_update tm
                     (if negb (bool_decide (map_to_list updated = []))
                      then Some updated else None) Global)) as Htm'.
  { subst tm'. unfold restoreGlobalOriginalCustomizations,
      getStoredGlobalCustomizations. by rewrite Hstored, HP. }
  assert (G' = updated) as HG'.
  { subst G'. rewrite Htm'. cbn [clearStoredGlobalCustomizations
      set_GLOBAL_THEME_STATE config_update colorCustomizations set_target
      globalValue].
    case_bool_decide as Hempty; [|done]. simpl.
    by apply map_to_list_empty_iff in Hempty. }
  split_and!.
  - intros k. rewrite HG'. unfold updated. rewrite restoreLoop_lookup. done.
  - rewrite HG', Htm'. cbn [clearStoredGlobalCustomizations
      set_GLOBAL_THEME_STATE config_update colorCustomizations set_target
      globalValue].
    case_bool_decide as Hempty; simpl.
    + apply map_to_list_empty_iff in Hempty. by rewrite Hempty.
    + split; [done|]. intros Hupd. destruct Hempty.
      by apply map_to_list_empty_iff.
  - by rewrite Htm'.
  - by rewrite Htm'.
  - by rewrite Htm'.
Qed.

(** ** The palette of any base colour *)

Section AnyPalette.
Context `{Colord}.

Lemma fullPalette_title baseColorHex :
  fullPalette baseColorHex !! "titleBar.activeBackground" = Some baseColorHex ∧
  (∃ v, fullPalette baseColorHex !! "titleBar.activeForeground" = Some v
        ∧ v ≠ "") ∧
  (∃ v, fullPalette baseColorHex !! "titleBar.inactiveBackground" = Some v
        ∧ v ≠ "") ∧
  (∃ v, fullPalette baseColorHex !! "titleBar.inactiveForeground" = Some v
        ∧ v ≠ "").
Proof.
  split_and!.
  - done.
  - exists (if isDark (colord baseColorHex) then "#FFFFFF" else "#1E1E1E").
    split; [done|]. by destruct (isDark _).
  - exists (if isDark (colord baseColorHex)
            then toHex (darken 0.1%Q (colord baseColorHex))
            else toHex (lighten 0.1%Q (colord baseColorHex))).
    split; [done|]. destruct (isDark _); apply toHex_nonempty.
  - exists (if isDark (colord baseColorHex)
            then toHex (saturate 0.2%Q (lighten 0.3%Q (colord baseColorHex)))
            else toHex (desaturate 0.2%Q (darken 0.3%Q (colord baseColorHex)))).
    split; [done|]. destruct (isDark _); apply toHex_nonempty.
Qed.

(** X7.  For every base colour the full palette has exactly the fifteen
    affected keys and the fingerprint binds exactly those; the minimal
    palette takes its values from the full one and has exactly the four
    title-bar keys, unless the base colour is the empty string, in which
    case the active background is dropped from it. *)
Theorem palette_keys (baseColorHex : string) :
  let full := generateColorPalette baseColorHex false in
  let minimal := generateColorPalette baseColorHex true in
  dom full = list_to_set AFFECTED_ELEMENTS ∧
  size full = 15%nat ∧
  (∀ minimalMode,
     dom (buildAppliedPalette baseColorHex minimalMode)
     = list_to_set AFFECTED_ELEMENTS) ∧
  (∀ k, k ∈ dom minimal → minimal !! k = full !! k) ∧
  (baseColorHex ≠ "" → dom minimal = list_to_set MINIMAL_ELEMENTS) ∧
  (baseColorHex = "" →
   dom minimal = list_to_set MINIMAL_ELEMENTS ∖ {["titleBar.activeBackground"]}).
Proof.
  intros full minimal.
  destruct (fullPalette_title baseColorHex)
    as (Hbg & (fg & Hfg & Hfg') & (ibg & Hibg & Hibg') & (ifg & Hifg & Hifg')).
  assert (∀ k, k ∈ dom minimal ↔
               k ∈ MINIMAL_ELEMENTS
               ∧ (k = "titleBar.activeBackground" → baseColorHex ≠ ""))
    as Hdom.
  { intros k. subst minimal.
    rewrite elem_of_dom, generateColorPalette_minimal_lookup.
    case_bool_decide as Hk; cbn [andb]; [|split; [by intros []|tauto]].
    unfold MINIMAL_ELEMENTS in Hk. rewrite !elem_of_cons, elem_of_nil in Hk.
    destruct Hk as [->|[->|[->|[->|[]]]]].
    - rewrite Hbg. unfold truthy_str. case_bool_decide as Hb; simpl.
      + split; [by intros []|]. intros [_ Hne]. by destruct Hne.
      + split; [|by eauto]. intros _. split; [|done].
        unfold MINIMAL_ELEMENTS. rewrite !elem_of_cons. tauto.
    - rewrite Hfg. unfold truthy_str. rewrite bool_decide_eq_false_2 by done.
      simpl. split; [|by eauto]. intros _. split; [|done].
      unfold MINIMAL_ELEMENTS. rewrite !elem_of_cons. tauto.
    - rewrite Hibg. unfold truthy_str. rewrite bool_decide_eq_false_2 by done.
      simpl. split; [|by eauto]. intros _. split; [|done].
      unfold MINIMAL_ELEMENTS. rewrite !elem_of_cons. tauto.
    - rewrite Hifg. unfold truthy_str. rewrite bool_decide_eq_false_2 by done.
      simpl. split; [|by eauto]. intros _. split; [|done].
      unfold MINIMAL_ELEMENTS. rewrite !elem_of_cons. tauto. }
  split_and!.
  - apply dom_fullPalette.
  - unfold full, generateColorPalette.
    rewrite <- size_dom, dom_fullPalette, size_list_to_set
      by apply NoDup_AFFECTED_ELEMENTS. done.
  - intros minimalMode. apply set_eq. intros k.
    rewrite elem_of_dom, buildAppliedPalette_lookup, elem_of_list_to_set.
    case_bool_decide; split; try done; by intros [].
  - intros k [v Hv]%elem_of_dom. rewrite Hv. subst minimal.
    rewrite generateColorPalette_minimal_lookup in Hv.
    by repeat case_match.
  - intros Hbase. apply set_eq. intros k.
    rewrite Hdom, elem_of_list_to_set. tauto.
  - intros Hbase. apply set_eq. intros k.
    rewrite Hdom, elem_of_difference, elem_of_list_to_set, elem_of_singleton.
    split; intros [Hk Hne]; (split; [done|]); intros Heq.
    + by apply (Hne Heq).
    + by destruct (Hne Heq).
Qed.
End AnyPalette.

(** ** Colours and themes of the configuration *)

Lemma list_ascii_of_hash s :
  String.list_ascii_of_string ("#" +:+ s)
  = "#"%char :: String.list_ascii_of_string s.
Proof. done. Qed.

Lemma length_list_ascii_of_string s :
  length (String.list_ascii_of_string s) = String.length s.
Proof. induction s as [|c s IH]; simpl; [done|]. by rewrite IH. Qed.

Lemma isValidHexColor_shape value :
  isValidHexColor value = true →
  startsWithHash value = true ∧
  (String.length value = 7%nat ∨ String.length value = 4%nat).
Proof.
  unfold isValidHexColor, startsWithHash, isHexBody.
  rewrite <- (length_list_ascii_of_string value).
  destruct (String.list_ascii_of_string value) as [|c digits]; [done|].
  intros [Hc [_ Hlen]%andb_prop]%andb_prop. split; [done|].
  apply orb_prop in Hlen as [Hlen|Hlen]; apply bool_decide_eq_true in Hlen;
    simpl; rewrite Hlen; auto.
Qed.

Section ColourFacts.
Context `{JsHost}.

Lemma validateHexColor_valid (value : JsAny) :
  isValidHexColor (validateHexColor value) = true.
Proof.
  destruct value as [| | | |s|]; try done. simpl.
  by destruct (isValidHexColor (normalizeHexColor s)) eqn:Hvalid.
Qed.

(** X8.  Whatever the raw setting, [validateHexColor] returns a well-formed
    colour: a hash sign and three or six hexadecimal digits.  It is the
    normalized text when that is well formed, and the fallback [#FF6B35]
    for every other text and every value that is not a string. *)
Theorem validateHexColor_well_formed (value : JsAny) :
  isValidHexColor (validateHexColor value) = true ∧
  (String.length (validateHexColor value) = 7%nat
   ∨ String.length (validateHexColor value) = 4%nat) ∧
  (∀ s, value = JString s → isValidHexColor (normalizeHexColor s) = true →
        validateHexColor value = normalizeHexColor s) ∧
  (∀ s, value = JString s → isValidHexColor (normalizeHexColor s) = false →
        validateHexColor value = "#FF6B35") ∧
  ((∀ s, value ≠ JString s) → validateHexColor value = "#FF6B35").
Proof.
  pose proof (validateHexColor_valid value) as Hvalid.
  split_and!.
  - done.
  - by apply isValidHexColor_shape.
  - intros s -> Hs. simpl. by rewrite Hs.
  - intros s -> Hs. simpl. by rewrite Hs.
  - intros Hnot. destruct value as [| | | |s|]; try done. by destruct (Hnot s).
Qed.

Lemma validateTheme_valid value : validateTheme value ∈ VALID_THEMES.
Proof.
  assert ("auto" ∈ VALID_THEMES) by left.
  destruct value as [| | | |s|]; try done. simpl. by case_bool_decide.
Qed.

(** X9.  The effective colour: the validated theme is always one of the six
    known ones; under [auto], to which every unknown or ill-typed theme
    falls back, the colour is the one derived from the workspace, and
    under every other theme it is a well-formed hex colour, the preset of
    the theme or the validated custom colour. *)
Theorem effective_colour_well_formed
    (theme customColor : JsAny) (autoColor : string) :
  let color := getEffectiveColor theme customColor autoColor in
  getTheme theme ∈ VALID_THEMES ∧
  (getTheme theme = "auto" → color = autoColor) ∧
  (getTheme theme ≠ "auto" → isValidHexColor color = true) ∧
  (getTheme theme = "custom" → color = getCustomColor customColor) ∧
  ((∀ s, theme = JString s → s ∉ VALID_THEMES) → color = autoColor).
Proof.
  intros color. subst color. unfold getEffectiveColor.
  pose proof (validateTheme_valid (config_get theme (JString "auto"))) as Hin.
  fold (getTheme theme) in Hin.
  split_and!; try done.
  - by intros ->.
  - intros Hauto. revert Hin. unfold VALID_THEMES.
    rewrite !elem_of_cons, elem_of_nil.
    intros [?|[->|[->|[->|[->|[->|[]]]]]]]; try done.
    apply validateHexColor_valid.
  - by intros ->.
  - intros Hunknown.
    assert (getTheme theme = "auto") as ->; [|done].
    unfold getTheme. destruct theme as [| | | |s|]; try done. simpl.
    rewrite bool_decide_eq_false_2; [done|]. by apply Hunknown.
Qed.

(** X10.  A text the colour input box accepts is stored as the user typed
    it, trimmed and with a hash sign in front when it had none; it is never
    replaced by the fallback colour.  ([String.prototype.trim] is
    idempotent.) *)
Theorem accepted_custom_colour_is_kept (input : string) :
  String_trim (String_trim input) = String_trim input →
  customColorInputAccepted input = true →
  storedCustomColor input =
    (if startsWithHash (String_trim input) then String_trim input
     else "#" +:+ String_trim input) ∧
  isValidHexColor (storedCustomColor input) = true.
Proof.
  intros Htrim Haccepted.
  assert (isValidHexColor (storedCustomColor input) = true) as Hvalid
    by apply validateHexColor_valid.
  split; [|done].
  unfold storedCustomColor, setCustomColor, validateHexColor,
    normalizeHexColor in *.
  rewrite Htrim in *. revert Haccepted Hvalid.
  unfold customColorInputAccepted, startsWithHash, isValidHexColor.
  destruct (decide (String_trim input = "")) as [Hempty|Hne].
  { by rewrite Hempty. }
  rewrite (bool_decide_eq_false_2 _ Hne).
  destruct (String.list_ascii_of_string (String_trim input))
    as [|c digits] eqn:Hchars; [done|].
  case_bool_decide as Hc.
  - rewrite Hchars. rewrite (bool_decide_eq_true_2 _ Hc). simpl.
    by intros ->.
  - rewrite list_ascii_of_hash, Hchars.
    rewrite (bool_decide_eq_true_2 ("#"%char = "#"%char)) by done. simpl.
    by intros ->.
Qed.
End ColourFacts.

(** ** Hashes and identifiers *)

Lemma toInt32_range z : - 2 ^ 31 ≤ toInt32 z < 2 ^ 31.
Proof.
  unfold toInt32. pose proof (Z.mod_pos_bound (z + 2 ^ 31) (2 ^ 32)). lia.
Qed.

Lemma toInt32_congruent a b :
  (a - b) `mod` 2 ^ 32 = 0 → toInt32 a = toInt32 b.
Proof.
  intros Hab. unfold toInt32. f_equal.
  apply Z.mod_divide in Hab as [q Hq]; [|lia].
  replace (a + 2 ^ 31) with (b + 2 ^ 31 + q * 2 ^ 32) by lia.
  by rewrite Z.mod_add by lia.
Qed.

Lemma toInt32_mod z : (toInt32 z - z) `mod` 2 ^ 32 = 0.
Proof.
  unfold toInt32.
  rewrite (Z.mod_eq (z + 2 ^ 31) (2 ^ 32)) by lia.
  replace (z + 2 ^ 31 - 2 ^ 32 * ((z + 2 ^ 31) `div` 2 ^ 32) - 2 ^ 31 - z)
    with (- ((z + 2 ^ 31) `div` 2 ^ 32) * 2 ^ 32) by lia.
  apply Z.mod_mul. lia.
Qed.

Lemma hashStep_polynomial hash char :
  hashStep hash char = toInt32 (31 * hash + char).
Proof.
  unfold hashStep. apply toInt32_congruent.
  pose proof (toInt32_mod (toInt32 hash * 2 ^ 5)) as H1.
  pose proof (toInt32_mod hash) as H2.
  apply Z.mod_divide in H1 as [q1 Hq1]; [|lia].
  apply Z.mod_divide in H2 as [q2 Hq2]; [|lia].
  apply Z.mod_divide; [lia|]. exists (q1 + q2 * 2 ^ 5). lia.
Qed.

Lemma hashCode_polynomial_from h h' codes :
  (h - h') `mod` 2 ^ 32 = 0 → h = toInt32 h →
  foldl hashStep h codes
  = toInt32 (foldl (λ hash char, 31 * hash + char) h' codes).
Proof.
  revert h h'. induction codes as [|c codes IH]; intros h h' Hmod Hh; simpl.
  - rewrite Hh. by apply toInt32_congruent.
  - apply IH.
    + rewrite hashStep_polynomial.
      pose proof (toInt32_mod (31 * h + c)) as H1.
      apply Z.mod_divide in H1 as [q1 Hq1]; [|lia].
      apply Z.mod_divide in Hmod as [q2 Hq2]; [|lia].
      apply Z.mod_divide; [lia|]. exists (q1 + 31 * q2). lia.
    + rewrite hashStep_polynomial. symmetry. apply toInt32_congruent.
      apply toInt32_mod.
Qed.

Lemma digit36_alnum d : 0 ≤ d < 36 → isLowerAlnum (digit36 d).
Proof.
  intros Hd. unfold isLowerAlnum, digit36. case_bool_decide.
  - rewrite N_ascii_embedding by lia. lia.
  - rewrite N_ascii_embedding by lia. lia.
Qed.

Lemma digits36_spec fuel n acc :
  Forall isLowerAlnum acc →
  Forall isLowerAlnum (digits36 fuel n acc) ∧
  (length acc ≤ length (digits36 fuel n acc))%nat ∧
  (∀ k : nat, n < 36 ^ Z.of_nat k →
     (length (digits36 fuel n acc) ≤ k + length acc)%nat) ∧
  (0 < n → fuel ≠ O → (length acc < length (digits36 fuel n acc))%nat).
Proof.
  revert n acc. induction fuel as [|fuel IH]; intros n acc Hacc; simpl.
  { split_and!; [done|lia|intros; lia|done]. }
  case_bool_decide as Hn.
  { split_and!; [done|lia|intros; lia|lia]. }
  assert (Forall isLowerAlnum (digit36 (n `mod` 36) :: acc)) as Hacc'.
  { constructor; [|done]. apply digit36_alnum. by apply Z.mod_pos_bound. }
  destruct (IH (n `div` 36) _ Hacc') as (Hall & Hge & Hle & _).
  simpl in *. split_and!; [done|lia| |lia].
  intros [|k] Hk; [simpl in Hk; lia|].
  assert (n `div` 36 < 36 ^ Z.of_nat k) as Hdiv.
  { apply Z.div_lt_upper_bound; [lia|].
    by rewrite Nat2Z.inj_succ, Z.pow_succ_r in Hk by lia. }
  specialize (Hle k Hdiv). lia.
Qed.

Lemma length_string_of_list_ascii l :
  String.length (String.string_of_list_ascii l) = length l.
Proof. induction l as [|c l IH]; simpl; [done|]. by rewrite IH. Qed.

Lemma substring_all n s :
  (String.length s ≤ n)%nat → String.substring 0 n s = s.
Proof.
  revert n. induction s as [|c s IH]; intros [|n] Hlen; simpl in *; try done.
  - lia.
  - rewrite IH; [done|lia].
Qed.

Lemma toString36_spec n :
  0 ≤ n → n < 36 ^ 6 →
  (1 ≤ String.length (toString36 n) ≤ 6)%nat ∧
  Forall isLowerAlnum (String.list_ascii_of_string (toString36 n)).
Proof.
  intros H0 Hn. unfold toString36. case_bool_decide as Hzero.
  { split; [simpl; lia|]. simpl. apply Forall_cons; split; [|by apply Forall_nil].
    unfold isLowerAlnum. simpl. lia. }
  rewrite length_string_of_list_ascii, String.list_ascii_of_string_of_list_ascii.
  destruct (digits36_spec (S (Z.to_nat (Z.log2 n))) n [])
    as (Hall & _ & Hle & Hlt); [done|].
  specialize (Hle 6%nat Hn). specialize (Hlt ltac:(lia) ltac:(done)).
  simpl in *. split; [lia|done].
Qed.

Lemma simpleHash_spec (str : list Z) :
  - 2 ^ 31 ≤ hashCode str < 2 ^ 31 ∧
  hashCode str = toInt32 (foldl (λ hash char, 31 * hash + char) 0 str) ∧
  simpleHash str = toString36 (Z.abs (hashCode str)) ∧
  (1 ≤ String.length (simpleHash str) ≤ 6)%nat ∧
  Forall isLowerAlnum (String.list_ascii_of_string (simpleHash str)).
Proof.
  assert (hashCode str = toInt32 (foldl (λ hash char, 31 * hash + char) 0 str))
    as Hpoly by by apply hashCode_polynomial_from.
  assert (- 2 ^ 31 ≤ hashCode str < 2 ^ 31) as Hrange.
  { rewrite Hpoly. apply toInt32_range. }
  destruct (toString36_spec (Z.abs (hashCode str))) as [Hlen Hall]; [lia..|].
  assert (simpleHash str = toString36 (Z.abs (hashCode str))) as Hcut.
  { unfold simpleHash. apply substring_all. lia. }
  rewrite Hcut. split_and!; [lia|lia|done|done|lia|lia|done].
Qed.

(** X11.  The path hash: the shift-and-subtract loop computes the
    polynomial hash in base 31 of the code units, reduced to a signed
    32-bit integer; its absolute value has between one and six digits in
    base 36, all of them digits or lower-case letters, so the cut to six
    characters never removes anything.  The empty path hashes to [0]. *)
Theorem path_hash (str : list Z) :
  - 2 ^ 31 ≤ hashCode str < 2 ^ 31 ∧
  hashCode str = toInt32 (foldl (λ hash char, 31 * hash + char) 0 str) ∧
  simpleHash str = toString36 (Z.abs (hashCode str)) ∧
  (1 ≤ String.length (simpleHash str) ≤ 6)%nat ∧
  Forall isLowerAlnum (String.list_ascii_of_string (simpleHash str)) ∧
  simpleHash [] = "0".
Proof.
  destruct (simpleHash_spec str) as (? & ? & ? & ? & ?).
  split_and!; [lia|lia|done|done|lia|lia|done|by vm_compute].
Qed.

Section AutoColorProperties.
Context `{Colord}.
Variable colordHsl : Z → Z → Z → Colour.

(** X12.  The automatic colour of a workspace: the call returns a
    non-empty colour and leaves it in the cache under the workspace
    identifier, touching no other entry; asking again gives the same
    colour and the same cache; and the colour is either the one that was
    cached or the hex form of an HSL colour with saturation 65, lightness
    55 and a hue in [0, 360). *)
Theorem auto_colour_stable
    (autoColorCache : gmap string string)
    (workspaceFilePath firstFolderPath : option string) :
  let workspaceIdentifier :=
    or_else workspaceFilePath (or_else firstFolderPath "no-workspace") in
  let result :=
    generateAutoColorFromWorkspace colordHsl autoColorCache
      workspaceFilePath firstFolderPath in
  result.1 ≠ "" ∧
  result.2 !! workspaceIdentifier = Some result.1 ∧
  (∀ key, key ≠ workspaceIdentifier →
     result.2 !! key = autoColorCache !! key) ∧
  generateAutoColorFromWorkspace colordHsl result.2
    workspaceFilePath firstFolderPath = result ∧
  (result = (default "" (autoColorCache !! workspaceIdentifier), autoColorCache)
   ∨ ∃ hue, 0 ≤ hue < 360 ∧ result.1 = toHex (colordHsl hue 65 55)).
Proof.
  intros workspaceIdentifier result. subst result.
  unfold generateAutoColorFromWorkspace. fold workspaceIdentifier.
  destruct (truthy_str (autoColorCache !! workspaceIdentifier)) eqn:Hcached.
  - simpl. rewrite Hcached.
    destruct (autoColorCache !! workspaceIdentifier) as [cached|] eqn:Hget;
      [|done].
    simpl in *. split_and!; [|done|done|done|by left].
    intros ->. done.
  - cbn [fst snd]. rewrite lookup_insert_eq, truthy_toHex.
    split_and!; [apply toHex_nonempty|done| |done|].
    + intros key Hkey. by rewrite lookup_insert_ne.
    + right. eexists. split; [|done]. apply Z.mod_pos_bound. lia.
Qed.
End AutoColorProperties.

Lemma list_ascii_of_string_app (a b : string) :
  String.list_ascii_of_string (a +:+ b)
  = String.list_ascii_of_string a ++ String.list_ascii_of_string b.
Proof. induction a as [|c a IH]; simpl; [done|]. by rewrite IH. Qed.

Lemma toLowerCase_idChar c : isNameChar c = true → isIdChar (toLowerCase c).
Proof.
  unfold isNameChar, toLowerCase, isIdChar, isLowerAlnum.
  intros Hc%bool_decide_eq_true. case_bool_decide as Hupper.
  - pose proof (N_ascii_bounded c).
    rewrite N_ascii_embedding by lia. lia.
  - lia.
Qed.

Lemma sanitized_idChars (l : list ascii) :
  Forall isIdChar (toLowerCase <$> filter (λ c, isNameChar c = true) l).
Proof.
  apply Forall_fmap, Forall_forall. intros c [Hc _]%list_elem_of_filter.
  by apply toLowerCase_idChar.
Qed.

Lemma getWorkspaceName_Some firstFolder name :
  getWorkspaceName firstFolder = Some name →
  name ≠ "" ∧ Forall isIdChar (String.list_ascii_of_string name).
Proof.
  unfold getWorkspaceName. destruct firstFolder as [path|]; [|done].
  case_bool_decide; [done|]. case_bool_decide as Hempty; [done|].
  intros [= <-]. split; [done|].
  rewrite String.list_ascii_of_string_of_list_ascii. apply sanitized_idChars.
Qed.

Lemma isLowerAlnum_idChar l : Forall isLowerAlnum l → Forall isIdChar l.
Proof. intros Hl. eapply Forall_impl; [done|]. intros c Hc. by left. Qed.

(** X13.  The workspace identifier of a window: without a workspace folder
    it is [no-workspace]; with one it is a non-empty name, a dash and the
    hash of the folder's path, the name being [workspace] when the
    folder's last path segment has no letter, digit, dash or underscore.
    Either way it consists of lower-case letters, digits, dashes and
    underscores only. *)
Theorem workspace_id_shape (firstFolder : option string) :
  Forall isIdChar (String.list_ascii_of_string (currentWorkspaceId firstFolder)) ∧
  currentWorkspaceId None = "no-workspace" ∧
  ∀ workspacePath, ∃ name,
    currentWorkspaceId (Some workspacePath)
    = name +:+ "-" +:+ simpleHash (charCodes workspacePath) ∧
    name ≠ "" ∧
    name = default "workspace" (getWorkspaceName (Some workspacePath)).
Proof.
  assert (∀ workspacePath, ∃ name,
    currentWorkspaceId (Some workspacePath)
    = name +:+ "-" +:+ simpleHash (charCodes workspacePath) ∧
    name ≠ "" ∧
    name = default "workspace" (getWorkspaceName (Some workspacePath)) ∧
    Forall isIdChar (String.list_ascii_of_string name)) as Hshape.
  { intros workspacePath. unfold currentWorkspaceId, generateWorkspaceId.
    rewrite bool_decide_eq_true_2 by by eexists. cbn [negb default].
    destruct (getWorkspaceName (Some workspacePath)) as [name|] eqn:Hname.
    - apply getWorkspaceName_Some in Hname as [Hne Hchars].
      unfold truthy_str. rewrite bool_decide_eq_false_2 by done.
      exists name. by cbn [negb default].
    - exists "workspace". cbn [truthy_str default]. split_and!; try done.
      repeat (apply Forall_cons; split;
              [left; unfold isLowerAlnum; simpl; lia|]).
      by apply Forall_nil. }
  split_and!; [|done|].
  - destruct firstFolder as [workspacePath|].
    + destruct (Hshape workspacePath) as (name & -> & _ & _ & Hchars).
      rewrite !list_ascii_of_string_app.
      repeat apply Forall_app_2; [done| |].
      * apply Forall_cons; split; [|by apply Forall_nil].
        right; left. done.
      * apply isLowerAlnum_idChar, simpleHash_spec.
    + vm_compute String.list_ascii_of_string.
      repeat (apply Forall_cons; split;
              [first [left; unfold isLowerAlnum; simpl; lia
                     | right; left; reflexivity]|]).
      by apply Forall_nil.
  - intros workspacePath.
    destruct (Hshape workspacePath) as (name & ? & ? & ? & _). by exists name.
Qed.

(** ** The window title *)

Module TitleFacts.
Import TitleManager.

Lemma updateTitleInConfig_captures hasWorkspace title tm :
  capturesNext tm →
  holding hasWorkspace (config tm)
    (updateTitleInConfig hasWorkspace (Some title) tm).
Proof.
  intros Hnext. destruct tm as [ot oc ls ott ohv at' [d g w] us].
  unfold capturesNext in Hnext. simpl in Hnext.
  unfold holding, updateTitleInConfig, captureOriginalTitle, new.
  destruct oc; simpl.
  - destruct Hnext as [?|[Hsome Hne]]; [done|].
    rewrite bool_decide_eq_true_2 by done.
    rewrite (bool_decide_eq_false_2 _ Hne). simpl.
    destruct w, g; simpl; split_and!; try done; by eexists.
  - destruct w, g; simpl; split_and!; try done; by eexists.
Qed.

Lemma updateTitleInConfig_holds hasWorkspace original title tm :
  consistent hasWorkspace original →
  holding hasWorkspace original tm →
  holding hasWorkspace original
    (updateTitleInConfig hasWorkspace (Some title) tm).
Proof.
  intros Hcons (Hcaptured & Hcapture & Happlied & shown & Hlast & Hconfig).
  destruct tm as [ot oc ls ott ohv at' c us]. simpl in *. subst.
  assert (get (update original (Some shown)
                 (getConfigurationTarget hasWorkspace)) = Some shown) as Hget.
  { destruct original as [d g w]. unfold consistent in Hcons. simpl in Hcons.
    destruct hasWorkspace; simpl; [done|].
    destruct w as [w|]; [|done]. by discriminate Hcons. }
  unfold holding, updateTitleInConfig. simpl.
  rewrite Hget, (bool_decide_eq_true_2 (Some shown = Some shown)) by done.
  cbn [negb]. simpl. split_and!; try done.
  exists title. split; [done|].
  destruct original as [d g w]. by destruct hasWorkspace.
Qed.

Lemma setCalls_holds hasWorkspace original calls tm :
  consistent hasWorkspace original →
  holding hasWorkspace original tm →
  holding hasWorkspace original (setCalls hasWorkspace calls tm).
Proof.
  intros Hcons. revert tm.
  induction calls as [|call calls IH]; intros tm Hholding; [done|].
  apply IH. destruct call; by apply updateTitleInConfig_holds.
Qed.

Lemma setCalls_captures hasWorkspace calls tm :
  consistent hasWorkspace (config tm) →
  capturesNext tm →
  calls ≠ [] →
  holding hasWorkspace (config tm) (setCalls hasWorkspace calls tm).
Proof.
  intros Hcons Hnext Hcalls. destruct calls as [|call calls]; [done|].
  change (holding hasWorkspace (config tm)
            (setCalls hasWorkspace calls (setCall hasWorkspace tm call))).
  apply setCalls_holds; [done|].
  destruct call; by apply updateTitleInConfig_captures.
Qed.

Lemma reset_holding hasWorkspace original tm :
  consistent hasWorkspace original →
  holding hasWorkspace original tm →
  config (reset hasWorkspace tm) = original ∧
  head (updates (reset hasWorkspace tm))
  = Some (match workspaceValue original with
          | Some title => (Workspace, Some title)
          | None => (Global, globalValue original)
          end).
Proof.
  intros Hcons (Hcaptured & Hcapture & Happlied & shown & Hlast & Hconfig).
  destruct tm as [ot oc ls ott ohv at' c us]. simpl in *. subst.
  destruct original as [d g w]. unfold consistent in Hcons. simpl in Hcons.
  unfold captureOriginalTitle, new in Hcapture. simpl in Hcapture.
  unfold reset, restoreOriginalTitle. simpl.
  destruct w as [w|].
  - rewrite Hcons by done. simpl in Hcapture. injection Hcapture as -> -> ->.
    done.
  - destruct g as [g|]; simpl in Hcapture; injection Hcapture as -> -> ->;
      by destruct hasWorkspace.
Qed.

Lemma reset_fresh hasWorkspace tm :
  reset hasWorkspace tm
  = mk None false (lastSetTitle (reset hasWorkspace tm)) None false None
      (config (reset hasWorkspace tm)) (updates (reset hasWorkspace tm)).
Proof. done. Qed.

Lemma append_assoc (a b c : string) : (a +:+ b) +:+ c = a +:+ (b +:+ c).
Proof.
  induction a as [|x a IH]; [done|].
  change (String x ((a +:+ b) +:+ c) = String x (a +:+ (b +:+ c))).
  by rewrite IH.
Qed.

Lemma append_nonempty (a b : string) : b ≠ "" → a +:+ b ≠ "".
Proof. destruct a, b; done. Qed.

End TitleFacts.

(** X14.  The title round trip.  Whenever the next call captures the
    setting anew (the manager is fresh or just reset, or the title it reads
    is no longer the one it set), any non-empty run of [setActive] and
    [setInactive] calls followed by [reset] leaves the [window.title]
    setting exactly as that first call found it, in both scopes, and the
    manager as its constructor would; the last write of the reset is the
    captured value, to the scope it came from.  The workspace value is
    defined only in a workspace. *)
Theorem title_round_trip
    (hasWorkspace : bool) (calls : list TitleManager.SetCall)
    (tm : TitleManager.t) :
  TitleManager.capturesNext tm →
  TitleManager.consistent hasWorkspace (TitleManager.config tm) →
  calls ≠ [] →
  let tm' :=
    TitleManager.reset hasWorkspace
      (TitleManager.setCalls hasWorkspace calls tm) in
  TitleManager.config tm' = TitleManager.config tm ∧
  TitleManager.originalTitleCaptured tm' = false ∧
  TitleManager.appliedTarget tm' = None ∧
  head (TitleManager.updates tm')
  = Some (match TitleManager.workspaceValue (TitleManager.config tm) with
          | Some title => (Workspace, Some title)
          | None => (Global, TitleManager.globalValue (TitleManager.config tm))
          end).
Proof.
  intros Hnext Hcons Hcalls tm'.
  destruct (TitleFacts.reset_holding hasWorkspace (TitleManager.config tm)
              (TitleManager.setCalls hasWorkspace calls tm))
    as [Hconfig Hhead]; [done|by apply TitleFacts.setCalls_captures|].
  done.
Qed.

(** X15.  A title the user sets while the manager shows its own is the one
    that comes back: when the edited setting no longer reads as the title
    the manager last set, the next call captures the edited setting, and
    the reset that follows any further calls restores it, whatever had been
    captured before. *)
Theorem title_user_edit_restored
    (hasWorkspace : bool) (calls : list TitleManager.SetCall)
    (edited : TitleManager.WindowTitle) (tm : TitleManager.t) :
  is_Some (TitleManager.lastSetTitle tm) →
  TitleManager.get edited ≠ TitleManager.lastSetTitle tm →
  TitleManager.consistent hasWorkspace edited →
  calls ≠ [] →
  TitleManager.config
    (TitleManager.reset hasWorkspace
       (TitleManager.setCalls hasWorkspace calls
          (TitleManager.externalEdit edited tm)))
  = edited.
Proof.
  intros Hlast Hne Hcons Hcalls.
  destruct (TitleFacts.reset_holding hasWorkspace edited
              (TitleManager.setCalls hasWorkspace calls
                 (TitleManager.externalEdit edited tm)))
    as [Hconfig _]; [done| |done].
  apply (TitleFacts.setCalls_captures hasWorkspace calls
           (TitleManager.externalEdit edited tm)); [done| |done].
  right. done.
Qed.

(** X16.  A reset with nothing captured restores nothing: on a manager
    that is fresh or was just reset it removes the [window.title] value of
    the active scope, whatever it is, and leaves the other scope alone.
    So does every second reset in a row, and the [dispose] after a
    reset. *)
Theorem title_reset_without_capture
    (hasWorkspace : bool) (config : TitleManager.WindowTitle)
    (tm : TitleManager.t) :
  let target := TitleManager.getConfigurationTarget hasWorkspace in
  TitleManager.config (TitleManager.reset hasWorkspace (TitleManager.new config))
  = TitleManager.update config None target ∧
  TitleManager.config
    (TitleManager.dispose hasWorkspace (TitleManager.reset hasWorkspace tm))
  = TitleManager.update
      (TitleManager.config (TitleManager.reset hasWorkspace tm)) None target ∧
  TitleManager.lastSetTitle (TitleManager.reset hasWorkspace (TitleManager.new config))
  = TitleManager.get config.
Proof.
  intros target. subst target. split_and!.
  - unfold TitleManager.reset, TitleManager.restoreOriginalTitle. simpl.
    by destruct hasWorkspace.
  - unfold TitleManager.dispose.
    rewrite (TitleFacts.reset_fresh hasWorkspace tm).
    set (inner := TitleManager.config (TitleManager.reset hasWorkspace tm)).
    unfold TitleManager.reset at 1, TitleManager.restoreOriginalTitle. simpl.
    by destruct hasWorkspace.
  - unfold TitleManager.reset, TitleManager.restoreOriginalTitle. simpl.
    by destruct hasWorkspace.
Qed.

(** X17.  The active title is the inactive title behind the indicator: a
    non-empty indicator comes first, followed by a space and the inactive
    title when there is one; an empty indicator gives the inactive title.
    The inactive title is the folder name, then the file name, with
    [ - ] between the two when both are there. *)
Theorem title_indicator_prefix
    (rootName : option string) (fileName indicator : string) :
  let inactive := TitleManager.buildTitle rootName fileName None in
  TitleManager.buildTitle rootName fileName (Some indicator)
  = (if bool_decide (indicator = "") then inactive
     else if bool_decide (inactive = "") then indicator
     else indicator +:+ " " +:+ inactive) ∧
  inactive
  = (if truthy_str rootName then
       if bool_decide (fileName = "") then default "" rootName
       else default "" rootName +:+ " - " +:+ fileName
     else fileName).
Proof.
  intros inactive. subst inactive. unfold TitleManager.buildTitle.
  destruct rootName as [[|c r]|], fileName as [|c' f], indicator as [|c'' i];
    repeat match goal with
           | |- context [ "- " +:+ ?x ] =>
               change ("- " +:+ x) with (String "-"%char (String " "%char x))
           end;
    cbv -[String.append]; rewrite ?TitleFacts.append_assoc;
    split; reflexivity.
Qed.

(** ** The global document *)

Lemma removeTheme_global_untouched env log force tm :
  hasWorkspace env = true →
  globalValue (colorCustomizations (removeTheme env log force tm))
  = globalValue (colorCustomizations tm) ∧
  GLOBAL_THEME_STATE (removeTheme env log force tm) = GLOBAL_THEME_STATE tm.
Proof.
  intros Hws. unfold removeTheme. case_match; [done|].
  destruct force.
  - unfold applyDefaultColors, getConfigurationTarget,
      getWorkspaceConfigurationTarget, ensureOriginalCustomizationsCaptured.
    rewrite Hws. by case_match.
  - unfold restoreOriginalCustomizations, getConfigurationTarget,
      getWorkspaceConfigurationTarget.
    by rewrite Hws.
Qed.

Section GlobalDocument.
Context `{Colord}.

End GlobalDocument.

(** ** The manager's events *)

Section ManagerFacts.
Context `{Colord} `{JsHost}.

Lemma fingerprint_removeTheme env log force tm :
  fingerprintWhileApplied tm →
  fingerprintWhileApplied (removeTheme env log force tm).
Proof. apply (themeCall_invariant tm (CallRemoveTheme env log force)). Qed.

Lemma fingerprint_applyTheme env tm :
  fingerprintWhileApplied tm → fingerprintWhileApplied (applyTheme env tm).
Proof. apply (themeCall_invariant tm (CallApplyTheme env)). Qed.

Lemma fingerprint_restoreGlobal tm :
  fingerprintWhileApplied tm →
  fingerprintWhileApplied (restoreGlobalOriginalCustomizations tm).
Proof.
  apply (themeCall_invariant tm CallRestoreGlobalOriginalCustomizations).
Qed.

Ltac preserved_fields :=
  unfold preserved, managerInvariant; simpl; split_and!; try done;
  intros (? & ? & ?); split_and!; try done; try congruence.

Lemma preserved_refl m : preserved m m.
Proof. by unfold preserved. Qed.

Lemma preserved_trans m1 m2 m3 :
  preserved m1 m2 → preserved m2 m3 → preserved m1 m3.
Proof.
  unfold preserved. intros (-> & -> & H12) (-> & -> & H23). auto.
Qed.

Lemma applyActiveAppearance_preserved env indicator m :
  preserved m (applyActiveAppearance env indicator m).
Proof.
  unfold applyActiveAppearance, applyTitleIndicator, preserved,
    managerInvariant.
  repeat case_match; simpl; split_and!; try done.
  all: intros (? & ? & ?); split_and!; try done.
  all: first [by apply fingerprint_removeTheme | by apply fingerprint_applyTheme].
Qed.

Lemma applyActiveAppearance_fields env indicator m :
  let m' := applyActiveAppearance env indicator m in
  activeApplyTimer m' = activeApplyTimer m ∧
  isWindowActive m' = isWindowActive m ∧
  lastActivatedAt m' = lastActivatedAt m ∧
  coordinationFile m' = coordinationFile m.
Proof.
  unfold applyActiveAppearance, applyTitleIndicator.
  repeat case_match; simpl; done.
Qed.

Lemma notifyWindowActive_preserved now m :
  preserved m (notifyWindowActive now m).
Proof. preserved_fields. Qed.

Lemma deactivateWindow_preserved env preserveTheme m :
  preserved m (deactivateWindow env preserveTheme m).
Proof.
  unfold deactivateWindow, preserved, managerInvariant.
  repeat case_match; simpl; split_and!; try done.
  all: intros (? & ? & ?); split_and!; try done.
  all: try (by apply fingerprint_removeTheme).
Qed.

Lemma clearDeactivateTimer_preserved m : preserved m (clearDeactivateTimer m).
Proof. preserved_fields. Qed.

Lemma handleCoordinationChange_preserved env m :
  preserved m (handleCoordinationChange env m).
Proof.
  assert (∀ p, preserved m (scheduleDeactivation env p m)) as Hschedule.
  { intros p. eapply preserved_trans;
      [apply clearDeactivateTimer_preserved|apply deactivateWindow_preserved]. }
  unfold handleCoordinationChange, handleCoordinationData.
  repeat case_match; try apply Hschedule; try apply preserved_refl.
  preserved_fields.
Qed.

Lemma activation_preserved env indicator now m :
  isWindowActive m = true →
  preserved m
    (notifyWindowActive now
       (applyActiveAppearance env indicator (set_activeApplyTimer m false))).
Proof.
  intros Hactive.
  eapply preserved_trans; [|apply notifyWindowActive_preserved].
  eapply preserved_trans; [|apply applyActiveAppearance_preserved].
  preserved_fields.
Qed.

Lemma activateWindowAndNotify_preserved env indicator now m :
  preserved m (activateWindowAndNotify env indicator now m).
Proof.
  unfold activateWindowAndNotify.
  destruct (isWindowActive m) eqn:Hactive; [apply preserved_refl|].
  unfold applyActiveAppearanceWithDelay.
  destruct (js_gt _ _); simpl.
  - unfold preserved, managerInvariant. simpl. split_and!; try done.
    intros (? & ? & ?). done.
  - set (m1 := set_activeApplyTimer _ false).
    destruct (applyActiveAppearance_fields env indicator m1) as (-> & _).
    simpl.
    eapply preserved_trans; [|apply notifyWindowActive_preserved].
    eapply preserved_trans; [|apply applyActiveAppearance_preserved].
    preserved_fields.
Qed.

Lemma managerEvent_preserved m event : preserved m (managerEvent m event).
Proof.
  destruct event as [env ind now|env ind now|env|env ind now|env|env|content];
    simpl.
  - unfold handleUserInteraction.
    destruct (deactivateTimer m) eqn:Htimer.
    + simpl. eapply preserved_trans;
        [|apply activateWindowAndNotify_preserved].
      preserved_fields.
    + destruct (isWindowActive m); [apply preserved_refl|].
      apply activateWindowAndNotify_preserved.
  - unfold activeApplyTimerFired.
    destruct (activeApplyTimer m) eqn:Htimer; [|apply preserved_refl].
    eapply preserved_trans; [|apply notifyWindowActive_preserved].
    eapply preserved_trans; [|apply applyActiveAppearance_preserved].
    preserved_fields.
  - apply handleCoordinationChange_preserved.
  - unfold applyThemeFromCommand. case_match; [apply preserved_refl|].
    eapply preserved_trans; [|apply notifyWindowActive_preserved].
    eapply preserved_trans; [|apply applyActiveAppearance_preserved].
    preserved_fields.
  - unfold disable.
    set (m1 := deactivateWindow env false (clearDeactivateTimer m)).
    assert (preserved m m1) as Hm1.
    { eapply preserved_trans;
        [apply clearDeactivateTimer_preserved|apply deactivateWindow_preserved]. }
    eapply preserved_trans; [apply Hm1|].
    preserved_fields. by apply fingerprint_restoreGlobal.
  - unfold resetColors. preserved_fields. unfold resetAllColors.
    by apply fingerprint_restoreGlobal, fingerprint_removeTheme.
  - unfold fileWritten. preserved_fields.
Qed.

Lemma managerEvents_preserved events m : preserved m (managerEvents events m).
Proof.
  revert m. induction events as [|event events IH]; intros m;
    [apply preserved_refl|].
  eapply preserved_trans; [apply managerEvent_preserved|apply IH].
Qed.

Lemma startupReconciliation_fingerprint env localSnapshot applied
    globalSnapshot document :
  fingerprintWhileApplied
    (startupReconciliation env
       (newThemeManager localSnapshot applied globalSnapshot document)).
Proof.
  unfold startupReconciliation.
  apply (themeCall_invariant _ (CallEnsureCleanStateOnStartup env _ _)).
  by intros [? ?].
Qed.

(** X19.  The manager never waits to deactivate.  Whatever happens to a
    manager after its start (interactions, timers, changes of the shared
    file, commands), the deactivation timer is never pending, a pending
    activation timer belongs to a window that counts as active, the
    identifiers of the window never change, and the fingerprint is
    recorded only while the theme counts as applied.  So the branch of
    [handleUserInteraction] that cancels a pending deactivation is never
    taken: an interaction does nothing in an active window and activates
    an inactive one. *)
Theorem deactivation_never_pending
    (events : list ManagerEvent) (env0 : Env)
    (window workspace : string) (file : option string)
    (localSnapshot globalSnapshot : option (gmap string jsval))
    (applied : option bool) (document : Inspect) :
  let m :=
    managerEvents events
      (newFocusMarkManager window workspace
         (startupReconciliation env0
            (newThemeManager localSnapshot applied globalSnapshot document))
         file) in
  deactivateTimer m = false ∧
  (activeApplyTimer m = true → isWindowActive m = true) ∧
  windowId m = window ∧
  workspaceId m = workspace ∧
  fingerprintWhileApplied (themeManager m) ∧
  ∀ env indicator now,
    handleUserInteraction env indicator now m
    = if isWindowActive m then m
      else activateWindowAndNotify env indicator now m.
Proof.
  intros m.
  destruct (managerEvents_preserved events
              (newFocusMarkManager window workspace
                 (startupReconciliation env0
                    (newThemeManager localSnapshot applied globalSnapshot
                       document))
                 file)) as (Hwindow & Hworkspace & Hinv).
  destruct Hinv as (Htimer & Hactive & Hfingerprint).
  { unfold managerInvariant. simpl. split_and!; try done.
    apply startupReconciliation_fingerprint. }
  fold m in Htimer, Hactive, Hfingerprint, Hwindow, Hworkspace.
  split_and!; try done.
  intros env indicator now. unfold handleUserInteraction. by rewrite Htimer.
Qed.
End ManagerFacts.

Lemma removeTheme_off env log force tm :
  isThemeApplied (removeTheme env log force tm) = false.
Proof.
  unfold removeTheme. case_match eqn:Hearly; [|done].
  by destruct (isThemeApplied tm).
Qed.

Section ClaimsOfTheWindow.
Context `{Colord} `{JsHost}.

(** X20.  A window does not react to its own claim: once it has written
    its claim, the change of the shared file that it caused leaves the
    manager as it is, whatever the focus and the settings.  ([JSON.parse]
    reads back what [JSON.stringify] printed.) *)
Theorem own_claim_ignored (env : Env) (now : Z) (m : FocusMarkManager) :
  let claim :=
    CoordinationData.mk (Some (windowId m)) (Some (workspaceId m)) (Some now) in
  JSON_parse (JSON_stringify claim) = Some (Some claim) →
  handleCoordinationChange env (notifyWindowActive now m)
  = notifyWindowActive now m.
Proof.
  intros claim Hparse.
  unfold handleCoordinationChange. cbn [notifyWindowActive coordinationFile].
  fold claim. case_bool_decide; [done|]. rewrite Hparse.
  unfold handleCoordinationData. cbn [CoordinationData.activeWindowId claim].
  cbn [notifyWindowActive windowId].
  rewrite (bool_decide_eq_true_2 (Some (windowId m) = Some (windowId m)))
    by done.
  by rewrite orb_true_r.
Qed.


(** X22.  A delayed activation that is cancelled never takes effect.  An
    interaction in an inactive window with a positive apply delay marks
    the window active and starts the timer, and does nothing else: no
    colour, no title, no claim.  A deactivation before the timer fires
    clears it, and the timer event then changes nothing; had it fired
    first, the claim would carry the time of the firing. *)
Theorem cancelled_activation_never_applies
    (env env1 env2 : Env) (indicator indicator2 : string) (now now2 : Z)
    (preserveTheme : bool) (m : FocusMarkManager) :
  isWindowActive m = false →
  js_gt (activeApplyDelay (getConfiguration (settings env))) (Num 0%Q) = true →
  let pending := handleUserInteraction env indicator now m in
  let cancelled := scheduleDeactivation env1 preserveTheme pending in
  isWindowActive pending = true ∧
  activeApplyTimer pending = true ∧
  themeManager pending = themeManager m ∧
  titleManager pending = titleManager m ∧
  statusBarManager pending = statusBarManager m ∧
  coordinationFile pending = coordinationFile m ∧
  lastActivatedAt pending = lastActivatedAt m ∧
  isWindowActive cancelled = false ∧
  activeApplyTimer cancelled = false ∧
  activeApplyTimerFired env2 indicator2 now2 cancelled = cancelled ∧
  lastActivatedAt (activeApplyTimerFired env2 indicator2 now2 pending) = now2.
Proof.
  intros Hinactive Hdelay pending cancelled.
  assert (pending
          = set_activeApplyTimer
              (clearActiveApplyTimer
                 (set_isWindowActive
                    (clearDeactivateTimer
                       (if deactivateTimer m
                        then set_isWindowActive (clearDeactivateTimer m) false
                        else m)) true)) true) as Hpending.
  { subst pending. unfold handleUserInteraction.
    assert (isWindowActive
              (if deactivateTimer m
               then set_isWindowActive (clearDeactivateTimer m) false
               else m) = false) as Hstill by by destruct (deactivateTimer m).
    rewrite Hstill. unfold activateWindowAndNotify. rewrite Hstill.
    unfold applyActiveAppearanceWithDelay. by rewrite Hdelay. }
  assert (isWindowActive pending = true ∧ activeApplyTimer pending = true)
    as [Hactive Htimer] by by rewrite Hpending.
  destruct (deactivateWindow_spec env1 preserveTheme
              (clearDeactivateTimer pending)) as (Hoff & Hcleared & _);
    [by left|].
  fold (scheduleDeactivation env1 preserveTheme pending) in Hoff, Hcleared.
  fold cancelled in Hoff, Hcleared.
  split_and!; try done; try (rewrite Hpending; by destruct (deactivateTimer m)).
  all: unfold activeApplyTimerFired; by rewrite ?Hcleared, ?Htimer.
Qed.

(** X23.  Disabling leaves the window inactive and the theme off: on a
    manager that satisfies the invariant of its events, after [disable]
    neither the window nor the theme counts as active, no fingerprint and
    no timer is left, and the status bar item is hidden.  The global
    restore that [disable] calls never restores anything, and in a
    workspace the user's global document is left as it was; the claim in
    the shared file is not withdrawn. *)
Theorem disable_leaves_window_inactive (env : Env) (m : FocusMarkManager) :
  managerInvariant m →
  let m' := disable env m in
  isWindowActive m' = false ∧
  isActive (themeManager m') = false ∧
  lastAppliedPalette (themeManager m') = None ∧
  activeApplyTimer m' = false ∧
  deactivateTimer m' = false ∧
  head (statusBarManager m') = Some StatusHide ∧
  themeManager m' = themeManager (deactivateWindow env false m) ∧
  (hasWorkspace env = true →
   globalValue (colorCustomizations (themeManager m'))
   = globalValue (colorCustomizations (themeManager m))) ∧
  coordinationFile m' = coordinationFile m.
Proof.
  intros (Hdeactivate & Htimer & Hfingerprint) m'.
  assert (clearDeactivateTimer m = m) as Hclear.
  { destruct m. simpl in *. by subst. }
  set (m1 := deactivateWindow env false m).
  assert (isWindowActive m1 = false ∧ isThemeApplied (themeManager m1) = false
          ∧ lastAppliedPalette (themeManager m1) = None
          ∧ activeApplyTimer m1 = false ∧ deactivateTimer m1 = false
          ∧ coordinationFile m1 = coordinationFile m
          ∧ (hasWorkspace env = true →
             globalValue (colorCustomizations (themeManager m1))
             = globalValue (colorCustomizations (themeManager m))))
    as (Hoff & Htheme & Hpalette & Htimer1 & Hdeactivate1 & Hfile & Hglobal).
  { destruct (decide (isWindowActive m = true
                      ∨ isActive (themeManager m) = true)) as [Hon|Hidle].
    - destruct (deactivateWindow_spec env false m Hon)
        as (? & ? & Hd & _ & _ & _ & ? & Htm).
      cbn zeta in *. unfold m1.
      rewrite Hd. split_and!; try done.
      + rewrite Htm. cbn [andb].
        destruct (enableColors _).
        * by apply removeTheme_off.
        * by apply removeTheme_off.
      + rewrite Htm. cbn [andb].
        destruct (enableColors _); by apply removeTheme_fingerprint.
      + intros Hws. rewrite Htm. cbn [andb].
        destruct (enableColors _);
          by destruct (removeTheme_global_untouched env true
                         (negb (keepInactiveWindowColors
                                  (getConfiguration (settings env))))
                         (themeManager m) Hws),
                      (removeTheme_global_untouched env false false
                         (themeManager m) Hws).
    - assert (isWindowActive m = false ∧ isThemeApplied (themeManager m) = false)
        as [Hw Ht].
      { unfold isActive in Hidle.
        destruct (isWindowActive m), (isThemeApplied (themeManager m));
          try done; exfalso; apply Hidle; auto. }
      assert (m1 = m) as ->.
      { unfold m1, deactivateWindow, isActive. by rewrite Hw, Ht. }
      split_and!; try done.
      + destruct (lastAppliedPalette (themeManager m)) eqn:HP; [|done].
        rewrite Hfingerprint in Ht by (by rewrite HP). done.
      + destruct (activeApplyTimer m); [|done]. by rewrite Htimer in Hw. }
  subst m'. unfold disable. rewrite Hclear. fold m1.
  cbn [call_statusBar set_themeManager isWindowActive themeManager
         activeApplyTimer deactivateTimer statusBarManager coordinationFile head].
  rewrite (restoreGlobal_without_fingerprint _ Hpalette).
  split_and!; done.
Qed.
End ClaimsOfTheWindow.

(** ** The status bar item *)

Lemma updateDisplay_showsState env sb :
  StatusBarManager.showsState (StatusBarManager.updateDisplay env sb) ∧
  StatusBarManager.isActive (StatusBarManager.updateDisplay env sb)
  = StatusBarManager.isActive sb ∧
  StatusBarManager.visible (StatusBarManager.updateDisplay env sb)
  = enabled (getConfiguration (settings env)).
Proof.
  unfold StatusBarManager.updateDisplay, StatusBarManager.showsState.
  destruct (enabled _); simpl; [|done].
  by destruct (StatusBarManager.isActive sb).
Qed.

Lemma statusBar_call_showsState sb c :
  StatusBarManager.showsState sb →
  StatusBarManager.showsState (StatusBarManager.call sb c).
Proof.
  intros Hshows. destruct c as [env b|env| |env]; simpl.
  - unfold StatusBarManager.setActive. case_bool_decide; [done|].
    apply updateDisplay_showsState.
  - apply updateDisplay_showsState.
  - by intros ?.
  - apply updateDisplay_showsState.
Qed.

(** X24.  A visible status bar item tells the state the manager holds:
    starting from a hidden item, after any calls the item, when visible,
    shows the text and the tooltip of the current [isActive] and carries a
    colour exactly when active.  A display update with the extension
    disabled hides the item, and [setActive] with the state it already
    holds changes nothing. *)
Theorem status_bar_shows_state
    (cs : list StatusBarManager.Call) (sb : StatusBarManager.t)
    (env : Env) :
  StatusBarManager.visible sb = false →
  let sb' := StatusBarManager.calls cs sb in
  StatusBarManager.showsState sb' ∧
  StatusBarManager.setActive env (StatusBarManager.isActive sb') sb' = sb' ∧
  StatusBarManager.visible (StatusBarManager.show env sb')
  = enabled (getConfiguration (settings env)).
Proof.
  intros Hhidden sb'. split_and!.
  - subst sb'. unfold StatusBarManager.calls.
    assert (StatusBarManager.showsState sb) as Hshows
      by (intros Hvisible; congruence).
    clear Hhidden. revert sb Hshows.
    induction cs as [|c cs IH]; intros sb Hshows; [done|].
    apply IH. by apply statusBar_call_showsState.
  - unfold StatusBarManager.setActive. by rewrite bool_decide_eq_true_2.
  - apply updateDisplay_showsState.
Qed.

(** ** The comparison of two documents *)

Lemma same_reads_definedPart a b :
  (∀ k, js_get a k = js_get b k) → definedPart a = definedPart b.
Proof.
  intros Hreads. apply map_eq. intros k.
  by rewrite !definedPart_get, Hreads.
Qed.

(** X25.  [areCustomizationsEqual] holds exactly when the two records read
    the same at every key: the order of the keys and keys that are set to
    [undefined] make no difference.  So [applyColorsToWorkbench] writes to
    the document exactly when the merge changes what some key reads, and
    then it writes once. *)
Theorem customizations_equal_iff_same_reads
    (current next colors : gmap string jsval)
    (target : ConfigurationTarget) (tm : ThemeManager) :
  (areCustomizationsEqual current next = true ↔
   ∀ k, js_get current k = js_get next k) ∧
  let currentCustomizations :=
    or_empty (inspect_target (colorCustomizations tm) target) in
  let tm' := applyColorsToWorkbench colors target tm in
  (updates tm' = updates tm ↔
   ∀ k, js_get (spread currentCustomizations colors) k
        = js_get currentCustomizations k) ∧
  (updates tm' = updates tm ∨
   updates tm'
   = (target, Some (mergedCustomizations currentCustomizations colors))
     :: updates tm).
Proof.
  split.
  - rewrite areCustomizationsEqual_spec. split.
    + apply definedPart_eq_js_get.
    + apply same_reads_definedPart.
  - intros cur tm'. subst tm'.
    destruct (applyColorsToWorkbench_updates colors target tm)
      as [Hskip Hwrite].
    fold cur in Hskip, Hwrite.
    destruct (decide (definedPart (spread cur colors) = definedPart cur))
      as [Heq|Hne].
    + rewrite Hskip by done. split; [|by left].
      split; [|done]. intros _. by apply definedPart_eq_js_get.
    + rewrite Hwrite by done. cbn [config_update updates]. split; [|by right].
      split.
      * intros Hupdates. exfalso.
        assert (length ((target, Some (mergedCustomizations cur colors))
                          :: updates tm) = length (updates tm)) as Hlen
          by by rewrite Hupdates.
        simpl in Hlen. lia.
      * intros Hreads. destruct Hne. by apply same_reads_definedPart.
Qed.

(** ** Further concrete runs *)

Section FurtherRuns.
Import Scenario FurtherScenario.
Import SampleColord SampleHost.


(** The user's status bar colour is back after the apply and the remove. *)
Lemma apply_then_remove_roundtrip_witness :
  js_get
    (scopedCustomizations focusedWindow
       (removeTheme unfocusedWindow true false
          (applyTheme focusedWindow customized)))
    "statusBar.background"
  = VStr "#222222".
Proof.
  refine (eq_trans
            (proj1 (apply_then_remove_roundtrip focusedWindow unfocusedWindow
                      true customized _ _ _) "statusBar.background") _).
  - reflexivity.
  - reflexivity.
  - reflexivity.
  - by_evaluation.
Defined.


(** The global restore on the edited document clears the global
    snapshot. *)
Lemma global_restore_preserves_edits_witness :
  GLOBAL_THEME_STATE (restoreGlobalOriginalCustomizations edited) = None.
Proof.
  refine (proj1 (proj2 (proj2 (proj2
            (global_restore_preserves_edits edited
               (default ∅ (GLOBAL_THEME_STATE edited))
               (default ∅ (lastAppliedPalette edited)) _ _))))).
  - by_evaluation.
  - by_evaluation.
Defined.

(** Six digits typed without the hash sign and with blanks around are
    stored with it. *)
Lemma accepted_custom_colour_is_kept_witness :
  isValidHexColor (storedCustomColor " 1976d2 ") = true.
Proof.
  refine (proj2 (accepted_custom_colour_is_kept " 1976d2 " _ _)).
  - by_evaluation.
  - by_evaluation.
Defined.

(** Marking and unmarking the window and then resetting gives the user
    their title back. *)
Lemma title_round_trip_witness :
  TitleManager.config
    (TitleManager.reset false
       (TitleManager.setCalls false titleCalls (TitleManager.new userTitle)))
  = userTitle.
Proof.
  refine (proj1 (title_round_trip false titleCalls (TitleManager.new userTitle)
                   _ _ _)).
  - left. reflexivity.
  - intros [title Htitle]. discriminate Htitle.
  - discriminate.
Defined.

(** The user renames the window while it is marked; the reset after the
    next call restores the new name. *)
Lemma title_user_edit_restored_witness :
  TitleManager.config
    (TitleManager.reset false
       (TitleManager.setCalls false [TitleManager.CallSetInactive None "file.ts"]
          (TitleManager.externalEdit renamedTitle marked)))
  = renamedTitle.
Proof.
  refine (title_user_edit_restored false
            [TitleManager.CallSetInactive None "file.ts"] renamedTitle marked
            _ _ _ _).
  - by_evaluation.
  - by_evaluation.
  - intros [title Htitle]. discriminate Htitle.
  - discriminate.
Defined.


(** The window reads its own claim of time 150 and stays as it is. *)
Lemma own_claim_ignored_witness :
  handleCoordinationChange unfocusedWindow (notifyWindowActive 150 (window None))
  = notifyWindowActive 150 (window None).
Proof.
  refine (own_claim_ignored unfocusedWindow 150 (window None) _).
  by_evaluation.
Defined.

(** With the default delay of 100 ms: the interaction starts the timer, a
    sibling's claim deactivates the window first, and the timer event
    changes nothing. *)
Lemma cancelled_activation_never_applies_witness :
  let cancelled :=
    scheduleDeactivation unfocusedWorkspace false
      (handleUserInteraction focusedWorkspace "X" 100 idleWindow) in
  activeApplyTimerFired focusedWorkspace "X" 200 cancelled = cancelled.
Proof.
  refine (proj1 (proj2 (proj2 (proj2 (proj2 (proj2 (proj2 (proj2 (proj2 (proj2
            (cancelled_activation_never_applies focusedWorkspace
               unfocusedWorkspace focusedWorkspace "X" "X" 100 200 false
               idleWindow _ _))))))))))).
  - reflexivity.
  - reflexivity.
Defined.

(** Disabling the active window turns the theme off. *)
Lemma disable_leaves_window_inactive_witness :
  isActive (themeManager (disable unfocusedWindow (window None))) = false.
Proof.
  refine (proj1 (proj2
            (disable_leaves_window_inactive unfocusedWindow (window None) _))).
  split_and!.
  - reflexivity.
  - intros _. reflexivity.
  - intros _. by_evaluation.
Defined.

(** Shown and then set active, the item takes a second [setActive(true)]
    as no change. *)
Lemma status_bar_shows_state_witness :
  let item := StatusBarManager.calls statusCalls hiddenItem in
  StatusBarManager.setActive focusedWindow (StatusBarManager.isActive item) item
  = item.
Proof.
  refine (proj1 (proj2
            (status_bar_shows_state statusCalls hiddenItem focusedWindow _))).
  reflexivity.
Defined.

End FurtherRuns.
